(** * Delayed notifier: a shallow embedding of the dispatch engine

    The development follows the Go packages of the repository:
    [model] (the Notification entity), [repository] (the store, cache and
    queue interfaces), [postgres], [redis] and [rabbitmq] (their
    implementations), [service], [notifiers], [consumer] (the worker) and the
    HTTP handlers.  Go interfaces become type classes whose methods are state
    transformers; the external systems (PostgreSQL, Redis, the AMQP broker,
    the SMTP and Telegram endpoints) are finite maps and logs together with a
    tape of injected failures, so that every driver error the code handles
    can be exercised.  Logging calls have no effect on any result and are
    left out. *)

From Stdlib Require Import ZArith String Ascii List Lia DecimalString DecimalZ.
From stdpp Require Import gmap strings list.

Local Open Scope Z_scope.

(** ** Machine integers *)

(** Go's [int] and [int64] are 64-bit two's complement; [int16] is what the
    [attempts SMALLINT] column receives. *)
Definition wrap (bits : Z) (z : Z) : Z :=
  (z + 2 ^ (bits - 1)) mod 2 ^ bits - 2 ^ (bits - 1).

Definition int64 (z : Z) : Z := wrap 64 z.
Definition int16 (z : Z) : Z := wrap 16 z.

Definition minInt64 : Z := - 2 ^ 63.
Definition maxInt64 : Z := 2 ^ 63 - 1.

Definition in_int64 (z : Z) : bool := (minInt64 <=? z) && (z <=? maxInt64).

(** ** Errors *)

(** Modelled from the spec: the sentinel errors [repo.ErrNotFound] and
    [repo.ErrDuplicateRecord] of the repository package (their declaring file
    is not part of the sources); section 7 of the specification names them
    NotFound and DuplicateRecord.  [errorString] stands for [errors.New],
    for [fmt.Errorf] without a wrapped cause and for any driver error;
    [wrapError] for [fmt.Errorf] with a [%w] cause. *)
Inductive error : Type :=
| ErrNotFound
| ErrDuplicateRecord
| errorString (msg : string)
| wrapError (msg : string) (cause : error).

#[global] Instance error_eq_dec : EqDecision error.
Proof. solve_decision. Defined.

(** [errors.Is]: the target is the error itself or one of its causes. *)
Fixpoint errors_Is (err target : error) : bool :=
  bool_decide (err = target) ||
  match err with
  | wrapError _ cause => errors_Is cause target
  | _ => false
  end.

(** A Go result pair [(value, error)]. *)
Inductive result (A : Type) : Type :=
| Ok (a : A)
| Err (e : error).
Arguments Ok {A} a.
Arguments Err {A} e.

#[global] Instance result_ret : MRet result := @Ok.
#[global] Instance result_bind : MBind result := fun A B f r =>
  match r with
  | Ok a => f a
  | Err e => Err e
  end.

Definition is_Ok {A} (r : result A) : bool :=
  match r with Ok _ => true | Err _ => false end.

(** ** The domain model (package model) *)

Definition UUID : Type := N.
(** An instant, in nanoseconds since the Unix epoch. *)
Definition Time : Type := Z.
(** [time.Duration]: a signed 64-bit count of nanoseconds. *)
Definition Duration : Type := Z.

Definition Millisecond : Duration := 1000000.
Definition Second : Duration := 1000000000.

(** [Channel] and [Status] are named string types in the source. *)
Definition ChannelEmail : string := "email".
Definition ChannelTelegram : string := "telegram".

Definition StatusScheduled : string := "scheduled".
Definition StatusSent : string := "sent".
Definition StatusFailed : string := "failed".
Definition StatusCancelled : string := "cancelled".

Record EmailDetails : Type := { To : string }.
Record TelegramDetails : Type := { ChatID : Z }.

Record Notification : Type := {
  ID : UUID;
  Subject : string;
  Message : string;
  Channel : string;
  Status : string;
  Attempts : Z;
  AuthorID : option string;
  Email : option EmailDetails;
  Telegram : option TelegramDetails;
  ScheduledAt : Time;
  SentAt : option Time;
  CreatedAt : Time;
  UpdatedAt : Time
}.

(** The zero value of the struct, as [var notification model.Notification]. *)
Definition zeroNotification : Notification := {|
  ID := 0%N; Subject := ""; Message := ""; Channel := ""; Status := "";
  Attempts := 0; AuthorID := None; Email := None; Telegram := None;
  ScheduledAt := 0; SentAt := None; CreatedAt := 0; UpdatedAt := 0 |}.

(** Field assignments. *)
Definition set_ID (v : UUID) (n : Notification) : Notification :=
  {| ID := v; Subject := Subject n; Message := Message n; Channel := Channel n;
     Status := Status n; Attempts := Attempts n; AuthorID := AuthorID n;
     Email := Email n; Telegram := Telegram n; ScheduledAt := ScheduledAt n;
     SentAt := SentAt n; CreatedAt := CreatedAt n; UpdatedAt := UpdatedAt n |}.
Definition set_Subject (v : string) (n : Notification) : Notification :=
  {| ID := ID n; Subject := v; Message := Message n; Channel := Channel n;
     Status := Status n; Attempts := Attempts n; AuthorID := AuthorID n;
     Email := Email n; Telegram := Telegram n; ScheduledAt := ScheduledAt n;
     SentAt := SentAt n; CreatedAt := CreatedAt n; UpdatedAt := UpdatedAt n |}.
Definition set_Message (v : string) (n : Notification) : Notification :=
  {| ID := ID n; Subject := Subject n; Message := v; Channel := Channel n;
     Status := Status n; Attempts := Attempts n; AuthorID := AuthorID n;
     Email := Email n; Telegram := Telegram n; ScheduledAt := ScheduledAt n;
     SentAt := SentAt n; CreatedAt := CreatedAt n; UpdatedAt := UpdatedAt n |}.
Definition set_Channel (v : string) (n : Notification) : Notification :=
  {| ID := ID n; Subject := Subject n; Message := Message n; Channel := v;
     Status := Status n; Attempts := Attempts n; AuthorID := AuthorID n;
     Email := Email n; Telegram := Telegram n; ScheduledAt := ScheduledAt n;
     SentAt := SentAt n; CreatedAt := CreatedAt n; UpdatedAt := UpdatedAt n |}.
Definition set_Status (v : string) (n : Notification) : Notification :=
  {| ID := ID n; Subject := Subject n; Message := Message n; Channel := Channel n;
     Status := v; Attempts := Attempts n; AuthorID := AuthorID n;
     Email := Email n; Telegram := Telegram n; ScheduledAt := ScheduledAt n;
     SentAt := SentAt n; CreatedAt := CreatedAt n; UpdatedAt := UpdatedAt n |}.
Definition set_Attempts (v : Z) (n : Notification) : Notification :=
  {| ID := ID n; Subject := Subject n; Message := Message n; Channel := Channel n;
     Status := Status n; Attempts := v; AuthorID := AuthorID n;
     Email := Email n; Telegram := Telegram n; ScheduledAt := ScheduledAt n;
     SentAt := SentAt n; CreatedAt := CreatedAt n; UpdatedAt := UpdatedAt n |}.
Definition set_AuthorID (v : option string) (n : Notification) : Notification :=
  {| ID := ID n; Subject := Subject n; Message := Message n; Channel := Channel n;
     Status := Status n; Attempts := Attempts n; AuthorID := v;
     Email := Email n; Telegram := Telegram n; ScheduledAt := ScheduledAt n;
     SentAt := SentAt n; CreatedAt := CreatedAt n; UpdatedAt := UpdatedAt n |}.
Definition set_Email (v : option EmailDetails) (n : Notification) : Notification :=
  {| ID := ID n; Subject := Subject n; Message := Message n; Channel := Channel n;
     Status := Status n; Attempts := Attempts n; AuthorID := AuthorID n;
     Email := v; Telegram := Telegram n; ScheduledAt := ScheduledAt n;
     SentAt := SentAt n; CreatedAt := CreatedAt n; UpdatedAt := UpdatedAt n |}.
Definition set_Telegram (v : option TelegramDetails) (n : Notification) : Notification :=
  {| ID := ID n; Subject := Subject n; Message := Message n; Channel := Channel n;
     Status := Status n; Attempts := Attempts n; AuthorID := AuthorID n;
     Email := Email n; Telegram := v; ScheduledAt := ScheduledAt n;
     SentAt := SentAt n; CreatedAt := CreatedAt n; UpdatedAt := UpdatedAt n |}.
Definition set_ScheduledAt (v : Time) (n : Notification) : Notification :=
  {| ID := ID n; Subject := Subject n; Message := Message n; Channel := Channel n;
     Status := Status n; Attempts := Attempts n; AuthorID := AuthorID n;
     Email := Email n; Telegram := Telegram n; ScheduledAt := v;
     SentAt := SentAt n; CreatedAt := CreatedAt n; UpdatedAt := UpdatedAt n |}.
Definition set_SentAt (v : option Time) (n : Notification) : Notification :=
  {| ID := ID n; Subject := Subject n; Message := Message n; Channel := Channel n;
     Status := Status n; Attempts := Attempts n; AuthorID := AuthorID n;
     Email := Email n; Telegram := Telegram n; ScheduledAt := ScheduledAt n;
     SentAt := v; CreatedAt := CreatedAt n; UpdatedAt := UpdatedAt n |}.
Definition set_CreatedAt (v : Time) (n : Notification) : Notification :=
  {| ID := ID n; Subject := Subject n; Message := Message n; Channel := Channel n;
     Status := Status n; Attempts := Attempts n; AuthorID := AuthorID n;
     Email := Email n; Telegram := Telegram n; ScheduledAt := ScheduledAt n;
     SentAt := SentAt n; CreatedAt := v; UpdatedAt := UpdatedAt n |}.
Definition set_UpdatedAt (v : Time) (n : Notification) : Notification :=
  {| ID := ID n; Subject := Subject n; Message := Message n; Channel := Channel n;
     Status := Status n; Attempts := Attempts n; AuthorID := AuthorID n;
     Email := Email n; Telegram := Telegram n; ScheduledAt := ScheduledAt n;
     SentAt := SentAt n; CreatedAt := CreatedAt n; UpdatedAt := v |}.

(** [NewEmailNotification] and [NewTelegramNotification]; [id] is the result
    of [uuid.New()] and [now] the reading of [time.Now().UTC()]. *)
Definition NewEmailNotification (id : UUID) (now : Time)
    (recipientEmail subject message : string) (scheduledAt : Time)
    (authorID : option string) : Notification := {|
  ID := id; Subject := subject; Message := message; Channel := ChannelEmail;
  Status := StatusScheduled; Attempts := 0; AuthorID := authorID;
  Email := Some {| To := recipientEmail |}; Telegram := None;
  ScheduledAt := scheduledAt; SentAt := None; CreatedAt := now; UpdatedAt := now |}.

Definition NewTelegramNotification (id : UUID) (now : Time)
    (chatID : Z) (subject message : string) (scheduledAt : Time)
    (authorID : option string) : Notification := {|
  ID := id; Subject := subject; Message := message; Channel := ChannelTelegram;
  Status := StatusScheduled; Attempts := 0; AuthorID := authorID;
  Email := None; Telegram := Some {| ChatID := chatID |};
  ScheduledAt := scheduledAt; SentAt := None; CreatedAt := now; UpdatedAt := now |}.

(** The integer fields hold Go integers. *)
Definition wf_Notification (n : Notification) : Prop :=
  in_int64 (Attempts n) = true ∧
  match Telegram n with
  | Some t => in_int64 (ChatID t) = true
  | None => True
  end.

(** ** JSON documents (encoding/json) *)

(** A message body or cache value is kept as the JSON document it denotes;
    numbers are the integer literals that the integer fields produce. *)
#[local] Unset Elimination Schemes.
Inductive json : Type :=
| JNull
| JBool (b : bool)
| JNumber (z : Z)
| JString (s : string)
| JArray (items : list json)
| JObject (fields : list (string * json)).
#[local] Set Elimination Schemes.

(** [uuid.UUID] renders itself with [String] (also its [MarshalText]) and is
    read back by [uuid.Parse] (also its [UnmarshalText]); the library
    guarantees that the canonical text parses to the same identifier. *)
Class UUIDText : Type := {
  uuid_String : UUID → string;
  uuid_Parse : string → result UUID;
  uuid_Parse_String : ∀ u, uuid_Parse (uuid_String u) = Ok u
}.

(** [time.Time] implements [MarshalJSON] (which refuses years outside
    0..9999) and [UnmarshalJSON]; the text that is produced denotes the same
    instant. *)
Class TimeJSON : Type := {
  time_MarshalJSON : Time → result string;
  time_UnmarshalJSON : string → result Time;
  time_Unmarshal_Marshal :
    ∀ t s, time_MarshalJSON t = Ok s → time_UnmarshalJSON s = Ok t
}.

(** Field names are matched without regard to letter case. *)
Definition lower (c : ascii) : ascii :=
  match c with
  | "A" => "a" | "B" => "b" | "C" => "c" | "D" => "d" | "E" => "e" | "F" => "f"
  | "G" => "g" | "H" => "h" | "I" => "i" | "J" => "j" | "K" => "k" | "L" => "l"
  | "M" => "m" | "N" => "n" | "O" => "o" | "P" => "p" | "Q" => "q" | "R" => "r"
  | "S" => "s" | "T" => "t" | "U" => "u" | "V" => "v" | "W" => "w" | "X" => "x"
  | "Y" => "y" | "Z" => "z"
  | _ => c
  end%char.

Fixpoint foldName (s : string) : string :=
  match s with
  | EmptyString => EmptyString
  | String c rest => String (lower c) (foldName rest)
  end.

(** The members of an object are stored one after the other into the value
    being filled, so a later duplicate overrides an earlier one. *)
Fixpoint decode_fields {A : Type} (store : A → string * json → result A)
    (cur : A) (fields : list (string * json)) : result A :=
  match fields with
  | [] => Ok cur
  | kv :: rest => cur' ← store cur kv; decode_fields store cur' rest
  end.

Definition typeError (what : string) : error :=
  errorString ("json: cannot unmarshal value into Go value of type " +:+ what).

(** [null] leaves a non-pointer destination as it is. *)
Definition decode_string (cur : string) (j : json) : result string :=
  match j with
  | JNull => Ok cur
  | JString s => Ok s
  | _ => Err (typeError "string")
  end.

Definition decode_int (cur : Z) (j : json) : result Z :=
  match j with
  | JNull => Ok cur
  | JNumber z => if in_int64 z then Ok z else Err (typeError "int")
  | _ => Err (typeError "int")
  end.

(** [null] sets a pointer to nil; any other value is decoded into the
    pointee, which is allocated when the pointer is nil. *)
Definition decode_ptr {A : Type} (zero : A) (dec : A → json → result A)
    (cur : option A) (j : json) : result (option A) :=
  match j with
  | JNull => Ok None
  | _ => a ← dec (default zero cur) j; mret (Some a)
  end.

Definition decode_EmailDetails (cur : EmailDetails) (j : json) : result EmailDetails :=
  match j with
  | JNull => Ok cur
  | JObject fields =>
      decode_fields (fun e kv =>
        if String.eqb (foldName kv.1) "to"
        then to ← decode_string (To e) kv.2; mret {| To := to |}
        else Ok e) cur fields
  | _ => Err (typeError "model.EmailDetails")
  end.

Definition decode_TelegramDetails (cur : TelegramDetails) (j : json)
    : result TelegramDetails :=
  match j with
  | JNull => Ok cur
  | JObject fields =>
      decode_fields (fun t kv =>
        if String.eqb (foldName kv.1) "chatid"
        then c ← decode_int (ChatID t) kv.2; mret {| ChatID := c |}
        else Ok t) cur fields
  | _ => Err (typeError "model.TelegramDetails")
  end.

Section Json.
Context `{!UUIDText, !TimeJSON}.

Definition decode_UUID (cur : UUID) (j : json) : result UUID :=
  match j with
  | JNull => Ok cur
  | JString s => uuid_Parse s
  | _ => Err (typeError "uuid.UUID")
  end.

Definition decode_Time (cur : Time) (j : json) : result Time :=
  match j with
  | JNull => Ok cur
  | JString s => time_UnmarshalJSON s
  | _ => Err (errorString "Time.UnmarshalJSON: input is not a JSON string")
  end.

Definition decode_Notification_field (n : Notification) (kv : string * json)
    : result Notification :=
  let k := foldName kv.1 in
  let v := kv.2 in
  if String.eqb k "id" then x ← decode_UUID (ID n) v; mret (set_ID x n)
  else if String.eqb k "subject" then
    x ← decode_string (Subject n) v; mret (set_Subject x n)
  else if String.eqb k "message" then
    x ← decode_string (Message n) v; mret (set_Message x n)
  else if String.eqb k "channel" then
    x ← decode_string (Channel n) v; mret (set_Channel x n)
  else if String.eqb k "status" then
    x ← decode_string (Status n) v; mret (set_Status x n)
  else if String.eqb k "attempts" then
    x ← decode_int (Attempts n) v; mret (set_Attempts x n)
  else if String.eqb k "authorid" then
    x ← decode_ptr "" decode_string (AuthorID n) v; mret (set_AuthorID x n)
  else if String.eqb k "email" then
    x ← decode_ptr {| To := "" |} decode_EmailDetails (Email n) v;
    mret (set_Email x n)
  else if String.eqb k "telegram" then
    x ← decode_ptr {| ChatID := 0 |} decode_TelegramDetails (Telegram n) v;
    mret (set_Telegram x n)
  else if String.eqb k "scheduledat" then
    x ← decode_Time (ScheduledAt n) v; mret (set_ScheduledAt x n)
  else if String.eqb k "sentat" then
    x ← decode_ptr (A:=Time) 0 decode_Time (SentAt n) v; mret (set_SentAt x n)
  else if String.eqb k "createdat" then
    x ← decode_Time (CreatedAt n) v; mret (set_CreatedAt x n)
  else if String.eqb k "updatedat" then
    x ← decode_Time (UpdatedAt n) v; mret (set_UpdatedAt x n)
  else Ok n.

(** [json.Unmarshal(body, &notification)] with [notification] the zero
    value. *)
Definition json_Unmarshal (body : json) : result Notification :=
  match body with
  | JNull => Ok zeroNotification
  | JObject fields =>
      decode_fields decode_Notification_field zeroNotification fields
  | _ => Err (typeError "model.Notification")
  end.

Definition marshal_Time (t : Time) : result json :=
  s ← time_MarshalJSON t; mret (JString s).

Definition marshal_ptr {A : Type} (enc : A → result json) (p : option A)
    : result json :=
  match p with
  | Some a => enc a
  | None => Ok JNull
  end.

Definition marshal_EmailDetails (e : EmailDetails) : result json :=
  Ok (JObject [("To", JString (To e))]).

Definition marshal_TelegramDetails (t : TelegramDetails) : result json :=
  Ok (JObject [("ChatID", JNumber (ChatID t))]).

(** [json.Marshal(n)]: the struct has no tags, so every exported field is
    written under its own name, in declaration order, nil pointers as
    [null]. *)
Definition json_Marshal (n : Notification) : result json :=
  authorID ← marshal_ptr (fun s => Ok (JString s)) (AuthorID n);
  email ← marshal_ptr marshal_EmailDetails (Email n);
  telegram ← marshal_ptr marshal_TelegramDetails (Telegram n);
  scheduledAt ← marshal_Time (ScheduledAt n);
  sentAt ← marshal_ptr marshal_Time (SentAt n);
  createdAt ← marshal_Time (CreatedAt n);
  updatedAt ← marshal_Time (UpdatedAt n);
  mret (JObject [
    ("ID", JString (uuid_String (ID n)));
    ("Subject", JString (Subject n));
    ("Message", JString (Message n));
    ("Channel", JString (Channel n));
    ("Status", JString (Status n));
    ("Attempts", JNumber (Attempts n));
    ("AuthorID", authorID);
    ("Email", email);
    ("Telegram", telegram);
    ("ScheduledAt", scheduledAt);
    ("SentAt", sentAt);
    ("CreatedAt", createdAt);
    ("UpdatedAt", updatedAt)]).

(** Every timestamp of the notification has a JSON form. *)
Definition times_marshalable (n : Notification) : Prop :=
  is_Ok (time_MarshalJSON (ScheduledAt n)) = true ∧
  is_Ok (time_MarshalJSON (CreatedAt n)) = true ∧
  is_Ok (time_MarshalJSON (UpdatedAt n)) = true ∧
  match SentAt n with
  | Some t => is_Ok (time_MarshalJSON t) = true
  | None => True
  end.

End Json.

(** ** The storage contracts (package repository) *)

(** Each method takes the state of the component it is called on and
    returns the result together with the state it leaves. *)
Class NotificationRepository (R : Type) : Type := {
  repo_Save : Notification → R → result Notification * R;
  repo_GetByID : UUID → R → result Notification * R;
  repo_Update : Notification → R → option error * R;
  repo_Delete : UUID → R → option error * R
}.

Class NotificationCache (C : Type) : Type := {
  cache_Get : UUID → C → result Notification * C;
  cache_Set : Notification → Duration → C → option error * C;
  cache_Delete : UUID → C → option error * C
}.

(** [Publish] reads the wall clock ([time.Until]); the reading is the first
    argument. *)
Class NotificationQueue (Q : Type) : Type := {
  queue_Publish : Time → Notification → Q → option error * Q;
  queue_PublishRetry : Notification → Duration → Q → option error * Q
}.

(** The transport contract (package notifiers). *)
Class Notifier (D : Type) : Type := {
  notifier_Send : Notification → D → option error * D
}.

(** An external call fails when the next entry of the failure tape says so;
    the entry is consumed either way. *)
Definition next_fault {E : Type} (tape : list (option E))
    : option E * list (option E) :=
  match tape with
  | [] => (None, [])
  | f :: rest => (f, rest)
  end.

(** ** PostgreSQL (package postgres and the generated queries) *)

(** A row of table [notifications]; nullable columns are options. *)
Record db_Notification : Type := {
  db_ID : UUID;
  db_Subject : string;
  db_Message : string;
  db_AuthorID : option string;
  db_EmailTo : option string;
  db_TelegramChatID : option Z;
  db_Channel : string;
  db_Status : string;
  db_Attempts : Z;
  db_ScheduledAt : Time;
  db_SentAt : option Time;
  db_CreatedAt : Time;
  db_UpdatedAt : Time
}.

Record CreateNotificationParams : Type := {
  cp_Subject : string;
  cp_Message : string;
  cp_AuthorID : option string;
  cp_EmailTo : option string;
  cp_TelegramChatID : option Z;
  cp_Channel : string;
  cp_Status : string;
  cp_Attempts : Z;
  cp_ScheduledAt : Time
}.

Record UpdateNotificationStatusParams : Type := {
  up_ID : UUID;
  up_Status : string;
  up_Attempts : Z;
  up_SentAt : option Time
}.

(** What the driver reports: no row, a server error with its SQLSTATE, or
    anything else (connection loss, cancelled context). *)
Inductive pgError : Type :=
| pgx_ErrNoRows
| PgError (code : string)
| pgOther (msg : string).

Definition UniqueViolation : string := "23505".
Definition CheckViolation : string := "23514".
Definition InvalidTextRepresentation : string := "22P02".

Definition pg_error (e : pgError) : error :=
  match e with
  | pgx_ErrNoRows => errorString "no rows in result set"
  | PgError code => errorString ("ERROR: SQLSTATE " +:+ code)
  | pgOther msg => errorString msg
  end.

(** The database: the table, the server clock ([NOW()]), the values that
    [gen_random_uuid()] will return, and the failures still to come (a lost
    connection, a cancelled context, a row that falls in no partition). *)
Record Postgres : Type := {
  rows : gmap UUID db_Notification;
  pg_now : Time;
  pg_random : list UUID;
  pg_faults : list (option pgError)
}.

Definition pg_with_rows (rs : gmap UUID db_Notification) (pg : Postgres) : Postgres :=
  {| rows := rs; pg_now := pg_now pg; pg_random := pg_random pg;
     pg_faults := pg_faults pg |}.

(** One round trip to the server. *)
Definition pg_begin (pg : Postgres) : option pgError * Postgres :=
  let '(fault, rest) := next_fault (pg_faults pg) in
  (fault, {| rows := rows pg; pg_now := pg_now pg; pg_random := pg_random pg;
             pg_faults := rest |}).

Definition pg_gen_random_uuid (pg : Postgres) : UUID * Postgres :=
  match pg_random pg with
  | [] => (0%N, pg)
  | u :: rest =>
      (u, {| rows := rows pg; pg_now := pg_now pg; pg_random := rest;
             pg_faults := pg_faults pg |})
  end.

(** The enumerated column types of the migration. *)
Definition channel_type (s : string) : bool :=
  String.eqb s "email" || String.eqb s "telegram".

Definition notification_status (s : string) : bool :=
  String.eqb s "scheduled" || String.eqb s "sent" ||
  String.eqb s "failed" || String.eqb s "cancelled".

(** CONSTRAINT chk_recipient_channel. *)
Definition chk_recipient_channel (channel : string) (email_to : option string)
    (telegram_chat_id : option Z) : bool :=
  (String.eqb channel "email" && bool_decide (is_Some email_to)
     && bool_decide (telegram_chat_id = None)) ||
  (String.eqb channel "telegram" && bool_decide (is_Some telegram_chat_id)
     && bool_decide (email_to = None)).

(** TIMESTAMPTZ keeps microseconds. *)
Definition timestamptz (t : Time) : Time := t / 1000 * 1000.

(** -- name: CreateNotification :one *)
Definition db_CreateNotification (p : CreateNotificationParams) (pg : Postgres)
    : (pgError + db_Notification) * Postgres :=
  let '(fault, pg) := pg_begin pg in
  match fault with
  | Some e => (inl e, pg)
  | None =>
      if negb (channel_type (cp_Channel p) && notification_status (cp_Status p))
      then (inl (PgError InvalidTextRepresentation), pg)
      else if negb (chk_recipient_channel (cp_Channel p) (cp_EmailTo p)
                      (cp_TelegramChatID p))
      then (inl (PgError CheckViolation), pg)
      else
        let '(id, pg) := pg_gen_random_uuid pg in
        match rows pg !! id with
        | Some _ => (inl (PgError UniqueViolation), pg)
        | None =>
            let row := {|
              db_ID := id;
              db_Subject := cp_Subject p;
              db_Message := cp_Message p;
              db_AuthorID := cp_AuthorID p;
              db_EmailTo := cp_EmailTo p;
              db_TelegramChatID := cp_TelegramChatID p;
              db_Channel := cp_Channel p;
              db_Status := cp_Status p;
              db_Attempts := cp_Attempts p;
              db_ScheduledAt := timestamptz (cp_ScheduledAt p);
              db_SentAt := None;
              db_CreatedAt := pg_now pg;
              db_UpdatedAt := pg_now pg |} in
            (inr row, pg_with_rows (<[id := row]> (rows pg)) pg)
        end
  end.

(** -- name: GetNotificationByID :one *)
Definition db_GetNotificationByID (id : UUID) (pg : Postgres)
    : (pgError + db_Notification) * Postgres :=
  let '(fault, pg) := pg_begin pg in
  match fault with
  | Some e => (inl e, pg)
  | None =>
      match rows pg !! id with
      | Some row => (inr row, pg)
      | None => (inl pgx_ErrNoRows, pg)
      end
  end.

(** -- name: UpdateNotificationStatus :one
    (the trigger [set_timestamp] advances [updated_at]) *)
Definition db_UpdateNotificationStatus (p : UpdateNotificationStatusParams)
    (pg : Postgres) : (pgError + db_Notification) * Postgres :=
  let '(fault, pg) := pg_begin pg in
  match fault with
  | Some e => (inl e, pg)
  | None =>
      if negb (notification_status (up_Status p))
      then (inl (PgError InvalidTextRepresentation), pg)
      else
        match rows pg !! up_ID p with
        | None => (inl pgx_ErrNoRows, pg)
        | Some old =>
            let row := {|
              db_ID := db_ID old;
              db_Subject := db_Subject old;
              db_Message := db_Message old;
              db_AuthorID := db_AuthorID old;
              db_EmailTo := db_EmailTo old;
              db_TelegramChatID := db_TelegramChatID old;
              db_Channel := db_Channel old;
              db_Status := up_Status p;
              db_Attempts := up_Attempts p;
              db_ScheduledAt := db_ScheduledAt old;
              db_SentAt := timestamptz <$> up_SentAt p;
              db_CreatedAt := db_CreatedAt old;
              db_UpdatedAt := pg_now pg |} in
            (inr row, pg_with_rows (<[up_ID p := row]> (rows pg)) pg)
        end
  end.

(** -- name: CancelNotification :one *)
Definition db_CancelNotification (id : UUID) (pg : Postgres)
    : (pgError + db_Notification) * Postgres :=
  let '(fault, pg) := pg_begin pg in
  match fault with
  | Some e => (inl e, pg)
  | None =>
      match rows pg !! id with
      | None => (inl pgx_ErrNoRows, pg)
      | Some old =>
          let row := {|
            db_ID := db_ID old;
            db_Subject := db_Subject old;
            db_Message := db_Message old;
            db_AuthorID := db_AuthorID old;
            db_EmailTo := db_EmailTo old;
            db_TelegramChatID := db_TelegramChatID old;
            db_Channel := db_Channel old;
            db_Status := "cancelled";
            db_Attempts := db_Attempts old;
            db_ScheduledAt := db_ScheduledAt old;
            db_SentAt := db_SentAt old;
            db_CreatedAt := db_CreatedAt old;
            db_UpdatedAt := pg_now pg |} in
          (inr row, pg_with_rows (<[id := row]> (rows pg)) pg)
      end
  end.

(** The mapper functions of the repository. *)
Definition toDBCreateParams (n : Notification) : result CreateNotificationParams :=
  let params (email_to : option string) (chat : option Z) := {|
    cp_Subject := Subject n;
    cp_Message := Message n;
    cp_AuthorID := AuthorID n;
    cp_EmailTo := email_to;
    cp_TelegramChatID := chat;
    cp_Channel := Channel n;
    cp_Status := Status n;
    cp_Attempts := int16 (Attempts n);
    cp_ScheduledAt := ScheduledAt n |} in
  if String.eqb (Channel n) ChannelEmail then
    match Email n with
    | None => Err (errorString "email recipient is required for email channel")
    | Some e =>
        if String.eqb (To e) ""
        then Err (errorString "email recipient is required for email channel")
        else Ok (params (Some (To e)) None)
    end
  else if String.eqb (Channel n) ChannelTelegram then
    match Telegram n with
    | None => Err (errorString "telegram recipient is required for telegram channel")
    | Some t => Ok (params None (Some (ChatID t)))
    end
  else Err (errorString ("unsupported channel type: " +:+ Channel n)).

Definition toDBUpdateParams (n : Notification) : result UpdateNotificationStatusParams :=
  Ok {| up_ID := ID n; up_Status := Status n; up_Attempts := int16 (Attempts n);
        up_SentAt := SentAt n |}.

Definition toDomainModel (dbn : db_Notification) : result Notification :=
  Ok {|
    ID := db_ID dbn;
    Subject := db_Subject dbn;
    Message := db_Message dbn;
    Channel := db_Channel dbn;
    Status := db_Status dbn;
    Attempts := db_Attempts dbn;
    AuthorID := db_AuthorID dbn;
    Email :=
      if String.eqb (db_Channel dbn) ChannelEmail
      then (fun s => {| To := s |}) <$> db_EmailTo dbn else None;
    Telegram :=
      if String.eqb (db_Channel dbn) ChannelEmail then None
      else if String.eqb (db_Channel dbn) ChannelTelegram
      then (fun c => {| ChatID := c |}) <$> db_TelegramChatID dbn else None;
    ScheduledAt := db_ScheduledAt dbn;
    SentAt := db_SentAt dbn;
    CreatedAt := db_CreatedAt dbn;
    UpdatedAt := db_UpdatedAt dbn |}.

Definition postgres_Save (n : Notification) (pg : Postgres)
    : result Notification * Postgres :=
  match toDBCreateParams n with
  | Err err => (Err err, pg)
  | Ok params =>
      match db_CreateNotification params pg with
      | (inl e, pg) =>
          match e with
          | PgError code =>
              if String.eqb code UniqueViolation then (Err ErrDuplicateRecord, pg)
              else (Err (wrapError "postgres: CreateNotification failed" (pg_error e)), pg)
          | _ => (Err (wrapError "postgres: CreateNotification failed" (pg_error e)), pg)
          end
      | (inr createdDB, pg) => (toDomainModel createdDB, pg)
      end
  end.

Definition postgres_GetByID (id : UUID) (pg : Postgres)
    : result Notification * Postgres :=
  match db_GetNotificationByID id pg with
  | (inl e, pg) =>
      match e with
      | pgx_ErrNoRows => (Err ErrNotFound, pg)
      | _ => (Err (wrapError "postgres: GetNotificationByID failed" (pg_error e)), pg)
      end
  | (inr dbNotification, pg) => (toDomainModel dbNotification, pg)
  end.

Definition postgres_Update (n : Notification) (pg : Postgres)
    : option error * Postgres :=
  match toDBUpdateParams n with
  | Err err => (Some err, pg)
  | Ok params =>
      match db_UpdateNotificationStatus params pg with
      | (inl e, pg) =>
          match e with
          | pgx_ErrNoRows => (Some ErrNotFound, pg)
          | _ => (Some (wrapError "postgres: UpdateNotificationStatus failed" (pg_error e)), pg)
          end
      | (inr _, pg) => (None, pg)
      end
  end.

Definition postgres_Delete (id : UUID) (pg : Postgres) : option error * Postgres :=
  match db_CancelNotification id pg with
  | (inl e, pg) =>
      match e with
      | pgx_ErrNoRows => (Some ErrNotFound, pg)
      | _ => (Some (wrapError "postgres: CancelNotification failed" (pg_error e)), pg)
      end
  | (inr _, pg) => (None, pg)
  end.

#[global] Instance postgres_NotificationRepository : NotificationRepository Postgres := {
  repo_Save := postgres_Save;
  repo_GetByID := postgres_GetByID;
  repo_Update := postgres_Update;
  repo_Delete := postgres_Delete
}.

(** ** Redis (packages keybuilder and redis) *)

(** The key space and, for each command the cache issues, the failures
    still to come. *)
Record Redis : Type := {
  redis_data : gmap string json;
  redis_get_faults : list (option error);
  redis_set_faults : list (option error);
  redis_del_faults : list (option error)
}.

Inductive redisReply : Type :=
| redis_value (val : json)
| goredis_Nil
| redis_error (err : error).

Definition redis_GET (key : string) (r : Redis) : redisReply * Redis :=
  let '(fault, rest) := next_fault (redis_get_faults r) in
  let r' := {| redis_data := redis_data r; redis_get_faults := rest;
               redis_set_faults := redis_set_faults r;
               redis_del_faults := redis_del_faults r |} in
  match fault with
  | Some e => (redis_error e, r')
  | None =>
      match redis_data r !! key with
      | Some v => (redis_value v, r')
      | None => (goredis_Nil, r')
      end
  end.

Definition redis_SET (key : string) (val : json) (expiration : Duration) (r : Redis)
    : option error * Redis :=
  let '(fault, rest) := next_fault (redis_set_faults r) in
  match fault with
  | Some e =>
      (Some e, {| redis_data := redis_data r; redis_get_faults := redis_get_faults r;
                  redis_set_faults := rest; redis_del_faults := redis_del_faults r |})
  | None =>
      (None, {| redis_data := <[key := val]> (redis_data r);
                redis_get_faults := redis_get_faults r;
                redis_set_faults := rest; redis_del_faults := redis_del_faults r |})
  end.

Definition redis_DEL (key : string) (r : Redis) : option error * Redis :=
  let '(fault, rest) := next_fault (redis_del_faults r) in
  match fault with
  | Some e =>
      (Some e, {| redis_data := redis_data r; redis_get_faults := redis_get_faults r;
                  redis_set_faults := redis_set_faults r; redis_del_faults := rest |})
  | None =>
      (None, {| redis_data := delete key (redis_data r);
                redis_get_faults := redis_get_faults r;
                redis_set_faults := redis_set_faults r; redis_del_faults := rest |})
  end.

(** A key reaches the end of its time to live. *)
Definition redis_expire (key : string) (r : Redis) : Redis :=
  {| redis_data := delete key (redis_data r);
     redis_get_faults := redis_get_faults r;
     redis_set_faults := redis_set_faults r;
     redis_del_faults := redis_del_faults r |}.

Section RedisCache.
Context `{!UUIDText, !TimeJSON}.

Definition RedisNotificationKeyBuild (id : UUID) : string :=
  "redis" +:+ ":" +:+ "notification" +:+ ":" +:+ uuid_String id.

Definition NotificationCache_Get (id : UUID) (r : Redis)
    : result Notification * Redis :=
  let key := RedisNotificationKeyBuild id in
  match redis_GET key r with
  | (goredis_Nil, r) => (Err ErrNotFound, r)
  | (redis_error err, r) => (Err err, r)
  | (redis_value val, r) =>
      match json_Unmarshal val with
      | Err err => (Err (wrapError "failed to unmarshal cached data" err), r)
      | Ok notification => (Ok notification, r)
      end
  end.

Definition NotificationCache_Set (n : Notification) (expiration : Duration)
    (r : Redis) : option error * Redis :=
  let key := RedisNotificationKeyBuild (ID n) in
  match json_Marshal n with
  | Err err => (Some (wrapError "failed to marshal notification" err), r)
  | Ok nBytes => redis_SET key nBytes expiration r
  end.

Definition NotificationCache_Delete (id : UUID) (r : Redis) : option error * Redis :=
  let key := RedisNotificationKeyBuild id in
  redis_DEL key r.

#[global] Instance redis_NotificationCache : NotificationCache Redis := {
  cache_Get := NotificationCache_Get;
  cache_Set := NotificationCache_Set;
  cache_Delete := NotificationCache_Delete
}.
End RedisCache.

(** ** The cached store (the decorator of package redis) *)

Record CachedNotificationRepository (R C : Type) : Type := {
  primaryRepo : R;
  cache : C;
  ttl : Duration
}.
Arguments primaryRepo {R C} _.
Arguments cache {R C} _.
Arguments ttl {R C} _.

Definition Hour : Duration := 3600 * Second.

Definition NewCachedNotificationRepository {R C : Type} (primary : R) (c : C)
    : CachedNotificationRepository R C :=
  {| primaryRepo := primary; cache := c; ttl := Hour * 24 |}.

Section CachedRepository.
Context {R C : Type} `{!NotificationRepository R, !NotificationCache C}.

Definition with_primaryRepo (p : R) (r : CachedNotificationRepository R C) :=
  {| primaryRepo := p; cache := cache r; ttl := ttl r |}.
Definition with_cache (c : C) (r : CachedNotificationRepository R C) :=
  {| primaryRepo := primaryRepo r; cache := c; ttl := ttl r |}.

Definition Cached_Save (n : Notification) (r : CachedNotificationRepository R C)
    : result Notification * CachedNotificationRepository R C :=
  match repo_Save n (primaryRepo r) with
  | (Err err, p) => (Err err, with_primaryRepo p r)
  | (Ok created, p) =>
      let r := with_primaryRepo p r in
      let '(_, c) := cache_Set created (ttl r) (cache r) in
      (Ok created, with_cache c r)
  end.

Definition Cached_GetByID (id : UUID) (r : CachedNotificationRepository R C)
    : result Notification * CachedNotificationRepository R C :=
  match cache_Get id (cache r) with
  | (Ok cached, c) => (Ok cached, with_cache c r)
  | (Err _, c) =>
      let r := with_cache c r in
      match repo_GetByID id (primaryRepo r) with
      | (Err err, p) => (Err err, with_primaryRepo p r)
      | (Ok primary, p) =>
          let r := with_primaryRepo p r in
          let '(_, c) := cache_Set primary (ttl r) (cache r) in
          (Ok primary, with_cache c r)
      end
  end.

Definition Cached_Update (n : Notification) (r : CachedNotificationRepository R C)
    : option error * CachedNotificationRepository R C :=
  match repo_Update n (primaryRepo r) with
  | (Some err, p) => (Some err, with_primaryRepo p r)
  | (None, p) =>
      let r := with_primaryRepo p r in
      let '(_, c) := cache_Delete (ID n) (cache r) in
      (None, with_cache c r)
  end.

Definition Cached_Delete (id : UUID) (r : CachedNotificationRepository R C)
    : option error * CachedNotificationRepository R C :=
  match repo_Delete id (primaryRepo r) with
  | (Some err, p) => (Some err, with_primaryRepo p r)
  | (None, p) =>
      let r := with_primaryRepo p r in
      let '(_, c) := cache_Delete id (cache r) in
      (None, with_cache c r)
  end.

#[global] Instance Cached_NotificationRepository
    : NotificationRepository (CachedNotificationRepository R C) := {
  repo_Save := Cached_Save;
  repo_GetByID := Cached_GetByID;
  repo_Update := Cached_Update;
  repo_Delete := Cached_Delete
}.
End CachedRepository.

(** ** The delay broker (package rabbitmq) *)

Definition WaitExchange : string := "wait.exchange".
Definition RetryExchange : string := "retry.exchange".
Definition NotificationsExchange : string := "notifications.exchange".

Definition NotificationsQueue : string := "notifications.queue.process".
Definition WaitQueue : string := "wait.queue.delay".
Definition RetryQueue : string := "retry.queue.delay".

(** [amqp.Persistent]. *)
Definition Persistent : Z := 2.

Record Publishing : Type := {
  ContentType : string;
  Body : json;
  DeliveryMode : Z;
  Expiration : string
}.

(** The three durable queues that [setupTopology] declares, each bound with
    the empty routing key to the direct exchange of the same family; the
    wait and the retry queue dead-letter to [notifications.exchange]. *)
Record Broker : Type := {
  waitQueue : list Publishing;
  retryQueue : list Publishing;
  notificationsQueue : list Publishing;
  amqp_faults : list (option error)
}.

(** [ch.PublishWithContext(ctx, exchange, key, mandatory, immediate, msg)]:
    a message that no binding routes is dropped when [mandatory] is false. *)
Definition PublishWithContext (exchange key : string) (mandatory immediate : bool)
    (msg : Publishing) (b : Broker) : option error * Broker :=
  let '(fault, rest) := next_fault (amqp_faults b) in
  let b := {| waitQueue := waitQueue b; retryQueue := retryQueue b;
              notificationsQueue := notificationsQueue b; amqp_faults := rest |} in
  match fault with
  | Some e => (Some e, b)
  | None =>
      if negb (String.eqb key "") then (None, b)
      else if String.eqb exchange WaitExchange then
        (None, {| waitQueue := waitQueue b ++ [msg]; retryQueue := retryQueue b;
                  notificationsQueue := notificationsQueue b;
                  amqp_faults := amqp_faults b |})
      else if String.eqb exchange RetryExchange then
        (None, {| waitQueue := waitQueue b; retryQueue := retryQueue b ++ [msg];
                  notificationsQueue := notificationsQueue b;
                  amqp_faults := amqp_faults b |})
      else if String.eqb exchange NotificationsExchange then
        (None, {| waitQueue := waitQueue b; retryQueue := retryQueue b;
                  notificationsQueue := notificationsQueue b ++ [msg];
                  amqp_faults := amqp_faults b |})
      else (None, b)
  end.

(** The message at the head of a delay queue outlives its expiration and is
    dead-lettered, without the expiration, to the ready queue. *)
Definition dead_letter (msg : Publishing) : Publishing :=
  {| ContentType := ContentType msg; Body := Body msg;
     DeliveryMode := DeliveryMode msg; Expiration := "" |}.

Definition expire_wait (b : Broker) : Broker :=
  match waitQueue b with
  | [] => b
  | msg :: rest =>
      {| waitQueue := rest; retryQueue := retryQueue b;
         notificationsQueue := notificationsQueue b ++ [dead_letter msg];
         amqp_faults := amqp_faults b |}
  end.

Definition expire_retry (b : Broker) : Broker :=
  match retryQueue b with
  | [] => b
  | msg :: rest =>
      {| waitQueue := waitQueue b; retryQueue := rest;
         notificationsQueue := notificationsQueue b ++ [dead_letter msg];
         amqp_faults := amqp_faults b |}
  end.

(** [time.Time.Sub] saturates at the ends of [Duration]; [time.Until(t)] is
    [t.Sub(time.Now())]. *)
Definition time_Sub (t u : Time) : Duration :=
  Z.max minInt64 (Z.min maxInt64 (t - u)).

Definition time_Until (now t : Time) : Duration := time_Sub t now.

(** [Duration.Milliseconds]: integer division, rounding toward zero. *)
Definition Milliseconds (d : Duration) : Z := d ÷ Millisecond.

(** [strconv.FormatInt(i, 10)], also what the verb [%d] prints. *)
Definition FormatInt (i : Z) : string := NilZero.string_of_int (Z.to_int i).

Section RabbitMQQueue.
Context `{!UUIDText, !TimeJSON}.

Definition RabbitMQQueue_Publish (now : Time) (n : Notification) (q : Broker)
    : option error * Broker :=
  match json_Marshal n with
  | Err err => (Some (wrapError "failed to marshal notification" err), q)
  | Ok body =>
      let delay := time_Until now (ScheduledAt n) in
      let delay := if delay <? 0 then 0 else delay in
      let msg := {|
        ContentType := "application/json";
        Body := body;
        DeliveryMode := Persistent;
        Expiration := FormatInt (Milliseconds delay) |} in
      PublishWithContext WaitExchange "" false false msg q
  end.

Definition RabbitMQQueue_PublishRetry (n : Notification) (retryDelay : Duration)
    (q : Broker) : option error * Broker :=
  match json_Marshal n with
  | Err err => (Some (wrapError "failed to marshal notification for retry" err), q)
  | Ok body =>
      let msg := {|
        ContentType := "application/json";
        Body := body;
        DeliveryMode := Persistent;
        Expiration := FormatInt (Milliseconds retryDelay) |} in
      PublishWithContext RetryExchange "" false false msg q
  end.

#[global] Instance RabbitMQQueue_NotificationQueue : NotificationQueue Broker := {
  queue_Publish := RabbitMQQueue_Publish;
  queue_PublishRetry := RabbitMQQueue_PublishRetry
}.
End RabbitMQQueue.

(** ** The notification service (package service) *)

(** [strconv.ParseInt(s, 10, 64)]: an optional sign, then decimal digits. *)
Definition strconv_ParseInt (s : string) : result Z :=
  let '(neg, digits) :=
    match s with
    | String "+" rest => (false, rest)
    | String "-" rest => (true, rest)
    | _ => (false, s)
    end in
  match NilZero.uint_of_string digits with
  | None => Err (errorString "strconv.ParseInt: invalid syntax")
  | Some u =>
      let z := if neg then - Z.of_uint u else Z.of_uint u in
      if in_int64 z then Ok z
      else Err (errorString "strconv.ParseInt: value out of range")
  end.

Record NotificationService (R Q : Type) : Type := {
  repo : R;
  queue : Q
}.
Arguments repo {R Q} _.
Arguments queue {R Q} _.

Section Service.
Context {R Q : Type} `{!NotificationRepository R, !NotificationQueue Q}.
(** [mail.ParseAddress], of which only the error matters. *)
Variable mail_ParseAddress : string → option error.

Definition with_repo (r : R) (s : NotificationService R Q) :=
  {| repo := r; queue := queue s |}.
Definition with_queue (q : Q) (s : NotificationService R Q) :=
  {| repo := repo s; queue := q |}.

(** [id] is what [uuid.New()] returns and [now] the reading of the clock. *)
Definition CreateNotification (id : UUID) (now : Time)
    (recipient channel subject message : string) (scheduledAt : Time)
    (authorID : option string) (s : NotificationService R Q)
    : result Notification * NotificationService R Q :=
  let validated : result Notification :=
    if String.eqb channel ChannelEmail then
      match mail_ParseAddress recipient with
      | Some err => Err (wrapError "invalid email format" err)
      | None =>
          Ok (NewEmailNotification id now recipient subject message scheduledAt authorID)
      end
    else if String.eqb channel ChannelTelegram then
      match strconv_ParseInt recipient with
      | Err err => Err (wrapError "invalid telegram chat id" err)
      | Ok chatID =>
          Ok (NewTelegramNotification id now chatID subject message scheduledAt authorID)
      end
    else Err (errorString ("unknown channel: " +:+ channel)) in
  match validated with
  | Err err => (Err err, s)
  | Ok notification =>
      match repo_Save notification (repo s) with
      | (Err err, r) => (Err err, with_repo r s)
      | (Ok createdNotification, r) =>
          let s := with_repo r s in
          match queue_Publish now createdNotification (queue s) with
          | (Some err, q) =>
              (Err (wrapError "failed to schedule notification" err), with_queue q s)
          | (None, q) => (Ok createdNotification, with_queue q s)
          end
      end
  end.

Definition GetNotificationByID (id : UUID) (s : NotificationService R Q)
    : result Notification * NotificationService R Q :=
  match repo_GetByID id (repo s) with
  | (Err err, r) => (Err err, with_repo r s)
  | (Ok n, r) => (Ok n, with_repo r s)
  end.

Definition UpdateNotification (n : Notification) (s : NotificationService R Q)
    : option error * NotificationService R Q :=
  match repo_Update n (repo s) with
  | (Some err, r) => (Some err, with_repo r s)
  | (None, r) => (None, with_repo r s)
  end.

Definition CancelNotification (id : UUID) (s : NotificationService R Q)
    : option error * NotificationService R Q :=
  match repo_GetByID id (repo s) with
  | (Err err, r) => (Some err, with_repo r s)
  | (Ok notification, r) =>
      let s := with_repo r s in
      if negb (String.eqb (Status notification) StatusScheduled) then
        (Some (errorString ("cannot cancel notification with status: "
                            +:+ Status notification)), s)
      else
        let '(err, r) := repo_Delete id (repo s) in
        (err, with_repo r s)
  end.
End Service.

(** ** Transports (package notifiers) *)

Record EmailConfig : Type := {
  Host : string;
  Port : Z;
  Username : string;
  Password : string;
  From : string
}.

Record TelegramConfig : Type := { BotToken : string }.

Record NotifiersConfig : Type := {
  Mode : string;
  cfg_Email : EmailConfig;
  cfg_Telegram : TelegramConfig
}.

(** The part of [config.Config] that the worker reads. *)
Record Config : Type := { Notifiers : NotifiersConfig }.

Record EmailNotifier : Type := {
  dialer : EmailConfig;
  from : string
}.

(** [tgbotapi.BotAPI], identified by its token. *)
Record BotAPI : Type := { Token : string }.

Record TelegramNotifier : Type := { bot : BotAPI }.

(** The outside world of the transports: what the SMTP server and the
    Telegram API accepted, and the failures still to come. *)
Record Transports : Type := {
  smtp_delivered : list (string * string * string * string);
  telegram_delivered : list (Z * string);
  smtp_faults : list (option error);
  telegram_faults : list (option error)
}.

Definition LogNotifier_Send (notification : Notification) (w : Transports)
    : option error * Transports :=
  (None, w).

Definition NewEmailNotifier (cfg : EmailConfig) : EmailNotifier :=
  {| dialer := cfg; from := From cfg |}.

Definition EmailNotifier_Send (n : EmailNotifier) (notification : Notification)
    (w : Transports) : option error * Transports :=
  match Email notification with
  | Some email =>
      if negb (String.eqb (Channel notification) ChannelEmail)
      then (Some (errorString "invalid notification for email channel"), w)
      else
        let m := (from n, To email, Subject notification, Message notification) in
        let '(fault, rest) := next_fault (smtp_faults w) in
        match fault with
        | Some err =>
            (Some err, {| smtp_delivered := smtp_delivered w;
                          telegram_delivered := telegram_delivered w;
                          smtp_faults := rest;
                          telegram_faults := telegram_faults w |})
        | None =>
            (None, {| smtp_delivered := smtp_delivered w ++ [m];
                      telegram_delivered := telegram_delivered w;
                      smtp_faults := rest;
                      telegram_faults := telegram_faults w |})
        end
  | None => (Some (errorString "invalid notification for email channel"), w)
  end.

(** [newBotAPI] is [tgbotapi.NewBotAPI], which contacts the Telegram API. *)
Definition NewTelegramNotifier (newBotAPI : string → result BotAPI)
    (cfg : TelegramConfig) : result TelegramNotifier :=
  match newBotAPI (BotToken cfg) with
  | Err err => Err (wrapError "failed to create telegram bot api" err)
  | Ok b => Ok {| bot := b |}
  end.

Definition TelegramNotifier_Send (n : TelegramNotifier) (notification : Notification)
    (w : Transports) : option error * Transports :=
  match Telegram notification with
  | Some telegram =>
      if negb (String.eqb (Channel notification) ChannelTelegram)
      then (Some (errorString "invalid notification for telegram channel"), w)
      else
        let fullMessage :=
          "*" +:+ Subject notification +:+ "*" +:+ String "010" (String "010" "")
              +:+ Message notification in
        let '(fault, rest) := next_fault (telegram_faults w) in
        match fault with
        | Some err =>
            (Some err, {| smtp_delivered := smtp_delivered w;
                          telegram_delivered := telegram_delivered w;
                          smtp_faults := smtp_faults w;
                          telegram_faults := rest |})
        | None =>
            (None, {| smtp_delivered := smtp_delivered w;
                      telegram_delivered :=
                        telegram_delivered w ++ [(ChatID telegram, fullMessage)];
                      smtp_faults := smtp_faults w;
                      telegram_faults := rest |})
        end
  | None => (Some (errorString "invalid notification for telegram channel"), w)
  end.

(** The values of interface type [Notifier] that the dispatcher holds. *)
Inductive ChannelNotifier : Type :=
| logNotifier
| emailNotifier (n : EmailNotifier)
| telegramNotifier (n : TelegramNotifier).

Definition ChannelNotifier_Send (nt : ChannelNotifier) (notification : Notification)
    (w : Transports) : option error * Transports :=
  match nt with
  | logNotifier => LogNotifier_Send notification w
  | emailNotifier n => EmailNotifier_Send n notification w
  | telegramNotifier n => TelegramNotifier_Send n notification w
  end.

Record Dispatcher : Type := { notifiers : gmap string ChannelNotifier }.

Definition NewDispatcher (newBotAPI : string → result BotAPI) (cfg : Config)
    : result Dispatcher :=
  let notifiersMap : gmap string ChannelNotifier := ∅ in
  let notifiersMap := <[ChannelEmail := logNotifier]> notifiersMap in
  let notifiersMap := <[ChannelTelegram := logNotifier]> notifiersMap in
  if String.eqb (Mode (Notifiers cfg)) "production" then
    let notifiersMap :=
      if negb (String.eqb (Host (cfg_Email (Notifiers cfg))) "")
      then <[ChannelEmail := emailNotifier (NewEmailNotifier (cfg_Email (Notifiers cfg)))]>
             notifiersMap
      else notifiersMap in
    if negb (String.eqb (BotToken (cfg_Telegram (Notifiers cfg))) "") then
      match NewTelegramNotifier newBotAPI (cfg_Telegram (Notifiers cfg)) with
      | Err err => Err (wrapError "failed to initialize telegram notifier" err)
      | Ok tgNotifier =>
          Ok {| notifiers := <[ChannelTelegram := telegramNotifier tgNotifier]> notifiersMap |}
      end
    else Ok {| notifiers := notifiersMap |}
  else Ok {| notifiers := notifiersMap |}.

Definition notifier_not_found (channel : string) : error :=
  errorString ("notifier for channel " +:+ channel +:+ " not found").

Definition Dispatcher_Send (d : Dispatcher) (n : Notification) (w : Transports)
    : option error * Transports :=
  match notifiers d !! Channel n with
  | None => (Some (notifier_not_found (Channel n)), w)
  | Some notifier => ChannelNotifier_Send notifier n w
  end.

(** The dispatcher together with the world it sends into. *)
#[global] Instance Dispatcher_Notifier : Notifier (Dispatcher * Transports) := {
  notifier_Send n dw :=
    let '(err, w) := Dispatcher_Send dw.1 n dw.2 in (err, (dw.1, w))
}.

(** ** The worker (package consumer) *)

Definition maxRetries : Z := 5.
Definition defaultWorkerCount : Z := 5.

(** [5.0 * math.Pow(2, float64(attempt))] is a power of two times five, which
    a float64 holds exactly, and the conversion to [Duration] drops the
    fraction that a negative exponent leaves: the integer is [5] shifted by
    [attempt] bits (for [attempt] up to 60, beyond which the conversion is
    out of range).  The product with [time.Second] is a 64-bit one. *)
Definition calculateExponentialBackoff (attempt : Z) : Duration :=
  let delay := Z.shiftl 5 attempt in
  int64 (delay * Second).

Record Delivery : Type := { delivery_Body : json }.

(** What the broker is told about a delivery: [msg.Ack(false)] or
    [msg.Nack(false, requeue)]. *)
Inductive Acknowledgement : Type :=
| Ack
| Nack (requeue : bool).

(** The calls a worker makes on its collaborators, in order. *)
Inductive Call : Type :=
| CallGetNotificationByID (id : UUID)
| CallSend (n : Notification)
| CallUpdateNotification (n : Notification)
| CallPublishRetry (n : Notification) (retryDelay : Duration)
| CallAck
| CallNack (requeue : bool).

(** The consumer's [queue] is the publisher that its [service] holds: the
    application wires one [RabbitMQQueue] into both. *)
Record Consumer (R Q D : Type) : Type := {
  service : NotificationService R Q;
  notifier : D;
  calls : list Call
}.
Arguments service {R Q D} _.
Arguments notifier {R Q D} _.
Arguments calls {R Q D} _.

Section Consumer.
Context {R Q D : Type}.
Context `{!NotificationRepository R, !NotificationQueue Q, !Notifier D}.
Context `{!UUIDText, !TimeJSON}.

Definition with_service (s : NotificationService R Q) (c : Consumer R Q D) :=
  {| service := s; notifier := notifier c; calls := calls c |}.
Definition with_notifier (d : D) (c : Consumer R Q D) :=
  {| service := service c; notifier := d; calls := calls c |}.
Definition record_call (call : Call) (c : Consumer R Q D) :=
  {| service := service c; notifier := notifier c; calls := calls c ++ [call] |}.

Definition acknowledge (a : Acknowledgement) (c : Consumer R Q D)
    : Acknowledgement * Consumer R Q D :=
  match a with
  | Ack => (a, record_call CallAck c)
  | Nack requeue => (a, record_call (CallNack requeue) c)
  end.

Definition consumer_UpdateNotification (n : Notification) (c : Consumer R Q D)
    : option error * Consumer R Q D :=
  let c := record_call (CallUpdateNotification n) c in
  let '(err, s) := UpdateNotification n (service c) in
  (err, with_service s c).

Definition handleSendError (n : Notification) (sendErr : error)
    (c : Consumer R Q D) : Acknowledgement * Consumer R Q D :=
  let n := set_Attempts (int64 (Attempts n + 1)) n in
  if maxRetries <=? Attempts n then
    let n := set_Status StatusFailed n in
    match consumer_UpdateNotification n c with
    | (Some err, c) => acknowledge (Nack true) c
    | (None, c) => acknowledge Ack c
    end
  else
    let backoffDuration := calculateExponentialBackoff (Attempts n) in
    let c := record_call (CallPublishRetry n backoffDuration) c in
    let '(err, q) := queue_PublishRetry n backoffDuration (queue (service c)) in
    let c := with_service (with_queue q (service c)) c in
    match err with
    | Some err => acknowledge (Nack true) c
    | None => acknowledge Ack c
    end.

(** [now] is the reading of [time.Now().UTC()] after a successful send. *)
Definition handleMessage (now : Time) (msg : Delivery) (c : Consumer R Q D)
    : Acknowledgement * Consumer R Q D :=
  match json_Unmarshal (delivery_Body msg) with
  | Err err => acknowledge (Nack false) c
  | Ok notification =>
      let c := record_call (CallGetNotificationByID (ID notification)) c in
      let '(latest, s) := GetNotificationByID (ID notification) (service c) in
      let c := with_service s c in
      let scheduled :=
        match latest with
        | Err err => false
        | Ok latest => String.eqb (Status latest) StatusScheduled
        end in
      if negb scheduled then acknowledge Ack c
      else
        let c := record_call (CallSend notification) c in
        let '(err, d) := notifier_Send notification (notifier c) in
        let c := with_notifier d c in
        match err with
        | Some err => handleSendError notification err c
        | None =>
            let notification := set_Status StatusSent notification in
            let notification := set_SentAt (Some now) notification in
            match consumer_UpdateNotification notification c with
            | (Some err, c) => acknowledge (Nack true) c
            | (None, c) => acknowledge Ack c
            end
        end
  end.
End Consumer.

(** ** The HTTP ingress (package http) *)

Definition StatusNoContent : Z := 204.
Definition StatusBadRequest : Z := 400.
Definition StatusNotFound : Z := 404.
Definition StatusConflict : Z := 409.
Definition StatusInternalServerError : Z := 500.

Section Handlers.
Context {R Q : Type} `{!NotificationRepository R, !NotificationQueue Q}.
Context `{!UUIDText}.

(** The handler of [DELETE /api/v1/notifications/:id]; the result is the
    status code of the response. *)
Definition Handlers_CancelNotification (idStr : string)
    (s : NotificationService R Q) : Z * NotificationService R Q :=
  match uuid_Parse idStr with
  | Err err => (StatusBadRequest, s)
  | Ok id =>
      match CancelNotification id s with
      | (Some err, s) =>
          if errors_Is err ErrNotFound then (StatusNotFound, s)
          else (StatusInternalServerError, s)
      | (None, s) => (StatusNoContent, s)
      end
  end.
End Handlers.

(** ** The delivery pipeline *)

Fixpoint count (p : Call → bool) (l : list Call) : nat :=
  match l with
  | [] => 0%nat
  | call :: rest => ((if p call then 1 else 0) + count p rest)%nat
  end.

Definition is_Send (call : Call) : bool :=
  match call with CallSend _ => true | _ => false end.

Definition is_requeue (call : Call) : bool :=
  match call with CallNack true => true | _ => false end.

(** What happens to the messages of the broker: the head of a delay queue
    is dead-lettered, or a worker handles the head of the ready queue. *)
Inductive Event : Type :=
| ExpireWait
| ExpireRetry
| Work (now : Time).

Section Pipeline.
Context {R D : Type} `{!NotificationRepository R, !Notifier D}.
Context `{!UUIDText, !TimeJSON}.

Definition broker (c : Consumer R Broker D) : Broker := queue (service c).

Definition with_broker (b : Broker) (c : Consumer R Broker D) : Consumer R Broker D :=
  with_service (with_queue b (service c)) c.

Definition with_notificationsQueue (l : list Publishing) (b : Broker) : Broker :=
  {| waitQueue := waitQueue b; retryQueue := retryQueue b;
     notificationsQueue := l; amqp_faults := amqp_faults b |}.

(** With a prefetch of one, a worker holds the head of the ready queue until
    it answers; a message refused with requeue returns to the head. *)
Definition worker_step (now : Time) (c : Consumer R Broker D) : Consumer R Broker D :=
  match notificationsQueue (broker c) with
  | [] => c
  | msg :: rest =>
      let c := with_broker (with_notificationsQueue rest (broker c)) c in
      match handleMessage now {| delivery_Body := Body msg |} c with
      | (Nack true, c) =>
          with_broker
            (with_notificationsQueue (msg :: notificationsQueue (broker c)) (broker c)) c
      | (_, c) => c
      end
  end.

Definition pipeline_step (c : Consumer R Broker D) (e : Event) : Consumer R Broker D :=
  match e with
  | ExpireWait => with_broker (expire_wait (broker c)) c
  | ExpireRetry => with_broker (expire_retry (broker c)) c
  | Work now => worker_step now c
  end.

Definition pipeline_run (es : list Event) (c : Consumer R Broker D)
    : Consumer R Broker D :=
  fold_left pipeline_step es c.
End Pipeline.

(** ** The whole system: API, store, cache, broker and worker *)

Inductive Action : Type :=
| Create (id : UUID) (now : Time) (recipient channel subject message : string)
    (scheduledAt : Time) (authorID : option string)
| Get (id : UUID)
| Cancel (idStr : string)
| Pipeline (e : Event)
| CacheExpire (key : string).

Section System.
Context {D : Type} `{!Notifier D}.
Context `{!UUIDText, !TimeJSON}.
Variable mail_ParseAddress : string → option error.

(** The API and the worker share the store, the cache and the broker. *)
Definition System : Type :=
  Consumer (CachedNotificationRepository Postgres Redis) Broker D.

Definition system_step (s : System) (a : Action) : System :=
  match a with
  | Create id now recipient channel subject message scheduledAt authorID =>
      with_service
        (CreateNotification mail_ParseAddress id now recipient channel subject
           message scheduledAt authorID (service s)).2 s
  | Get id => with_service (GetNotificationByID id (service s)).2 s
  | Cancel idStr => with_service (Handlers_CancelNotification idStr (service s)).2 s
  | Pipeline e => pipeline_step s e
  | CacheExpire key =>
      let r := repo (service s) in
      with_service (with_repo (with_cache (redis_expire key (cache r)) r) (service s)) s
  end.

Definition system_run (actions : list Action) (s : System) : System :=
  fold_left system_step actions s.

Definition stored (s : System) : gmap UUID db_Notification :=
  rows (primaryRepo (repo (service s))).

Definition cached (s : System) : gmap string json :=
  redis_data (cache (repo (service s))).
End System.

(** ** A decimal rendering of identifiers and instants

    Any rendering that can be read back fits the codec classes; this one
    lets the model be evaluated on closed inputs. *)

Definition decimal_parse (s : string) : option Z :=
  Z.of_int <$> NilZero.int_of_string s.

Lemma decimal_parse_FormatInt (z : Z) : decimal_parse (FormatInt z) = Some z.
Proof.
  unfold decimal_parse, FormatInt.
  rewrite NilZero.isi.
  - cbn. by rewrite DecimalZ.of_to.
  - destruct z; cbn; try discriminate.
    intros [= H]. by apply DecimalPos.Unsigned.to_uint_nonnil in H.
  - destruct z; cbn; try discriminate.
    intros [= H]. by apply DecimalPos.Unsigned.to_uint_nonnil in H.
Qed.

Definition decimal_uuid_Parse (s : string) : result UUID :=
  match decimal_parse s with
  | Some z => if 0 <=? z then Ok (Z.to_N z) else Err (errorString "invalid UUID")
  | None => Err (errorString "invalid UUID")
  end.

Lemma decimal_uuid_Parse_String (u : UUID) :
  decimal_uuid_Parse (FormatInt (Z.of_N u)) = Ok u.
Proof.
  unfold decimal_uuid_Parse. rewrite decimal_parse_FormatInt.
  destruct (Z.leb_spec 0 (Z.of_N u)); [|lia]. by rewrite N2Z.id.
Qed.

Definition decimal_UUIDText : UUIDText := {|
  uuid_String u := FormatInt (Z.of_N u);
  uuid_Parse := decimal_uuid_Parse;
  uuid_Parse_String := decimal_uuid_Parse_String |}.

Definition decimal_time_UnmarshalJSON (s : string) : result Time :=
  match decimal_parse s with
  | Some z => Ok z
  | None => Err (errorString "parsing time: cannot parse")
  end.

Lemma decimal_time_Unmarshal_Marshal (t : Time) (s : string) :
  Ok (FormatInt t) = Ok s → decimal_time_UnmarshalJSON s = Ok t.
Proof.
  intros [= <-]. unfold decimal_time_UnmarshalJSON.
  by rewrite decimal_parse_FormatInt.
Qed.

Definition decimal_TimeJSON : TimeJSON := {|
  time_MarshalJSON t := Ok (FormatInt t);
  time_UnmarshalJSON := decimal_time_UnmarshalJSON;
  time_Unmarshal_Marshal := decimal_time_Unmarshal_Marshal |}.

(** * Properties *)

(** ** JSON round trip *)

Section JsonFacts.
Context `{!UUIDText, !TimeJSON}.

Lemma bind_Ok_inv {A B : Type} (r : result A) (f : A → result B) (b : B) :
r ≫= f = Ok b → ∃ a, r = Ok a ∧ f a = Ok b.
Proof. destruct r as [a|e]; [by exists a | discriminate]. Qed.

(** A pointer field comes back as it was written, whatever the destination
  held before. *)
Lemma decode_marshal_ptr {A : Type} (enc : A → result json)
  (dec : A → json → result A) (zero : A) (p cur : option A) (j : json) :
(∀ a ja, p = Some a → enc a = Ok ja → ja ≠ JNull ∧ ∀ c, dec c ja = Ok a) →
marshal_ptr enc p = Ok j →
decode_ptr zero dec cur j = Ok p.
Proof.
intros Henc. destruct p as [a|]; cbn.
- intros Hj. destruct (Henc a j eq_refl Hj) as [Hnn Hdec].
  unfold decode_ptr. rewrite Hdec. by destruct j.
- by intros [= <-].
Qed.

Lemma decode_marshal_Time (t c : Time) (j : json) :
marshal_Time t = Ok j → j ≠ JNull ∧ decode_Time c j = Ok t.
Proof.
unfold marshal_Time. intros (s & Hs & [= <-])%bind_Ok_inv.
split; [done|]. by apply time_Unmarshal_Marshal.
Qed.

Lemma json_Unmarshal_Marshal (n : Notification) (body : json) :
wf_Notification n →
json_Marshal n = Ok body →
json_Unmarshal body = Ok n.
Proof.
destruct n as [id subj msg ch st att auth em tg sched sent created updated].
intros [Hatt Htg]; cbn in Hatt, Htg.
unfold json_Marshal; cbn.
intros (ja & Ha & H1)%bind_Ok_inv.
apply bind_Ok_inv in H1 as (je & He & H1).
apply bind_Ok_inv in H1 as (jt & Ht & H1).
apply bind_Ok_inv in H1 as (js & Hs & H1).
apply bind_Ok_inv in H1 as (jn & Hn & H1).
apply bind_Ok_inv in H1 as (jc & Hc & H1).
apply bind_Ok_inv in H1 as (ju & Hu & [= <-]).
apply (decode_marshal_ptr _ decode_string "" _ None) in Ha.
2:{ by intros a j _ [= <-]. }
apply (decode_marshal_ptr _ decode_EmailDetails {| To := "" |} _ None) in He.
2:{ intros [to] j _ [= <-]. split; [done|]. by intros [c]. }
apply (decode_marshal_ptr _ decode_TelegramDetails {| ChatID := 0 |} _ None) in Ht.
2:{ intros [chat] j -> [= <-]. split; [done|]. intros [c]. cbn in *.
    by rewrite Htg. }
apply (decode_marshal_ptr (A:=Time) _ decode_Time 0 _ None) in Hn.
2:{ intros t j _ Hj. split.
    - by destruct (decode_marshal_Time t 0 j Hj).
    - intros c. by destruct (decode_marshal_Time t c j Hj). }
apply (decode_marshal_Time _ 0) in Hs as [_ Hs].
apply (decode_marshal_Time _ 0) in Hc as [_ Hc].
apply (decode_marshal_Time _ 0) in Hu as [_ Hu].
cbn. rewrite uuid_Parse_String. cbn. rewrite Hatt. cbn.
rewrite Ha. cbn. rewrite He. cbn. rewrite Ht. cbn. rewrite Hs. cbn.
rewrite Hn. cbn. rewrite Hc. cbn. by rewrite Hu.
Qed.

Lemma json_Marshal_total (n : Notification) :
  times_marshalable n → ∃ body, json_Marshal n = Ok body.
Proof.
  destruct n as [id subj msg ch st att auth em tg sched sent created updated].
  intros (Hs & Hc & Hu & Hn); cbn in *.
  unfold json_Marshal, marshal_Time; cbn.
  destruct (time_MarshalJSON sched); [|done].
  destruct (time_MarshalJSON created); [|done].
  destruct (time_MarshalJSON updated); [|done].
  destruct sent as [ts|]; [destruct (time_MarshalJSON ts) eqn:E; [|done]|];
    destruct auth, em, tg; cbn; rewrite ?E; cbn; eauto.
Qed.

(** C9. Encoding a notification with [json.Marshal] and decoding the result
    with [json.Unmarshal] gives the notification back, every attribute
    included: nil [AuthorID], [SentAt], [Email] and [Telegram] stay nil, and
    both recipient variants are restored.  A document is produced whenever
    the timestamps have a JSON form. *)
Theorem json_round_trip (n : Notification) :
  wf_Notification n →
  (∀ body, json_Marshal n = Ok body → json_Unmarshal body = Ok n) ∧
  (times_marshalable n → ∃ body, json_Marshal n = Ok body).
Proof.
  intros Hwf. split.
  - intros body. by apply json_Unmarshal_Marshal.
  - apply json_Marshal_total.
Qed.
End JsonFacts.

(** ** The cached store *)

Section CachedRepositoryFacts.
Context {R C : Type} `{!NotificationRepository R, !NotificationCache C}.

Lemma Cached_Save_result (n : Notification) (r : CachedNotificationRepository R C) :
  (Cached_Save n r).1 = (repo_Save n (primaryRepo r)).1.
Proof.
  unfold Cached_Save. destruct (repo_Save n (primaryRepo r)) as [[created|err] p]; [|done].
  cbn. by destruct (cache_Set created (ttl r) (cache r)).
Qed.

Lemma Cached_Update_result (n : Notification) (r : CachedNotificationRepository R C) :
  (Cached_Update n r).1 = (repo_Update n (primaryRepo r)).1.
Proof.
  unfold Cached_Update. destruct (repo_Update n (primaryRepo r)) as [[err|] p]; [done|].
  cbn. by destruct (cache_Delete (ID n) (cache r)).
Qed.

Lemma Cached_Delete_result (id : UUID) (r : CachedNotificationRepository R C) :
  (Cached_Delete id r).1 = (repo_Delete id (primaryRepo r)).1.
Proof.
  unfold Cached_Delete. destruct (repo_Delete id (primaryRepo r)) as [[err|] p]; [done|].
  cbn. by destruct (cache_Delete id (cache r)).
Qed.

Lemma Cached_GetByID_miss (id : UUID) (r : CachedNotificationRepository R C)
    (e : error) (c : C) :
  cache_Get id (cache r) = (Err e, c) →
  (Cached_GetByID id r).1 = (repo_GetByID id (primaryRepo r)).1.
Proof.
  unfold Cached_GetByID. intros ->. cbn.
  destruct (repo_GetByID id (primaryRepo r)) as [[primary|err] p]; [|done].
  cbn. by destruct (cache_Set primary (ttl r) c).
Qed.

(** C6. The cached store never surfaces a cache failure: for every primary
    store and every cache, whatever the cache answers, [Save], [Update] and
    [Delete] (cancel) return exactly what the primary store returned, so they
    succeed whenever it does; and when the cache [Get] returns any error, a
    miss included, [GetByID] returns the result of the primary store. *)
Theorem cache_failures_never_surfaced (r : CachedNotificationRepository R C) :
  (∀ n created p,
     repo_Save n (primaryRepo r) = (Ok created, p) →
     (Cached_Save n r).1 = Ok created) ∧
  (∀ n p,
     repo_Update n (primaryRepo r) = (None, p) → (Cached_Update n r).1 = None) ∧
  (∀ id p,
     repo_Delete id (primaryRepo r) = (None, p) → (Cached_Delete id r).1 = None) ∧
  (∀ id e c,
     cache_Get id (cache r) = (Err e, c) →
     (Cached_GetByID id r).1 = (repo_GetByID id (primaryRepo r)).1).
Proof.
  repeat split.
  - intros n created p Hp. by rewrite Cached_Save_result, Hp.
  - intros n p Hp. by rewrite Cached_Update_result, Hp.
  - intros id p Hp. by rewrite Cached_Delete_result, Hp.
  - intros id e c. apply Cached_GetByID_miss.
Qed.
End CachedRepositoryFacts.

(** ** The dispatcher *)

Lemma NewDispatcher_channels (newBotAPI : string → result BotAPI) (cfg : Config)
    (d : Dispatcher) :
  NewDispatcher newBotAPI cfg = Ok d →
  is_Some (notifiers d !! ChannelEmail) ∧ is_Some (notifiers d !! ChannelTelegram).
Proof.
  unfold NewDispatcher.
  destruct (String.eqb (Mode (Notifiers cfg)) "production").
  - destruct (String.eqb (Host (cfg_Email (Notifiers cfg))) "");
      destruct (String.eqb (BotToken (cfg_Telegram (Notifiers cfg))) ""); cbn;
      try destruct (NewTelegramNotifier _ _); intros [= <-]; cbn;
      split; by simplify_map_eq.
  - intros [= <-]; cbn. split; by simplify_map_eq.
Qed.

Lemma NewDispatcher_fallback (newBotAPI : string → result BotAPI) (cfg : Config)
    (d : Dispatcher) :
  NewDispatcher newBotAPI cfg = Ok d →
  (Mode (Notifiers cfg) ≠ "production" ∨ Host (cfg_Email (Notifiers cfg)) = "" →
   notifiers d !! ChannelEmail = Some logNotifier) ∧
  (Mode (Notifiers cfg) ≠ "production" ∨ BotToken (cfg_Telegram (Notifiers cfg)) = "" →
   notifiers d !! ChannelTelegram = Some logNotifier).
Proof.
  unfold NewDispatcher.
  destruct (String.eqb_spec (Mode (Notifiers cfg)) "production") as [Hm|Hm].
  - destruct (String.eqb_spec (Host (cfg_Email (Notifiers cfg))) "") as [Hh|Hh];
      destruct (String.eqb_spec (BotToken (cfg_Telegram (Notifiers cfg))) "") as [Ht|Ht];
      cbn; try destruct (NewTelegramNotifier _ _); intros [= <-]; cbn;
      split; intros [?|?]; try done; by simplify_map_eq.
  - intros [= <-]; cbn. split; intros _; by simplify_map_eq.
Qed.

(** C10. For a dispatcher that [NewDispatcher] returned, in any
    configuration, a notification whose channel is email or telegram finds
    its notifier: [Send] delegates to it and does not answer "notifier for
    channel not found".  Outside production mode, or in production mode
    without the credentials of a channel, that notifier is the log
    notifier. *)
Theorem dispatcher_total (newBotAPI : string → result BotAPI) (cfg : Config)
    (d : Dispatcher) (n : Notification) (w : Transports) :
  NewDispatcher newBotAPI cfg = Ok d →
  Channel n = ChannelEmail ∨ Channel n = ChannelTelegram →
  (∃ notifier,
     notifiers d !! Channel n = Some notifier ∧
     Dispatcher_Send d n w = ChannelNotifier_Send notifier n w) ∧
  (Mode (Notifiers cfg) ≠ "production" ∨ Host (cfg_Email (Notifiers cfg)) = "" →
   notifiers d !! ChannelEmail = Some logNotifier) ∧
  (Mode (Notifiers cfg) ≠ "production" ∨ BotToken (cfg_Telegram (Notifiers cfg)) = "" →
   notifiers d !! ChannelTelegram = Some logNotifier).
Proof.
  intros Hd Hch. split; [|by apply (NewDispatcher_fallback newBotAPI)].
  destruct (NewDispatcher_channels _ _ _ Hd) as [[ne Hne] [nt Hnt]].
  unfold Dispatcher_Send.
  destruct Hch as [-> | ->]; [exists ne | exists nt]; split; try done.
  - by rewrite Hne.
  - by rewrite Hnt.
Qed.

(** ** The publisher *)

Lemma Milliseconds_nonneg (d : Duration) : 0 ≤ d → 0 ≤ Milliseconds d.
Proof. intros Hd. unfold Milliseconds, Millisecond. apply Z.quot_pos; lia. Qed.

Lemma time_Until_exact (now t : Time) :
  minInt64 ≤ t - now ≤ maxInt64 → time_Until now t = t - now.
Proof. unfold time_Until, time_Sub. lia. Qed.

Section PublisherFacts.
Context `{!UUIDText, !TimeJSON}.

(** C5. [Publish] clamps the time left until [ScheduledAt] at zero, so a
    schedule in the past gives the delay 0 and the expiration is never
    negative; it hands to the channel, for [wait.exchange] and the empty
    routing key, a persistent [application/json] message whose body is the
    JSON encoding of the notification and whose expiration is the delay in
    whole milliseconds written in decimal.  The time left is the difference
    of the two instants whenever that fits a [Duration]; a broker that
    accepts the message appends it to the wait queue. *)
Theorem publish_delay (now : Time) (n : Notification) (q : Broker) (body : json) :
  json_Marshal n = Ok body →
  let delay := Z.max 0 (time_Until now (ScheduledAt n)) in
  let msg := {|
    ContentType := "application/json";
    Body := body;
    DeliveryMode := Persistent;
    Expiration := FormatInt (Milliseconds delay) |} in
  RabbitMQQueue_Publish now n q = PublishWithContext WaitExchange "" false false msg q ∧
  0 ≤ Milliseconds delay ∧
  decimal_parse (Expiration msg) = Some (Milliseconds delay) ∧
  (ScheduledAt n ≤ now → Milliseconds delay = 0) ∧
  (minInt64 ≤ ScheduledAt n - now ≤ maxInt64 →
   Milliseconds delay = Z.max 0 (ScheduledAt n - now) ÷ 1000000) ∧
  ((next_fault (amqp_faults q)).1 = None →
   (RabbitMQQueue_Publish now n q).1 = None ∧
   waitQueue (RabbitMQQueue_Publish now n q).2 = waitQueue q ++ [msg]).
Proof.
  intros Hbody delay msg.
  assert (Hpub : RabbitMQQueue_Publish now n q
                 = PublishWithContext WaitExchange "" false false msg q).
  { unfold RabbitMQQueue_Publish. rewrite Hbody. subst msg delay.
    destruct (Z.ltb_spec (time_Until now (ScheduledAt n)) 0).
    - by rewrite Z.max_l by lia.
    - by rewrite Z.max_r by lia. }
  split; [done|]. split; [apply Milliseconds_nonneg; lia|].
  split; [apply decimal_parse_FormatInt|].
  split; [|split].
  - intros Hpast. subst delay. unfold time_Until, time_Sub, minInt64, maxInt64.
    rewrite Z.max_l; [done|]. lia.
  - intros Hfit. subst delay. by rewrite time_Until_exact.
  - intros Hok. rewrite Hpub. unfold PublishWithContext.
    destruct (next_fault (amqp_faults q)) as [fault rest]. cbn in Hok. by subst fault.
Qed.
End PublisherFacts.

(** ** The worker *)

Lemma int64_id (z : Z) : in_int64 z = true → int64 z = z.
Proof.
  unfold in_int64, minInt64, maxInt64, int64, wrap.
  intros [H1 H2]%andb_prop. apply Z.leb_le in H1, H2.
  rewrite Z.mod_small; lia.
Qed.

Lemma count_app (p : Call → bool) (l1 l2 : list Call) :
  count p (l1 ++ l2) = (count p l1 + count p l2)%nat.
Proof. induction l1 as [|call l1 IH]; cbn; [done|]. rewrite IH. lia. Qed.

Lemma backoff_values (k : Z) :
  1 ≤ k ≤ 4 →
  calculateExponentialBackoff k = 5 * 2 ^ k * Second ∧
  calculateExponentialBackoff k ≠ 5 * Second.
Proof.
  intros Hk.
  assert (k = 1 ∨ k = 2 ∨ k = 3 ∨ k = 4) as [-> | [-> | [-> | ->]]] by lia;
    by vm_compute.
Qed.

Lemma shiftl_5_far_left (k : Z) : k ≤ -3 → Z.shiftl 5 k = 0.
Proof.
  intros Hk. rewrite <- (Z.opp_involutive k), <- Z.shiftr_opp_r.
  rewrite Z.shiftr_div_pow2 by lia.
  apply Z.div_small. split; [lia|].
  apply Z.lt_le_trans with (2 ^ 3); [lia|].
  apply Z.pow_le_mono_r; lia.
Qed.

Section ConsumerFacts.
Context {R Q D : Type}.
Context `{!NotificationRepository R, !NotificationQueue Q, !Notifier D}.

(** The two outcomes of a failed send: the terminal update, or the retry. *)
Lemma handleSendError_calls (n : Notification) (sendErr : error) (c : Consumer R Q D) :
  let n' := set_Attempts (int64 (Attempts n + 1)) n in
  ∃ a, calls (handleSendError n sendErr c).2 =
       calls c ++
       [ if maxRetries <=? Attempts n'
         then CallUpdateNotification (set_Status StatusFailed n')
         else CallPublishRetry n' (calculateExponentialBackoff (Attempts n'));
         a ] ∧
       (a = CallAck ∨ a = CallNack true) ∧
       (handleSendError n sendErr c).1 =
         match a with CallAck => Ack | _ => Nack true end.
Proof.
  cbn. unfold handleSendError. cbn.
  destruct (maxRetries <=? int64 (Attempts n + 1)).
  - unfold consumer_UpdateNotification.
    destruct (UpdateNotification _ _) as [[err|] s]; cbn;
      [exists (CallNack true) | exists CallAck];
      rewrite <- app_assoc; cbn; auto.
  - cbn. destruct (queue_PublishRetry _ _ _) as [[err|] q]; cbn;
      [exists (CallNack true) | exists CallAck];
      rewrite <- app_assoc; cbn; auto.
Qed.

(** C4. When a send fails and the incremented attempts counter [k] is
    between 1 and 4, the worker calls [PublishRetry] with the delay
    [5 * 2^k] seconds (10 s, 20 s, 40 s, 80 s) and then answers the broker.
    For a notification whose counter was not negative, no [PublishRetry] is
    ever called with a delay of 5 s. *)
Theorem backoff_law (n : Notification) (sendErr : error) (c : Consumer R Q D) :
  let k := Attempts n + 1 in
  ∃ evs, calls (handleSendError n sendErr c).2 = calls c ++ evs ∧
    (1 ≤ k ≤ 4 →
     ∃ a, evs = [CallPublishRetry (set_Attempts k n) (5 * 2 ^ k * Second); a]) ∧
    (0 ≤ Attempts n → in_int64 (Attempts n) = true →
     ∀ n' d, CallPublishRetry n' d ∈ evs → d ≠ 5 * Second).
Proof.
  intros k.
  destruct (handleSendError_calls n sendErr c) as (a & Hcalls & Ha & _).
  cbn in Hcalls. eexists. split; [exact Hcalls|]. split.
  - intros Hk. exists a.
    rewrite int64_id by (unfold in_int64, minInt64, maxInt64; subst k; lia).
    cbn. fold k.
    destruct (Z.leb_spec maxRetries k) as [Hmax|_]; [unfold maxRetries in Hmax; lia|].
    by destruct (backoff_values k Hk) as [-> _].
  - intros Hnn Hin n' d Hd.
    apply elem_of_cons in Hd as [Hd|Hd].
    2:{ apply list_elem_of_singleton in Hd. by destruct Ha as [-> | ->]. }
    cbn in Hd.
    destruct (Z.leb_spec maxRetries (int64 (Attempts n + 1))) as [|Hlt]; [done|].
    injection Hd as -> ->. cbn.
    unfold in_int64, minInt64, maxInt64 in Hin.
    apply andb_prop in Hin as [_ Hle]. apply Z.leb_le in Hle.
    destruct (decide (Attempts n = 2 ^ 63 - 1)) as [Hmax|Hmax].
    + rewrite Hmax.
      replace (int64 (2 ^ 63 - 1 + 1)) with (- 2 ^ 63) by by vm_compute.
      unfold calculateExponentialBackoff.
      rewrite shiftl_5_far_left by lia. by vm_compute.
    + rewrite int64_id in * by (unfold in_int64, minInt64, maxInt64; lia).
      unfold maxRetries in Hlt.
      apply backoff_values. lia.
Qed.

Context `{!UUIDText, !TimeJSON}.

(** C3. When the worker has decoded a message and the re-read of the record
    fails, for whatever reason, or returns a status other than scheduled,
    the worker acknowledges the message and is done: its only calls are the
    re-read and the [Ack], so [Transport.Send] and the store [Update] are not
    called, the store is left as the re-read left it, and the transport and
    the broker are untouched. *)
Theorem revalidation_before_attempt (now : Time) (msg : Delivery)
    (c : Consumer R Q D) (notification : Notification)
    (latest : result Notification) (s : NotificationService R Q) :
  json_Unmarshal (delivery_Body msg) = Ok notification →
  GetNotificationByID (ID notification) (service c) = (latest, s) →
  (∀ l, latest = Ok l → Status l ≠ StatusScheduled) →
  handleMessage now msg c =
    (Ack, {| service := s; notifier := notifier c;
             calls := calls c ++ [CallGetNotificationByID (ID notification); CallAck] |}) ∧
  queue s = queue (service c).
Proof.
  intros Hbody Hget Hlatest. unfold handleMessage. rewrite Hbody. cbn.
  rewrite Hget. split.
  - destruct latest as [l|err]; cbn.
    + destruct (String.eqb_spec (Status l) StatusScheduled) as [Hs|_].
      * by destruct (Hlatest l eq_refl).
      * unfold record_call, with_service; cbn. by rewrite <- app_assoc.
    + unfold record_call, with_service; cbn. by rewrite <- app_assoc.
  - unfold GetNotificationByID in Hget.
    destruct (repo_GetByID _ _) as [[?|?] ?]; by injection Hget as <- <-.
Qed.
End ConsumerFacts.

(** ** The Redis cache *)

Definition delete_succeeds (r : Redis) : Prop :=
  (next_fault (redis_del_faults r)).1 = None.

Definition get_answered (r : Redis) : Prop :=
  (next_fault (redis_get_faults r)).1 = None.

Section RedisFacts.
Context `{!UUIDText, !TimeJSON}.

Lemma uuid_String_inj (u v : UUID) : uuid_String u = uuid_String v → u = v.
Proof.
  intros Heq. pose proof (uuid_Parse_String u) as Hu.
  rewrite Heq, uuid_Parse_String in Hu. by injection Hu.
Qed.

Lemma RedisNotificationKeyBuild_inj (u v : UUID) :
  RedisNotificationKeyBuild u = RedisNotificationKeyBuild v → u = v.
Proof.
  unfold RedisNotificationKeyBuild. cbn. intros [= Heq]. by apply uuid_String_inj.
Qed.

Lemma NotificationCache_Delete_data (id : UUID) (r : Redis) :
  delete_succeeds r →
  redis_data (NotificationCache_Delete id r).2 =
    delete (RedisNotificationKeyBuild id) (redis_data r).
Proof.
  unfold delete_succeeds, NotificationCache_Delete, redis_DEL.
  destruct (next_fault (redis_del_faults r)) as [fault rest]; cbn. by intros ->.
Qed.

Lemma NotificationCache_Get_absent (id : UUID) (r : Redis) :
  redis_data r !! RedisNotificationKeyBuild id = None →
  is_Ok (NotificationCache_Get id r).1 = false ∧
  (get_answered r → (NotificationCache_Get id r).1 = Err ErrNotFound).
Proof.
  unfold get_answered, NotificationCache_Get, redis_GET. intros Hkey.
  destruct (next_fault (redis_get_faults r)) as [[e|] rest]; cbn.
  - split; [done|]. by intros.
  - by rewrite Hkey.
Qed.
End RedisFacts.

Section CoherenceOnWrite.
Context {R : Type} `{!NotificationRepository R}.
Context `{!UUIDText, !TimeJSON}.

Lemma Cached_Update_cache (n : Notification) (r r' : CachedNotificationRepository R Redis) :
  Cached_Update n r = (None, r') →
  cache r' = (NotificationCache_Delete (ID n) (cache r)).2.
Proof.
  unfold Cached_Update. destruct (repo_Update n (primaryRepo r)) as [[err|] p]; [done|].
  cbn. destruct (NotificationCache_Delete (ID n) (cache r)) as [e c]. by intros [= <-].
Qed.

Lemma Cached_Delete_cache (id : UUID) (r r' : CachedNotificationRepository R Redis) :
  Cached_Delete id r = (None, r') →
  cache r' = (NotificationCache_Delete id (cache r)).2.
Proof.
  unfold Cached_Delete. destruct (repo_Delete id (primaryRepo r)) as [[err|] p]; [done|].
  cbn. destruct (NotificationCache_Delete id (cache r)) as [e c]. by intros [= <-].
Qed.

(** C7 (as the code has it). After an [Update] or a cancel through the
    cached store that succeeded and whose cache [Delete] did not fail, the
    cache holds no entry for the identifier: the next cache [Get] is not a
    hit, and returns [ErrNotFound] when Redis answers it. *)
Theorem cache_coherence_on_write (r r' : CachedNotificationRepository R Redis) :
  delete_succeeds (cache r) →
  (∀ n, Cached_Update n r = (None, r') →
     is_Ok (cache_Get (ID n) (cache r')).1 = false ∧
     (get_answered (cache r') → (cache_Get (ID n) (cache r')).1 = Err ErrNotFound)) ∧
  (∀ id, Cached_Delete id r = (None, r') →
     is_Ok (cache_Get id (cache r')).1 = false ∧
     (get_answered (cache r') → (cache_Get id (cache r')).1 = Err ErrNotFound)).
Proof.
  intros Hdel. split.
  - intros n Hu. apply NotificationCache_Get_absent.
    rewrite (Cached_Update_cache _ _ _ Hu), NotificationCache_Delete_data by done.
    apply lookup_delete_eq.
  - intros id Hd. apply NotificationCache_Get_absent.
    rewrite (Cached_Delete_cache _ _ _ Hd), NotificationCache_Delete_data by done.
    apply lookup_delete_eq.
Qed.
End CoherenceOnWrite.

(** ** The record store *)

Lemma in_int64_int16 (z : Z) : in_int64 (int16 z) = true.
Proof.
  unfold in_int64, minInt64, maxInt64, int16, wrap.
  pose proof (Z.mod_pos_bound (z + 2 ^ (16 - 1)) (2 ^ 16) eq_refl).
  apply andb_true_intro; split; apply Z.leb_le; lia.
Qed.

Lemma pg_begin_rows (pg : Postgres) : rows (pg_begin pg).2 = rows pg.
Proof. unfold pg_begin. by destruct (next_fault (pg_faults pg)). Qed.

(** The integer columns of a row hold Go integers. *)
Definition wf_row (row : db_Notification) : Prop :=
  in_int64 (db_Attempts row) = true ∧
  match db_TelegramChatID row with
  | Some c => in_int64 c = true
  | None => True
  end.

Definition domain (row : db_Notification) : Notification :=
  match toDomainModel row with
  | Ok n => n
  | Err _ => zeroNotification
  end.

Arguments domain : simpl never.

Lemma wf_domain (row : db_Notification) : wf_row row → wf_Notification (domain row).
Proof.
  intros [Ha Hc]. unfold domain. split; [done|]. cbn.
  destruct (String.eqb (db_Channel row) ChannelEmail); [done|].
  destruct (String.eqb (db_Channel row) ChannelTelegram); [|done].
  by destruct (db_TelegramChatID row).
Qed.

Lemma postgres_GetByID_spec (id : UUID) (pg : Postgres) :
  rows (postgres_GetByID id pg).2 = rows pg ∧
  ∀ n, (postgres_GetByID id pg).1 = Ok n →
       ∃ row, rows pg !! id = Some row ∧ n = domain row.
Proof.
  unfold postgres_GetByID, db_GetNotificationByID.
  pose proof (pg_begin_rows pg) as Hrows.
  destruct (pg_begin pg) as [[e|] pg1]; cbn in *.
  - split; [by destruct e|]. by destruct e.
  - rewrite Hrows. destruct (rows pg !! id) as [row|] eqn:Hrow; cbn.
    + split; [done|]. intros n [= <-]. by exists row.
    + by split.
Qed.

Lemma postgres_Update_spec (n : Notification) (pg : Postgres) :
  match (postgres_Update n pg).1 with
  | Some _ => rows (postgres_Update n pg).2 = rows pg
  | None =>
      ∃ old new,
        rows pg !! ID n = Some old ∧
        rows (postgres_Update n pg).2 = <[ID n := new]> (rows pg) ∧
        db_ID new = db_ID old ∧
        db_Status new = Status n ∧
        db_TelegramChatID new = db_TelegramChatID old ∧
        in_int64 (db_Attempts new) = true
  end.
Proof.
  unfold postgres_Update, db_UpdateNotificationStatus; cbn.
  pose proof (pg_begin_rows pg) as Hrows.
  destruct (pg_begin pg) as [[e|] pg1]; cbn in *.
  - by destruct e.
  - destruct (notification_status (Status n)); cbn; [|done].
    rewrite Hrows. destruct (rows pg !! ID n) as [old|] eqn:Hold; cbn; [|done].
    eexists old, _. rewrite ?Hrows. repeat split; try done. cbn. apply in_int64_int16.
Qed.

Lemma postgres_Delete_spec (id : UUID) (pg : Postgres) :
  match (postgres_Delete id pg).1 with
  | Some _ => rows (postgres_Delete id pg).2 = rows pg
  | None =>
      ∃ old new,
        rows pg !! id = Some old ∧
        rows (postgres_Delete id pg).2 = <[id := new]> (rows pg) ∧
        db_ID new = db_ID old ∧
        db_Status new = StatusCancelled ∧
        db_TelegramChatID new = db_TelegramChatID old ∧
        db_Attempts new = db_Attempts old
  end.
Proof.
  unfold postgres_Delete, db_CancelNotification; cbn.
  pose proof (pg_begin_rows pg) as Hrows.
  destruct (pg_begin pg) as [[e|] pg1]; cbn in *.
  - by destruct e.
  - rewrite Hrows. destruct (rows pg !! id) as [old|] eqn:Hold; cbn; [|done].
    eexists old, _. rewrite ?Hrows. by repeat split.
Qed.

Lemma pg_gen_random_uuid_rows (pg : Postgres) :
  rows (pg_gen_random_uuid pg).2 = rows pg.
Proof. unfold pg_gen_random_uuid. by destruct (pg_random pg). Qed.

Lemma postgres_Save_spec (n : Notification) (pg : Postgres) :
  wf_Notification n →
  match (postgres_Save n pg).1 with
  | Err _ => rows (postgres_Save n pg).2 = rows pg
  | Ok created =>
      ∃ row,
        rows pg !! db_ID row = None ∧
        rows (postgres_Save n pg).2 = <[db_ID row := row]> (rows pg) ∧
        created = domain row ∧
        wf_row row
  end.
Proof.
  intros [_ Hchat]. unfold postgres_Save.
  destruct (toDBCreateParams n) as [params|err] eqn:Hparams; [|done].
  assert (Hc : match cp_TelegramChatID params with
               | Some c => in_int64 c = true | None => True end).
  { unfold toDBCreateParams in Hparams.
    destruct (String.eqb (Channel n) ChannelEmail).
    - destruct (Email n) as [e|]; [|done].
      destruct (String.eqb (To e) ""); [done|]. by injection Hparams as <-.
    - destruct (String.eqb (Channel n) ChannelTelegram); [|done].
      destruct (Telegram n) as [t|]; [|done]. by injection Hparams as <-. }
  assert (Ha : in_int64 (cp_Attempts params) = true).
  { unfold toDBCreateParams in Hparams.
    destruct (String.eqb (Channel n) ChannelEmail).
    - destruct (Email n) as [e|]; [|done].
      destruct (String.eqb (To e) ""); [done|]. injection Hparams as <-.
      apply in_int64_int16.
    - destruct (String.eqb (Channel n) ChannelTelegram); [|done].
      destruct (Telegram n) as [t|]; [|done]. injection Hparams as <-.
      apply in_int64_int16. }
  unfold db_CreateNotification.
  pose proof (pg_begin_rows pg) as Hrows.
  destruct (pg_begin pg) as [[e|] pg1]; cbn in *.
  { destruct e as [|code|]; try done. by destruct (String.eqb code UniqueViolation). }
  destruct (channel_type (cp_Channel params) && notification_status (cp_Status params));
    cbn; [|done].
  destruct (chk_recipient_channel _ _ _); cbn; [|done].
  pose proof (pg_gen_random_uuid_rows pg1) as Hrows2.
  destruct (pg_gen_random_uuid pg1) as [id pg2]; cbn in *.
  rewrite Hrows2, Hrows.
  destruct (rows pg !! id) as [dup|] eqn:Hid; cbn; [by rewrite Hrows2|].
  eexists {| db_ID := id |}. cbn. rewrite ?Hrows2, ?Hrows. by repeat split.
Qed.

(** ** Coherence of the cache with the store *)

Definition deletes_succeed (c : Redis) : Prop :=
  Forall (fun f => f = None) (redis_del_faults c).

Definition rows_ok (rs : gmap UUID db_Notification) : Prop :=
  ∀ id row, rs !! id = Some row → db_ID row = id ∧ wf_row row.

(** Once its status has left [scheduled], a row keeps its status. *)
Definition terminal_kept (rs rs' : gmap UUID db_Notification) : Prop :=
  ∀ id row, rs !! id = Some row → db_Status row ≠ StatusScheduled →
            ∃ row', rs' !! id = Some row' ∧ db_Status row' = db_Status row.

Lemma terminal_kept_refl (rs : gmap UUID db_Notification) : terminal_kept rs rs.
Proof. intros id row Hrow _. by exists row. Qed.

Lemma terminal_kept_trans (rs1 rs2 rs3 : gmap UUID db_Notification) :
  terminal_kept rs1 rs2 → terminal_kept rs2 rs3 → terminal_kept rs1 rs3.
Proof.
  intros H12 H23 id row Hrow Hterm.
  destruct (H12 id row Hrow Hterm) as (row2 & Hrow2 & Hs2).
  destruct (H23 id row2 Hrow2) as (row3 & Hrow3 & Hs3); [by rewrite Hs2|].
  exists row3. split; [done|]. by rewrite Hs3.
Qed.

Lemma terminal_kept_fresh (rs : gmap UUID db_Notification) (id : UUID)
    (row : db_Notification) :
  rs !! id = None → terminal_kept rs (<[id := row]> rs).
Proof.
  intros Hfresh id' row' Hrow' _. exists row'. split; [|done].
  rewrite lookup_insert_ne; [done|]. intros ->. by rewrite Hfresh in Hrow'.
Qed.

Lemma terminal_kept_scheduled (rs : gmap UUID db_Notification) (id : UUID)
    (old new : db_Notification) :
  rs !! id = Some old → db_Status old = StatusScheduled →
  terminal_kept rs (<[id := new]> rs).
Proof.
  intros Hold Hsched id' row' Hrow' Hterm. exists row'. split; [|done].
  rewrite lookup_insert_ne; [done|]. intros ->.
  rewrite Hold in Hrow'. injection Hrow' as <-. by destruct Hterm.
Qed.

Section StoreInvariant.
Context `{!UUIDText, !TimeJSON}.

(** Whatever the cache would serve for an identifier has the status that the
    store holds for it. *)
Definition coherent (rs : gmap UUID db_Notification) (data : gmap string json) : Prop :=
  ∀ id j n, data !! RedisNotificationKeyBuild id = Some j →
            json_Unmarshal j = Ok n →
            ∃ row, rs !! id = Some row ∧ db_Status row = Status n.

Definition store_inv (r : CachedNotificationRepository Postgres Redis) : Prop :=
  deletes_succeed (cache r) ∧
  rows_ok (rows (primaryRepo r)) ∧
  coherent (rows (primaryRepo r)) (redis_data (cache r)).

Lemma coherent_delete (rs : gmap UUID db_Notification) (data : gmap string json)
    (key : string) :
  coherent rs data → coherent rs (delete key data).
Proof.
  intros Hco id j n Hj Hn. apply (Hco id j n); [|done].
  apply lookup_delete_Some in Hj. by destruct Hj.
Qed.

Lemma coherent_set (rs : gmap UUID db_Notification) (data : gmap string json)
    (row : db_Notification) (j : json) :
  coherent rs data → wf_row row → rs !! db_ID row = Some row →
  json_Marshal (domain row) = Ok j →
  coherent rs (<[RedisNotificationKeyBuild (db_ID row) := j]> data).
Proof.
  intros Hco Hwf Hrow Hj id j' n Hj' Hn.
  destruct (decide (id = db_ID row)) as [->|Hne].
  - rewrite lookup_insert_eq in Hj'. injection Hj' as <-.
    rewrite (json_Unmarshal_Marshal (domain row) j) in Hn; [|by apply wf_domain|done].
    injection Hn as <-. by exists row.
  - rewrite lookup_insert_ne in Hj'; [by eapply Hco|].
    intros Heq. by apply RedisNotificationKeyBuild_inj in Heq.
Qed.

Lemma coherent_fresh (rs : gmap UUID db_Notification) (data : gmap string json)
    (id : UUID) (row : db_Notification) :
  coherent rs data → rs !! id = None → coherent (<[id := row]> rs) data.
Proof.
  intros Hco Hfresh id' j n Hj Hn.
  destruct (Hco id' j n Hj Hn) as (row' & Hrow' & Hs).
  exists row'. split; [|done].
  rewrite lookup_insert_ne; [done|]. intros ->. by rewrite Hfresh in Hrow'.
Qed.

Lemma coherent_written (rs : gmap UUID db_Notification) (data : gmap string json)
    (id : UUID) (row : db_Notification) :
  coherent rs data →
  coherent (<[id := row]> rs) (delete (RedisNotificationKeyBuild id) data).
Proof.
  intros Hco id' j n Hj Hn.
  apply lookup_delete_Some in Hj as [Hne Hj].
  destruct (Hco id' j n Hj Hn) as (row' & Hrow' & Hs).
  exists row'. split; [|done].
  rewrite lookup_insert_ne; [done|]. by intros ->.
Qed.

Lemma rows_ok_insert (rs : gmap UUID db_Notification) (id : UUID)
    (row : db_Notification) :
  rows_ok rs → db_ID row = id → wf_row row → rows_ok (<[id := row]> rs).
Proof.
  intros Hok Hid Hwf id' row' Hrow'.
  destruct (decide (id = id')) as [<-|Hne].
  - rewrite lookup_insert_eq in Hrow'. by injection Hrow' as <-.
  - rewrite lookup_insert_ne in Hrow' by done. by apply Hok.
Qed.

Lemma deletes_succeed_next (c : Redis) :
  deletes_succeed c →
  delete_succeeds c ∧ Forall (fun f => f = None) (next_fault (redis_del_faults c)).2.
Proof.
  unfold deletes_succeed, delete_succeeds.
  destruct (redis_del_faults c) as [|f rest]; cbn; [done|].
  intros Hall. by apply Forall_cons in Hall as [-> Hrest].
Qed.

(** The commands of the cache, under the invariant. *)
Lemma NotificationCache_Get_spec (id : UUID) (c : Redis) :
  redis_data (NotificationCache_Get id c).2 = redis_data c ∧
  redis_del_faults (NotificationCache_Get id c).2 = redis_del_faults c ∧
  ∀ n, (NotificationCache_Get id c).1 = Ok n →
       ∃ j, redis_data c !! RedisNotificationKeyBuild id = Some j ∧
            json_Unmarshal j = Ok n.
Proof.
  unfold NotificationCache_Get, redis_GET.
  destruct (next_fault (redis_get_faults c)) as [[e|] rest]; cbn; [done|].
  destruct (redis_data c !! RedisNotificationKeyBuild id) as [j|] eqn:Hj; cbn; [|done].
  destruct (json_Unmarshal j) as [n|err] eqn:Hn; cbn; [|done].
  repeat split. intros n' [= <-]. by exists j.
Qed.

Lemma NotificationCache_Set_spec (n : Notification) (expiration : Duration) (c : Redis) :
  redis_del_faults (NotificationCache_Set n expiration c).2 = redis_del_faults c ∧
  (redis_data (NotificationCache_Set n expiration c).2 = redis_data c ∨
   ∃ j, json_Marshal n = Ok j ∧
        redis_data (NotificationCache_Set n expiration c).2 =
          <[RedisNotificationKeyBuild (ID n) := j]> (redis_data c)).
Proof.
  unfold NotificationCache_Set, redis_SET.
  destruct (json_Marshal n) as [j|err]; [|by split; [|left]].
  destruct (next_fault (redis_set_faults c)) as [[e|] rest]; cbn.
  - by split; [|left].
  - split; [done|]. right. by exists j.
Qed.

Lemma NotificationCache_Delete_spec (id : UUID) (c : Redis) :
  deletes_succeed c →
  deletes_succeed (NotificationCache_Delete id c).2 ∧
  redis_data (NotificationCache_Delete id c).2 =
    delete (RedisNotificationKeyBuild id) (redis_data c).
Proof.
  intros Hall. destruct (deletes_succeed_next c Hall) as [Hnext Hrest].
  split; [|by apply NotificationCache_Delete_data].
  unfold delete_succeeds in Hnext.
  unfold deletes_succeed, NotificationCache_Delete, redis_DEL.
  destruct (next_fault (redis_del_faults c)) as [fault rest]; cbn in *. by subst fault.
Qed.
End StoreInvariant.

Section CachedStoreFacts.
Context `{!UUIDText, !TimeJSON}.
Implicit Types r : CachedNotificationRepository Postgres Redis.

Lemma Cached_GetByID_inv (id : UUID) r :
  store_inv r →
  store_inv (Cached_GetByID id r).2 ∧
  rows (primaryRepo (Cached_GetByID id r).2) = rows (primaryRepo r) ∧
  ∀ n, (Cached_GetByID id r).1 = Ok n →
       ∃ row, rows (primaryRepo r) !! id = Some row ∧ db_Status row = Status n.
Proof.
  intros (Hdel & Hok & Hco). unfold Cached_GetByID.
  change (cache_Get id (cache r)) with (NotificationCache_Get id (cache r)).
  destruct (NotificationCache_Get_spec id (cache r)) as (Hdata & Hfaults & Hhit).
  destruct (NotificationCache_Get id (cache r)) as [[cached|e] c]; cbn in *.
  - split; [|split; [done|]].
    + unfold store_inv, deletes_succeed; cbn. by rewrite Hdata, Hfaults.
    + intros n [= <-]. destruct (Hhit cached eq_refl) as (j & Hj & Hn). by eapply Hco.
  - change (repo_GetByID id (primaryRepo r)) with (postgres_GetByID id (primaryRepo r)).
    destruct (postgres_GetByID_spec id (primaryRepo r)) as (Hrows & Hfound).
    destruct (postgres_GetByID id (primaryRepo r)) as [[primary|err] p]; cbn in *.
    + destruct (Hfound primary eq_refl) as (row & Hrow & ->).
      destruct (Hok id row Hrow) as [Hid Hwf].
      change (cache_Set (domain row) (ttl r) c)
        with (NotificationCache_Set (domain row) (ttl r) c).
      destruct (NotificationCache_Set_spec (domain row) (ttl r) c) as (Hf & Hset).
      destruct (NotificationCache_Set (domain row) (ttl r) c) as [e' c']; cbn in *.
      split; [|split; [done|]].
      * unfold store_inv, deletes_succeed; cbn. rewrite Hf, Hfaults, Hrows.
        split; [done|]. split; [done|].
        destruct Hset as [-> | (j & Hj & ->)]; rewrite Hdata; [done|].
        replace (ID (domain row)) with (db_ID row) by done.
        apply coherent_set; try done. by rewrite Hid.
      * intros n [= <-]. by exists row.
    + split; [|by split].
      unfold store_inv, deletes_succeed; cbn. by rewrite Hdata, Hfaults, Hrows.
Qed.

Lemma Cached_Update_inv (n : Notification) r :
  store_inv r →
  store_inv (Cached_Update n r).2 ∧
  (rows (primaryRepo (Cached_Update n r).2) = rows (primaryRepo r) ∨
   ∃ old new, rows (primaryRepo r) !! ID n = Some old ∧
              rows (primaryRepo (Cached_Update n r).2) =
                <[ID n := new]> (rows (primaryRepo r))).
Proof.
  intros (Hdel & Hok & Hco). unfold Cached_Update.
  change (repo_Update n (primaryRepo r)) with (postgres_Update n (primaryRepo r)).
  pose proof (postgres_Update_spec n (primaryRepo r)) as Hspec.
  destruct (postgres_Update n (primaryRepo r)) as [[err|] p]; cbn in *.
  - split; [|by left]. unfold store_inv; cbn. by rewrite Hspec.
  - destruct Hspec as (old & new & Hold & Hrows & Hid & Hst & Hchat & Hatt).
    change (cache_Delete (ID n) (cache r)) with (NotificationCache_Delete (ID n) (cache r)).
    destruct (NotificationCache_Delete_spec (ID n) (cache r) Hdel) as (Hdel' & Hdata).
    destruct (NotificationCache_Delete (ID n) (cache r)) as [e c]; cbn in *.
    split; [|right; by exists old, new].
    unfold store_inv; cbn. rewrite Hrows, Hdata.
    destruct (Hok _ _ Hold) as [Hoid [_ Hochat]].
    split; [done|]. split; [|by apply coherent_written].
    apply rows_ok_insert; [done|congruence|]. split; [done|]. by rewrite Hchat.
Qed.

Lemma Cached_Delete_inv (id : UUID) r :
  store_inv r →
  store_inv (Cached_Delete id r).2 ∧
  (rows (primaryRepo (Cached_Delete id r).2) = rows (primaryRepo r) ∨
   ∃ old new, rows (primaryRepo r) !! id = Some old ∧
              rows (primaryRepo (Cached_Delete id r).2) =
                <[id := new]> (rows (primaryRepo r))).
Proof.
  intros (Hdel & Hok & Hco). unfold Cached_Delete.
  change (repo_Delete id (primaryRepo r)) with (postgres_Delete id (primaryRepo r)).
  pose proof (postgres_Delete_spec id (primaryRepo r)) as Hspec.
  destruct (postgres_Delete id (primaryRepo r)) as [[err|] p]; cbn in *.
  - split; [|by left]. unfold store_inv; cbn. by rewrite Hspec.
  - destruct Hspec as (old & new & Hold & Hrows & Hid & Hst & Hchat & Hatt).
    change (cache_Delete id (cache r)) with (NotificationCache_Delete id (cache r)).
    destruct (NotificationCache_Delete_spec id (cache r) Hdel) as (Hdel' & Hdata).
    destruct (NotificationCache_Delete id (cache r)) as [e c]; cbn in *.
    split; [|right; by exists old, new].
    unfold store_inv; cbn. rewrite Hrows, Hdata.
    destruct (Hok _ _ Hold) as [Hoid [Hoatt Hochat]].
    split; [done|]. split; [|by apply coherent_written].
    apply rows_ok_insert; [done|congruence|]. split; [by rewrite Hatt|by rewrite Hchat].
Qed.

Lemma Cached_Save_inv (n : Notification) r :
  store_inv r → wf_Notification n →
  store_inv (Cached_Save n r).2 ∧
  terminal_kept (rows (primaryRepo r)) (rows (primaryRepo (Cached_Save n r).2)).
Proof.
  intros (Hdel & Hok & Hco) Hwf. unfold Cached_Save.
  change (repo_Save n (primaryRepo r)) with (postgres_Save n (primaryRepo r)).
  pose proof (postgres_Save_spec n (primaryRepo r) Hwf) as Hspec.
  destruct (postgres_Save n (primaryRepo r)) as [[created|err] p]; cbn in *.
  - destruct Hspec as (row & Hfresh & Hrows & -> & Hwfrow).
    change (cache_Set (domain row) (ttl r) (cache r))
      with (NotificationCache_Set (domain row) (ttl r) (cache r)).
    destruct (NotificationCache_Set_spec (domain row) (ttl r) (cache r)) as (Hf & Hset).
    destruct (NotificationCache_Set (domain row) (ttl r) (cache r)) as [e c]; cbn in *.
    split; [|rewrite Hrows; by apply terminal_kept_fresh].
    unfold store_inv, deletes_succeed; cbn. rewrite Hf, Hrows.
    split; [done|]. split; [by apply rows_ok_insert|].
    destruct Hset as [-> | (j & Hj & ->)]; [by apply coherent_fresh|].
    replace (ID (domain row)) with (db_ID row) by done.
    apply coherent_set; try done; [by apply coherent_fresh|apply lookup_insert_eq].
  - split; [|rewrite Hspec; apply terminal_kept_refl].
    unfold store_inv; cbn. by rewrite Hspec.
Qed.
End CachedStoreFacts.

(** ** The service over the cached store *)

Section ServiceFacts.
Context {Q : Type} `{!NotificationQueue Q}.
Context `{!UUIDText, !TimeJSON}.
Implicit Types s : NotificationService (CachedNotificationRepository Postgres Redis) Q.

Definition table s : gmap UUID db_Notification := rows (primaryRepo (repo s)).

Lemma Cached_GetByID_rows (id : UUID) (r : CachedNotificationRepository Postgres Redis) :
  rows (primaryRepo (Cached_GetByID id r).2) = rows (primaryRepo r).
Proof.
  unfold Cached_GetByID.
  destruct (cache_Get id (cache r)) as [[cached|e] c]; cbn; [done|].
  change (repo_GetByID id (primaryRepo r)) with (postgres_GetByID id (primaryRepo r)).
  destruct (postgres_GetByID_spec id (primaryRepo r)) as [Hrows _].
  destruct (postgres_GetByID id (primaryRepo r)) as [[primary|err] p]; cbn in *; [|done].
  by destruct (NotificationCache_Set primary (ttl r) c).
Qed.

Lemma GetNotificationByID_table (id : UUID) s :
  table (GetNotificationByID id s).2 = table s ∧
  queue (GetNotificationByID id s).2 = queue s.
Proof.
  unfold GetNotificationByID, table.
  change (repo_GetByID id (repo s)) with (Cached_GetByID id (repo s)).
  pose proof (Cached_GetByID_rows id (repo s)) as Hrows.
  by destruct (Cached_GetByID id (repo s)) as [[n|err] r].
Qed.

Lemma GetNotificationByID_inv (id : UUID) s :
  store_inv (repo s) →
  store_inv (repo (GetNotificationByID id s).2) ∧
  ∀ n, (GetNotificationByID id s).1 = Ok n →
       ∃ row, table s !! id = Some row ∧ db_Status row = Status n.
Proof.
  intros Hinv. unfold GetNotificationByID, table.
  change (repo_GetByID id (repo s)) with (Cached_GetByID id (repo s)).
  destruct (Cached_GetByID_inv id (repo s) Hinv) as (Hinv' & _ & Hfound).
  destruct (Cached_GetByID id (repo s)) as [[n|err] r]; cbn in *; [|done].
  split; [done|]. intros n' [= <-]. by apply Hfound.
Qed.

Lemma UpdateNotification_inv (n : Notification) s :
  store_inv (repo s) →
  store_inv (repo (UpdateNotification n s).2) ∧
  queue (UpdateNotification n s).2 = queue s ∧
  ((∃ row, table s !! ID n = Some row ∧ db_Status row = StatusScheduled) →
   terminal_kept (table s) (table (UpdateNotification n s).2)).
Proof.
  intros Hinv. unfold UpdateNotification, table.
  change (repo_Update n (repo s)) with (Cached_Update n (repo s)).
  destruct (Cached_Update_inv n (repo s) Hinv) as (Hinv' & Hrows).
  assert (Hkept : (∃ row, rows (primaryRepo (repo s)) !! ID n = Some row
                          ∧ db_Status row = StatusScheduled) →
                  terminal_kept (rows (primaryRepo (repo s)))
                    (rows (primaryRepo (Cached_Update n (repo s)).2))).
  { intros (row & Hrow & Hsched).
    destruct Hrows as [-> | (old & new & Hold & ->)]; [apply terminal_kept_refl|].
    by eapply terminal_kept_scheduled. }
  by destruct (Cached_Update n (repo s)) as [[err|] r].
Qed.

Lemma CancelNotification_inv (id : UUID) s :
  store_inv (repo s) →
  store_inv (repo (CancelNotification id s).2) ∧
  queue (CancelNotification id s).2 = queue s ∧
  terminal_kept (table s) (table (CancelNotification id s).2).
Proof.
  intros Hinv. unfold CancelNotification.
  change (repo_GetByID id (repo s)) with (Cached_GetByID id (repo s)).
  destruct (Cached_GetByID_inv id (repo s) Hinv) as (Hinv1 & Hrows1 & Hfound).
  destruct (Cached_GetByID id (repo s)) as [[n|err] r1]; cbn in *.
  2:{ split; [done|]. split; [done|]. unfold table; cbn. rewrite Hrows1.
      apply terminal_kept_refl. }
  destruct (String.eqb_spec (Status n) StatusScheduled) as [Hs|Hs]; cbn.
  2:{ split; [done|]. split; [done|]. unfold table; cbn. rewrite Hrows1.
      apply terminal_kept_refl. }
  destruct (Hfound n eq_refl) as (row & Hrow & Hst).
  change (repo_Delete id r1) with (Cached_Delete id r1).
  destruct (Cached_Delete_inv id r1 Hinv1) as (Hinv2 & Hrows2).
  destruct (Cached_Delete id r1) as [err r2]; cbn in *.
  split; [done|]. split; [done|]. unfold table; cbn.
  destruct Hrows2 as [-> | (old & new & Hold & ->)]; rewrite Hrows1;
    [apply terminal_kept_refl|].
  apply (terminal_kept_scheduled _ _ row); [done|congruence].
Qed.

(** A cancel of a record whose status has left [scheduled] is refused and
    writes nothing to the table. *)
Lemma CancelNotification_terminal (id : UUID) (row : db_Notification) s :
  store_inv (repo s) →
  table s !! id = Some row → db_Status row ≠ StatusScheduled →
  (CancelNotification id s).1 ≠ None ∧ table (CancelNotification id s).2 = table s.
Proof.
  intros Hinv Hrow Hterm. unfold CancelNotification.
  change (repo_GetByID id (repo s)) with (Cached_GetByID id (repo s)).
  destruct (Cached_GetByID_inv id (repo s) Hinv) as (Hinv1 & Hrows1 & Hfound).
  destruct (Cached_GetByID id (repo s)) as [[n|err] r1]; cbn in *; [|done].
  destruct (Hfound n eq_refl) as (row' & Hrow' & Hst).
  unfold table in Hrow. rewrite Hrow in Hrow'. injection Hrow' as <-.
  destruct (String.eqb_spec (Status n) StatusScheduled) as [Hs|Hs]; cbn; [|done].
  congruence.
Qed.

Lemma strconv_ParseInt_range (s0 : string) (z : Z) :
  strconv_ParseInt s0 = Ok z → in_int64 z = true.
Proof.
  unfold strconv_ParseInt.
  destruct (match s0 with
            | String "+" rest => (false, rest)
            | String "-" rest => (true, rest)
            | _ => (false, s0)
            end) as [neg digits].
  destruct (NilZero.uint_of_string digits) as [u|]; [|done].
  destruct (in_int64 (if neg then - Z.of_uint u else Z.of_uint u)) eqn:Hr; [|done].
  by intros [= <-].
Qed.

Lemma CreateNotification_inv (mail_ParseAddress : string → option error)
    (id : UUID) (now : Time) (recipient channel subject message : string)
    (scheduledAt : Time) (authorID : option string) s :
  store_inv (repo s) →
  let s' := (CreateNotification mail_ParseAddress id now recipient channel subject
               message scheduledAt authorID s).2 in
  store_inv (repo s') ∧ terminal_kept (table s) (table s').
Proof.
  intros Hinv. unfold CreateNotification.
  set (validated := if String.eqb channel ChannelEmail then _ else _).
  assert (Hwf : ∀ n, validated = Ok n → wf_Notification n).
  { subst validated. intros n.
    destruct (String.eqb channel ChannelEmail).
    - destruct (mail_ParseAddress recipient); [done|]. by intros [= <-].
    - destruct (String.eqb channel ChannelTelegram); [|done].
      destruct (strconv_ParseInt recipient) as [chatID|] eqn:Hp; [|done].
      intros [= <-]. split; [done|]. cbn. by eapply strconv_ParseInt_range. }
  destruct validated as [notification|err]; cbn.
  2:{ split; [done|apply terminal_kept_refl]. }
  change (repo_Save notification (repo s)) with (Cached_Save notification (repo s)).
  destruct (Cached_Save_inv notification (repo s) Hinv (Hwf _ eq_refl)) as [Hinv' Hkept].
  destruct (Cached_Save notification (repo s)) as [[created|err] r]; cbn in *; [|done].
  by destruct (queue_Publish now created (queue s)) as [[err|] q].
Qed.
End ServiceFacts.

(** ** The worker over the cached store *)

Section WorkerFacts.
Context {Q D : Type} `{!NotificationQueue Q, !Notifier D}.
Context `{!UUIDText, !TimeJSON}.
Implicit Types c : Consumer (CachedNotificationRepository Postgres Redis) Q D.

Lemma consumer_UpdateNotification_inv (n : Notification) c :
  store_inv (repo (service c)) →
  (∃ row, table (service c) !! ID n = Some row ∧ db_Status row = StatusScheduled) →
  store_inv (repo (service (consumer_UpdateNotification n c).2)) ∧
  terminal_kept (table (service c)) (table (service (consumer_UpdateNotification n c).2)).
Proof.
  intros Hinv Hrow. unfold consumer_UpdateNotification. cbn.
  destruct (UpdateNotification_inv n (service c) Hinv) as (Hinv' & _ & Hkept).
  specialize (Hkept Hrow).
  by destruct (UpdateNotification n (service c)) as [err s].
Qed.

Lemma handleSendError_inv (n : Notification) (sendErr : error) c :
  store_inv (repo (service c)) →
  (∃ row, table (service c) !! ID n = Some row ∧ db_Status row = StatusScheduled) →
  store_inv (repo (service (handleSendError n sendErr c).2)) ∧
  terminal_kept (table (service c)) (table (service (handleSendError n sendErr c).2)).
Proof.
  intros Hinv Hrow. unfold handleSendError. cbn.
  destruct (maxRetries <=? int64 (Attempts n + 1)).
  - set (n' := set_Status StatusFailed _).
    destruct (consumer_UpdateNotification_inv n' c Hinv Hrow) as [Hinv' Hkept].
    by destruct (consumer_UpdateNotification n' c) as [[err|] c1].
  - destruct (queue_PublishRetry _ _ _) as [[err|] q]; cbn;
      (split; [done|apply terminal_kept_refl]).
Qed.

Lemma handleMessage_inv (now : Time) (msg : Delivery) c :
  store_inv (repo (service c)) →
  store_inv (repo (service (handleMessage now msg c).2)) ∧
  terminal_kept (table (service c)) (table (service (handleMessage now msg c).2)).
Proof.
  intros Hinv. unfold handleMessage.
  destruct (json_Unmarshal (delivery_Body msg)) as [notification|err].
  2:{ cbn. split; [done|apply terminal_kept_refl]. }
  cbn.
  destruct (GetNotificationByID_inv (ID notification) (service c) Hinv) as [Hinv1 Hfound].
  destruct (GetNotificationByID_table (ID notification) (service c)) as [Htable _].
  destruct (GetNotificationByID (ID notification) (service c)) as [latest s1]; cbn in *.
  destruct latest as [latest|err]; cbn.
  2:{ split; [done|]. rewrite Htable. apply terminal_kept_refl. }
  destruct (String.eqb_spec (Status latest) StatusScheduled) as [Hs|Hs]; cbn.
  2:{ split; [done|]. rewrite Htable. apply terminal_kept_refl. }
  destruct (Hfound latest eq_refl) as (row & Hrow & Hst).
  assert (Hsched : ∃ row, table s1 !! ID notification = Some row
                          ∧ db_Status row = StatusScheduled).
  { exists row. rewrite Htable. split; [done|congruence]. }
  destruct (notifier_Send notification (notifier c)) as [[sendErr|] d]; cbn.
  - match goal with
    | |- context [handleSendError _ _ ?c1] =>
        destruct (handleSendError_inv notification sendErr c1 Hinv1 Hsched)
          as [Hinv2 Hkept]
    end.
    cbn in Hkept. rewrite Htable in Hkept. done.
  - set (n' := set_SentAt _ _).
    match goal with
    | |- context [consumer_UpdateNotification _ ?c1] =>
        destruct (consumer_UpdateNotification_inv n' c1 Hinv1 Hsched) as [Hinv2 Hkept];
        destruct (consumer_UpdateNotification n' c1) as [[err|] c2]
    end;
      cbn in *; rewrite Htable in Hkept; done.
Qed.
End WorkerFacts.

(** ** Terminal statuses in the running system *)

Section SystemFacts.
Context {D : Type} `{!Notifier D}.
Context `{!UUIDText, !TimeJSON}.
Variable mail_ParseAddress : string → option error.
Implicit Types s : @System D.

Definition system_inv s : Prop := store_inv (repo (service s)).

Lemma worker_step_inv (now : Time) s :
  system_inv s →
  system_inv (worker_step now s) ∧ terminal_kept (stored s) (stored (worker_step now s)).
Proof.
  intros Hinv. unfold worker_step.
  destruct (notificationsQueue (broker s)) as [|msg rest].
  { split; [done|apply terminal_kept_refl]. }
  match goal with
  | |- context [handleMessage now ?m ?c1] =>
      destruct (handleMessage_inv now m c1 Hinv) as [Hinv' Hkept];
      destruct (handleMessage now m c1) as [[|[|]] c2]
  end; by split.
Qed.

Lemma pipeline_step_inv (e : Event) s :
  system_inv s →
  system_inv (pipeline_step s e) ∧ terminal_kept (stored s) (stored (pipeline_step s e)).
Proof.
  intros Hinv. destruct e as [| |now]; cbn.
  - split; [done|apply terminal_kept_refl].
  - split; [done|apply terminal_kept_refl].
  - by apply worker_step_inv.
Qed.

Lemma system_step_inv (a : Action) s :
  system_inv s →
  system_inv (system_step mail_ParseAddress s a) ∧
  terminal_kept (stored s) (stored (system_step mail_ParseAddress s a)).
Proof.
  intros Hinv.
  destruct a as [id now recipient channel subject message scheduledAt authorID
                | id | idStr | e | key]; unfold system_inv, stored in *; cbn.
  - by apply (CreateNotification_inv mail_ParseAddress).
  - destruct (GetNotificationByID_inv id (service s) Hinv) as [Hinv' _].
    destruct (GetNotificationByID_table id (service s)) as [Htable _].
    split; [exact Hinv'|]. unfold table in Htable. rewrite Htable.
    apply terminal_kept_refl.
  - unfold Handlers_CancelNotification.
    destruct (uuid_Parse idStr) as [id|err]; cbn.
    2:{ split; [done|apply terminal_kept_refl]. }
    destruct (CancelNotification_inv id (service s) Hinv) as (Hinv' & _ & Hkept).
    destruct (CancelNotification id (service s)) as [[err|] s1]; cbn in *;
      [destruct (errors_Is err ErrNotFound)|]; by split.
  - by apply pipeline_step_inv.
  - split; [|apply terminal_kept_refl].
    destruct Hinv as (Hdel & Hok & Hco). split; [done|]. split; [done|].
    by apply coherent_delete.
Qed.

Lemma system_run_inv (actions : list Action) s :
  system_inv s →
  system_inv (system_run mail_ParseAddress actions s) ∧
  terminal_kept (stored s) (stored (system_run mail_ParseAddress actions s)).
Proof.
  revert s. induction actions as [|a actions IH]; intros s Hinv; cbn.
  { split; [done|apply terminal_kept_refl]. }
  destruct (system_step_inv a s Hinv) as [Hinv1 Hkept1].
  destruct (IH _ Hinv1) as [Hinv2 Hkept2].
  split; [done|]. by eapply terminal_kept_trans.
Qed.

Lemma system_inv_initial s :
  stored s = ∅ → cached s = ∅ → deletes_succeed (cache (repo (service s))) →
  system_inv s.
Proof.
  unfold stored, cached. intros Hrows Hdata Hdel. split; [done|]. split.
  - intros id row. by rewrite Hrows, lookup_empty.
  - intros id j n. by rewrite Hdata, lookup_empty.
Qed.

(** C1 (as the code has it). Start the system with an empty table and an
    empty cache, let no cache [Delete] fail, and let every API call and every
    delivery run to its end before the next one starts.  Then, whatever the
    API, the broker, the workers and the expiry of cache keys do, in any
    order and with any other failure, a record whose stored status has left
    [scheduled] keeps that status for ever; and in every state that is
    reached a cancel of such a record is refused without a write to the
    table, so the unconditional [CancelNotification] statement is not run
    on it. *)
Theorem terminal_monotonicity (before after : list Action) s0 :
  stored s0 = ∅ → cached s0 = ∅ → deletes_succeed (cache (repo (service s0))) →
  let s := system_run mail_ParseAddress before s0 in
  let s' := system_run mail_ParseAddress after s in
  (∀ id row, stored s !! id = Some row → db_Status row ≠ StatusScheduled →
     ∃ row', stored s' !! id = Some row' ∧ db_Status row' = db_Status row) ∧
  (∀ id row, stored s !! id = Some row → db_Status row ≠ StatusScheduled →
     (CancelNotification id (service s)).1 ≠ None ∧
     table (CancelNotification id (service s)).2 = stored s).
Proof.
  intros Hrows Hdata Hdel s s'.
  pose proof (system_inv_initial s0 Hrows Hdata Hdel) as Hinv0.
  destruct (system_run_inv before s0 Hinv0) as [Hinv _].
  destruct (system_run_inv after s Hinv) as [_ Hkept].
  split; [exact Hkept|].
  intros id row Hrow Hterm. by apply (CancelNotification_terminal id row).
Qed.
End SystemFacts.

(** ** Cancelling through the API *)

(** The error that [CancelNotification] builds for a record that is not
    scheduled. *)
Definition InvalidState (status : string) : error :=
  errorString ("cannot cancel notification with status: " +:+ status).

Lemma postgres_Delete_errors (id : UUID) (pg : Postgres) (e : error) :
  (postgres_Delete id pg).1 = Some e →
  e = ErrNotFound ∨ ∃ msg cause, e = wrapError msg cause.
Proof.
  unfold postgres_Delete.
  destruct (db_CancelNotification id pg) as [[[|code|msg]|row] pg']; cbn;
    intros [= <-]; eauto.
Qed.

Section CancelFacts.
Context {Q : Type} `{!NotificationQueue Q}.
Context `{!UUIDText, !TimeJSON}.
Implicit Types s : NotificationService (CachedNotificationRepository Postgres Redis) Q.

(** C8 (as the code has it). [CancelNotification] reads the record through
    the store, which writes nothing to the table.  When the status read is
    not [scheduled] it fails with the invalid-state error, calls nothing
    else, and the DELETE handler answers 500 (only a not-found error has a
    status of its own, 404); when the status read is [scheduled] it returns
    what the store's cancel returns, which is never the invalid-state error,
    and the handler answers 204 when that cancel succeeds. *)
Theorem cancel_precondition (idStr : string) (id : UUID) s
    (notification : Notification) s_read :
  uuid_Parse idStr = Ok id →
  GetNotificationByID id s = (Ok notification, s_read) →
  table s_read = table s ∧
  (Status notification ≠ StatusScheduled →
     CancelNotification id s = (Some (InvalidState (Status notification)), s_read) ∧
     Handlers_CancelNotification idStr s = (StatusInternalServerError, s_read)) ∧
  (Status notification = StatusScheduled →
     CancelNotification id s =
       (let '(err, r) := repo_Delete id (repo s_read) in (err, with_repo r s_read)) ∧
     (∀ status, (CancelNotification id s).1 ≠ Some (InvalidState status)) ∧
     ((repo_Delete id (repo s_read)).1 = None →
      (Handlers_CancelNotification idStr s).1 = StatusNoContent)).
Proof.
  intros Hparse Hget.
  assert (Hread : repo_GetByID id (repo s) = (Ok notification, repo s_read)
                  ∧ s_read = with_repo (repo s_read) s).
  { unfold GetNotificationByID in Hget.
    destruct (repo_GetByID id (repo s)) as [[n|err] r]; [|done].
    by injection Hget as -> <-. }
  destruct Hread as [Hread Hs_read].
  split; [|split].
  - pose proof (GetNotificationByID_table id s) as [Htable _]. by rewrite Hget in Htable.
  - intros Hstatus.
    assert (Hcancel : CancelNotification id s
                      = (Some (InvalidState (Status notification)), s_read)).
    { unfold CancelNotification. rewrite Hread, <- Hs_read.
      by destruct (String.eqb_spec (Status notification) StatusScheduled). }
    split; [done|].
    unfold Handlers_CancelNotification. by rewrite Hparse, Hcancel.
  - intros Hstatus.
    assert (Hcancel : CancelNotification id s
                      = (let '(err, r) := repo_Delete id (repo s_read) in
                         (err, with_repo r s_read))).
    { unfold CancelNotification. rewrite Hread, <- Hs_read.
      by destruct (String.eqb_spec (Status notification) StatusScheduled). }
    split; [done|]. split.
    + intros status. rewrite Hcancel.
      change (repo_Delete id (repo s_read)) with (Cached_Delete id (repo s_read)).
      pose proof (Cached_Delete_result id (repo s_read)) as Hres.
      change (repo_Delete id (primaryRepo (repo s_read)))
        with (postgres_Delete id (primaryRepo (repo s_read))) in Hres.
      destruct (Cached_Delete id (repo s_read)) as [err r]; cbn in *.
      intros ->. symmetry in Hres.
      by destruct (postgres_Delete_errors _ _ _ Hres) as [|(msg & cause & ?)].
    + unfold Handlers_CancelNotification. rewrite Hparse, Hcancel.
      destruct (repo_Delete id (repo s_read)) as [err r]; cbn. by intros ->.
Qed.
End CancelFacts.

(** ** Bounded attempts *)

Definition in_flight (b : Broker) : list Publishing :=
  waitQueue b ++ retryQueue b ++ notificationsQueue b.

Section BoundedAttempts.
Context {R D : Type} `{!NotificationRepository R, !Notifier D}.
Context `{!UUIDText, !TimeJSON}.
Implicit Types c : Consumer R Broker D.

Definition sends c : Z := Z.of_nat (count is_Send (calls c)).
Definition requeues c : Z := Z.of_nat (count is_requeue (calls c)).

Lemma RabbitMQQueue_PublishRetry_spec (n : Notification) (d : Duration) (b : Broker) :
  let r := RabbitMQQueue_PublishRetry n d b in
  waitQueue r.2 = waitQueue b ∧
  notificationsQueue r.2 = notificationsQueue b ∧
  match r.1 with
  | Some _ => retryQueue r.2 = retryQueue b
  | None => ∃ m, json_Marshal n = Ok (Body m) ∧ retryQueue r.2 = retryQueue b ++ [m]
  end.
Proof.
  cbn. unfold RabbitMQQueue_PublishRetry.
  destruct (json_Marshal n) as [body|err]; [|done].
  unfold PublishWithContext.
  destruct (next_fault (amqp_faults b)) as [[e|] rest]; cbn; [done|].
  repeat split. by eexists {| Body := body |}.
Qed.

(** What one delivery of a well-formed message costs: at most one send; a
    refusal puts the same message back, an acknowledgement either ends the
    chain or leaves one retry with one more attempt on record. *)
Lemma handleMessage_budget (now : Time) (body : json) (n : Notification) c :
  json_Unmarshal body = Ok n → wf_Notification n → 0 ≤ Attempts n ≤ 4 →
  let r := handleMessage now {| delivery_Body := body |} c in
  waitQueue (broker r.2) = waitQueue (broker c) ∧
  notificationsQueue (broker r.2) = notificationsQueue (broker c) ∧
  match r.1 with
  | Nack requeue =>
      requeue = true ∧
      retryQueue (broker r.2) = retryQueue (broker c) ∧
      sends r.2 ≤ sends c + 1 ∧ requeues r.2 = requeues c + 1
  | Ack =>
      (retryQueue (broker r.2) = retryQueue (broker c) ∧
       sends r.2 ≤ sends c + 1 ∧ requeues r.2 = requeues c) ∨
      (∃ m n', retryQueue (broker r.2) = retryQueue (broker c) ++ [m] ∧
               json_Unmarshal (Body m) = Ok n' ∧ wf_Notification n' ∧
               Attempts n' = Attempts n + 1 ∧ Attempts n' ≤ 4 ∧
               sends r.2 = sends c + 1 ∧ requeues r.2 = requeues c)
  end.
Proof.
  intros Hbody Hwf Hatt. cbn. unfold handleMessage. cbn. rewrite Hbody.
  unfold GetNotificationByID, broker, sends, requeues. cbn.
  destruct (repo_GetByID (ID n) (repo (service c))) as [latest r1]; cbn.
  destruct latest as [latest|err]; cbn.
  2:{ repeat split. left. rewrite !count_app; cbn. repeat split; lia. }
  destruct (String.eqb (Status latest) StatusScheduled); cbn.
  2:{ repeat split. left. rewrite !count_app; cbn. repeat split; lia. }
  destruct (notifier_Send n (notifier c)) as [[sendErr|] d]; cbn.
  - unfold handleSendError. cbn.
    rewrite int64_id by (unfold in_int64, minInt64, maxInt64; lia).
    destruct (Z.leb_spec maxRetries (Attempts n + 1)) as [Hmax|Hmax]; cbn.
    + unfold consumer_UpdateNotification, UpdateNotification; cbn.
      match goal with
      | |- context [repo_Update ?x r1] => destruct (repo_Update x r1) as [[err|] r2]
      end; cbn; repeat split; try left; rewrite !count_app; cbn; repeat split; lia.
    + unfold maxRetries in Hmax.
      set (n' := set_Attempts (Attempts n + 1) n).
      set (delay := calculateExponentialBackoff (Attempts n + 1)).
      change (queue_PublishRetry n' delay (queue (service c)))
        with (RabbitMQQueue_PublishRetry n' delay (queue (service c))).
      destruct (RabbitMQQueue_PublishRetry_spec n' delay (queue (service c)))
        as (Hw & Hq & Hr).
      destruct (RabbitMQQueue_PublishRetry n' delay (queue (service c)))
        as [[err|] q]; cbn in *.
      * repeat split; try done; rewrite !count_app; cbn; lia.
      * destruct Hr as (m & Hm & Hretry).
        repeat split; try done. right. exists m, n'.
        assert (Hwf' : wf_Notification n').
        { destruct Hwf as [_ Hchat]. split; [|done].
          cbn. unfold in_int64, minInt64, maxInt64.
          apply andb_true_intro; split; apply Z.leb_le; lia. }
        split; [done|]. split; [by apply json_Unmarshal_Marshal|].
        split; [done|]. cbn. rewrite !count_app; cbn. repeat split; lia.
  - unfold consumer_UpdateNotification, UpdateNotification; cbn.
    match goal with
    | |- context [repo_Update ?x r1] => destruct (repo_Update x r1) as [[err|] r2]
    end; cbn; repeat split; try left; rewrite !count_app; cbn; repeat split; lia.
Qed.
(** At most one message of the notification is in the broker, and the sends
    made so far plus those its attempts counter still allows stay within
    five plus the number of requeues. *)
Definition budget_inv c : Prop :=
  (in_flight (broker c) = [] ∧ sends c ≤ 5 + requeues c) ∨
  (∃ m n, in_flight (broker c) = [m] ∧
          json_Unmarshal (Body m) = Ok n ∧ wf_Notification n ∧
          0 ≤ Attempts n ≤ 4 ∧
          sends c + (5 - Attempts n) ≤ 5 + requeues c).

Lemma in_flight_nil (b : Broker) :
  in_flight b = [] →
  waitQueue b = [] ∧ retryQueue b = [] ∧ notificationsQueue b = [].
Proof.
  unfold in_flight. intros [Hw [Hr Hn]%app_eq_nil]%app_eq_nil. done.
Qed.

Lemma pipeline_step_budget (e : Event) c :
  budget_inv c → budget_inv (pipeline_step c e).
Proof.
  intros Hinv. destruct e as [| |now]; cbn.
  - (* the head of the wait queue is dead-lettered *)
    unfold budget_inv, sends, requeues, expire_wait, in_flight in *. cbn.
    destruct (waitQueue (broker c)) as [|m1 w] eqn:Hw; [by rewrite Hw|]. cbn in *.
    destruct Hinv as [[Hfl _] | (m & n & Hfl & Hrest)]; [done|].
    injection Hfl as -> Hfl.
    apply app_eq_nil in Hfl as [-> [Hr Hq]%app_eq_nil].
    right. exists (dead_letter m), n. rewrite Hr, Hq. done.
  - (* the head of the retry queue is dead-lettered *)
    unfold budget_inv, sends, requeues, expire_retry, in_flight in *. cbn.
    destruct (retryQueue (broker c)) as [|m1 r] eqn:Hr; [by rewrite Hr|]. cbn in *.
    destruct Hinv as [[Hfl _] | (m & n & Hfl & Hrest)].
    { by apply app_eq_nil in Hfl as [_ ?]. }
    destruct (waitQueue (broker c)) as [|m2 w]; cbn in *.
    2:{ injection Hfl as _ Hfl. by apply app_eq_nil in Hfl as [_ ?]. }
    injection Hfl as -> Hfl.
    apply app_eq_nil in Hfl as [-> Hq].
    right. exists (dead_letter m), n. rewrite Hq. done.
  - (* a worker handles the head of the ready queue *)
    unfold worker_step.
    destruct (notificationsQueue (broker c)) as [|msg rest] eqn:Hq; [done|].
    destruct Hinv as [[Hfl _] | (m & n & Hfl & Hbody & Hwf & Hatt & Hbudget)].
    { apply in_flight_nil in Hfl as (_ & _ & Hfl). by rewrite Hq in Hfl. }
    unfold in_flight in Hfl. rewrite Hq in Hfl.
    destruct (waitQueue (broker c)) as [|m2 w] eqn:Hw; cbn in Hfl.
    2:{ injection Hfl as _ Hfl. apply app_eq_nil in Hfl as [_ Hfl].
        by apply app_eq_nil in Hfl as [_ ?]. }
    destruct (retryQueue (broker c)) as [|m3 r] eqn:Hr; cbn in Hfl.
    2:{ injection Hfl as _ Hfl. by apply app_eq_nil in Hfl as [_ ?]. }
    injection Hfl as -> ->.
    set (c1 := with_broker (with_notificationsQueue [] (broker c)) c).
    destruct (handleMessage_budget now (Body m) n c1 Hbody Hwf Hatt) as (Hw' & Hq' & Hout).
    cbn in Hw', Hq', Hout.
    change (sends c1) with (sends c) in Hout.
    change (requeues c1) with (requeues c) in Hout.
    change (retryQueue (broker c1)) with (retryQueue (broker c)) in Hout.
    change (waitQueue (broker c1)) with (waitQueue (broker c)) in Hw'.
    rewrite Hr in Hout. rewrite Hw in Hw'.
    destruct (handleMessage now {| delivery_Body := Body m |} c1) as [[|requeue] c2];
      cbn in *.
    + destruct Hout as [(Hr' & Hs & Hrq) | (m' & n' & Hr' & Hbody' & Hwf' & Ha' & Hle & Hs & Hrq)].
      * left. unfold in_flight. rewrite Hw', Hr', Hq'. split; [done|]. lia.
      * right. exists m', n'. unfold in_flight. rewrite Hw', Hr', Hq'.
        split; [done|]. split; [done|]. split; [done|]. split; lia.
    + destruct Hout as (-> & Hr' & Hs & Hrq).
      right. exists m, n. unfold in_flight, budget_inv, sends, requeues in *; cbn.
      rewrite Hw', Hr', Hq'.
      split; [done|]. split; [done|]. split; [done|]. split; lia.
Qed.

Lemma pipeline_run_budget (es : list Event) c :
  budget_inv c → budget_inv (pipeline_run es c).
Proof.
  revert c. induction es as [|e es IH]; intros c Hinv; cbn; [done|].
  apply IH. by apply pipeline_step_budget.
Qed.

(** C2 (as the code has it). Take one notification as the service creates
    it, with no attempt on record, and its one message in the broker.  In
    every run of the pipeline, whatever the store, the transport and the
    broker answer, the number of [Transport.Send] calls is at most five plus
    the number of deliveries that ended in [Nack(requeue=true)]: every
    republish through the retry queue counts against the five, a requeued
    delivery does not.  Without any requeue, at most five sends. *)
Theorem bounded_attempts (es : list Event) c (n : Notification) (msg : Publishing) :
  wf_Notification n → Attempts n = 0 →
  json_Marshal n = Ok (Body msg) →
  in_flight (broker c) = [msg] →
  calls c = [] →
  let c' := pipeline_run es c in
  (count is_Send (calls c') ≤ 5 + count is_requeue (calls c'))%nat ∧
  (count is_requeue (calls c') = 0%nat → (count is_Send (calls c') ≤ 5)%nat).
Proof.
  intros Hwf Hatt Hbody Hfl Hcalls c'.
  assert (Hinv : budget_inv c).
  { right. exists msg, n. unfold sends, requeues. rewrite Hcalls, Hatt. cbn.
    split; [done|]. split; [by apply json_Unmarshal_Marshal|].
    split; [done|]. lia. }
  apply (pipeline_run_budget es) in Hinv. fold c' in Hinv.
  assert (Hle : sends c' ≤ 5 + requeues c').
  { destruct Hinv as [[_ Hle] | (m & n' & _ & _ & _ & Ha & Hle)]; lia. }
  unfold sends, requeues in Hle. split; [lia|]. intros Hz. lia.
Qed.
End BoundedAttempts.

(** * Sample runs *)

Section Samples.
#[local] Existing Instance decimal_UUIDText.
#[local] Existing Instance decimal_TimeJSON.

(** A stand-in for [mail.ParseAddress]: an address has an at sign. *)
Fixpoint has_at (s : string) : bool :=
  match s with
  | EmptyString => false
  | String c rest => Ascii.eqb c "@" || has_at rest
  end.

Definition sample_ParseAddress (s : string) : option error :=
  if has_at s then None else Some (errorString "mail: missing '@' or angle-addr").

Definition sample_newBotAPI (token : string) : result BotAPI :=
  Ok {| Token := token |}.

Definition sample_Config (mode token : string) : Config := {|
  Notifiers := {|
    Mode := mode;
    cfg_Email := {| Host := ""; Port := 0; Username := ""; Password := ""; From := "" |};
    cfg_Telegram := {| BotToken := token |} |} |}.

Definition sample_Dispatcher (mode token : string) : Dispatcher :=
  match NewDispatcher sample_newBotAPI (sample_Config mode token) with
  | Ok d => d
  | Err _ => {| notifiers := ∅ |}
  end.

Definition refused : option error := Some (errorString "connection refused").

(** An empty system: nothing stored, cached or queued; the database will
    hand out the identifier 7. *)
Definition sample_System (mode token : string)
    (redis_del amqp telegram : list (option error))
    : @System (Dispatcher * Transports) := {|
  service := {|
    repo := NewCachedNotificationRepository
      {| rows := ∅; pg_now := 1000; pg_random := [7%N]; pg_faults := [] |}
      {| redis_data := ∅; redis_get_faults := []; redis_set_faults := [];
         redis_del_faults := redis_del |};
    queue := {| waitQueue := []; retryQueue := []; notificationsQueue := [];
                amqp_faults := amqp |} |};
  notifier := (sample_Dispatcher mode token,
               {| smtp_delivered := []; telegram_delivered := [];
                  smtp_faults := []; telegram_faults := telegram |});
  calls := [] |}.

Definition sample_Create : Action :=
  Create 1%N 1000 "42" "telegram" "subject" "hello" 2000 None.

Definition sample_run (actions : list Action) (s : @System (Dispatcher * Transports))
    : @System (Dispatcher * Transports) :=
  system_run sample_ParseAddress actions s.

Definition sample_Notification : Notification :=
  NewTelegramNotification 7%N 1000 42 "subject" "hello" 2000 None.

Definition status_of (id : UUID) (s : @System (Dispatcher * Transports)) : option string :=
  db_Status <$> stored s !! id.

(** The system after the notification was created, dead-lettered to the
    ready queue and handled by a worker at instant 3000. *)
Definition sample_delivered (s : @System (Dispatcher * Transports))
    : @System (Dispatcher * Transports) :=
  sample_run [sample_Create; Pipeline ExpireWait; Pipeline (Work 3000)] s.

Definition sample_body : json :=
  match json_Marshal sample_Notification with
  | Ok body => body
  | Err _ => JNull
  end.

Definition sample_msg : Publishing := {|
  ContentType := "application/json";
  Body := sample_body;
  DeliveryMode := Persistent;
  Expiration := "0" |}.

(** ** Runs that the specification does not allow for *)

(** C1 fails as the specification words it: the cache [Delete] after the
    update to [sent] fails, the cache keeps the scheduled copy, and the
    cancel that reads it overwrites [sent] with [cancelled]. *)
Lemma terminal_status_overwritten :
  let s := sample_delivered (sample_System "log_only" "" [refused] [] []) in
  status_of 7%N s = Some StatusSent ∧
  status_of 7%N (sample_run [Cancel "7"] s) = Some StatusCancelled.
Proof. by vm_compute. Qed.

(** C2 fails as the specification words it: the transport and the retry
    publish fail six times, each delivery is requeued with its body
    unchanged, and the sixth delivery sends again. *)
Lemma six_sends_of_one_notification :
  let s :=
    sample_run
      (sample_Create :: Pipeline ExpireWait :: replicate 6 (Pipeline (Work 3000)))
      (sample_System "production" "token" []
         (None :: replicate 6 refused) (replicate 6 refused)) in
  count is_Send (calls s) = 6%nat ∧ ¬ (count is_Send (calls s) ≤ 5)%nat.
Proof. split; [by vm_compute|]. vm_compute. lia. Qed.

(** C7 fails as the specification words it: [Update] and the cancel succeed
    although the cache [Delete] failed, and the next cache [Get] is a hit on
    the stale scheduled copy. *)
Lemma stale_entry_after_write :
  let r := repo (service (sample_run [sample_Create]
                            (sample_System "log_only" "" [refused] [] []))) in
  let updated := Cached_Update (set_Status StatusSent sample_Notification) r in
  let cancelled := Cached_Delete 7%N r in
  updated.1 = None ∧
  (∃ stale, (cache_Get 7%N (cache updated.2)).1 = Ok stale ∧
            Status stale = StatusScheduled) ∧
  cancelled.1 = None ∧
  (∃ stale, (cache_Get 7%N (cache cancelled.2)).1 = Ok stale ∧
            Status stale = StatusScheduled).
Proof.
  cbv zeta. split; [by vm_compute|]. split; [|split; [by vm_compute|]].
  - eexists. split; [vm_compute; reflexivity|done].
  - eexists. split; [vm_compute; reflexivity|done].
Qed.

(** C8 fails as the specification words it: the DELETE handler answers
    500, not 409, for a record that was already sent. *)
Lemma cancel_of_sent_answers_500 :
  let s := service (sample_delivered (sample_System "log_only" "" [] [] [])) in
  (∃ n, (GetNotificationByID 7%N s).1 = Ok n ∧ Status n = StatusSent) ∧
  (Handlers_CancelNotification "7" s).1 = StatusInternalServerError ∧
  (Handlers_CancelNotification "7" s).1 ≠ StatusConflict.
Proof.
  cbv zeta. split; [|split].
  - eexists. split; [vm_compute; reflexivity|done].
  - by vm_compute.
  - by vm_compute.
Qed.
(** The API and a worker are separate processes.  When a cancel falls
    between a worker's re-read and its update, the update overwrites
    [cancelled] with [sent]: the theorem on terminal statuses is about calls
    that run one after the other. *)
Lemma cancel_between_revalidation_and_update :
  let s0 := service (sample_run [sample_Create] (sample_System "log_only" "" [] [] [])) in
  let revalidated := GetNotificationByID 7%N s0 in
  let cancelled := CancelNotification 7%N revalidated.2 in
  let updated :=
    UpdateNotification (set_Status StatusSent sample_Notification) cancelled.2 in
  (∃ latest, revalidated.1 = Ok latest ∧ Status latest = StatusScheduled) ∧
  cancelled.1 = None ∧
  db_Status <$> table cancelled.2 !! 7%N = Some StatusCancelled ∧
  updated.1 = None ∧
  db_Status <$> table updated.2 !! 7%N = Some StatusSent.
Proof.
  cbv zeta. split; [|by vm_compute].
  eexists. split; [vm_compute; reflexivity|done].
Qed.

(** ** The theorems at work on the samples *)

Lemma terminal_monotonicity_witness :
  let s0 := sample_System "log_only" "" [] [] [] in
  let s := sample_delivered s0 in
  let s' := sample_run [Cancel "7"; Pipeline (Work 4000)] s in
  status_of 7%N s = Some StatusSent ∧
  (∃ row', stored s' !! 7%N = Some row' ∧ db_Status row' = StatusSent) ∧
  (CancelNotification 7%N (service s)).1 ≠ None.
Proof.
  cbv zeta. split; [by vm_compute|].
  destruct (terminal_monotonicity sample_ParseAddress
              [sample_Create; Pipeline ExpireWait; Pipeline (Work 3000)]
              [Cancel "7"; Pipeline (Work 4000)]
              (sample_System "log_only" "" [] [] []))
    as [Hkept Hrefused]; [reflexivity | reflexivity | constructor |].
  assert (Hrow : ∃ row, stored (sample_delivered (sample_System "log_only" "" [] [] []))
                          !! 7%N = Some row ∧ db_Status row = StatusSent).
  { eexists. split; [vm_compute; reflexivity|reflexivity]. }
  destruct Hrow as (row & Hrow & Hsent).
  split.
  - destruct (Hkept 7%N row Hrow) as (row' & Hrow' & Hst); [by rewrite Hsent|].
    exists row'. split; [exact Hrow'|]. by rewrite Hst.
  - apply (Hrefused 7%N row Hrow). by rewrite Hsent.
Defined.

Lemma bounded_attempts_witness :
  let c := sample_run [sample_Create]
             (sample_System "production" "token" []
                (None :: replicate 6 refused) (replicate 6 refused)) in
  let c' := pipeline_run (ExpireWait :: replicate 6 (Work 3000)) c in
  (count is_Send (calls c') ≤ 5 + count is_requeue (calls c'))%nat.
Proof.
  cbv zeta.
  apply (bounded_attempts (ExpireWait :: replicate 6 (Work 3000)) _
           sample_Notification sample_msg).
  - split; reflexivity.
  - reflexivity.
  - vm_compute. reflexivity.
  - vm_compute. reflexivity.
  - reflexivity.
Defined.

Lemma revalidation_before_attempt_witness :
  let c := sample_delivered (sample_System "log_only" "" [] [] []) in
  (handleMessage 4000 {| delivery_Body := sample_body |} c).1 = Ack ∧
  count is_Send (calls (handleMessage 4000 {| delivery_Body := sample_body |} c).2)
    = count is_Send (calls c).
Proof.
  cbv zeta.
  set (c := sample_delivered (sample_System "log_only" "" [] [] [])).
  destruct (revalidation_before_attempt 4000 {| delivery_Body := sample_body |} c
              sample_Notification
              (GetNotificationByID 7%N (service c)).1
              (GetNotificationByID 7%N (service c)).2) as [Hhandled _].
  - vm_compute. reflexivity.
  - apply surjective_pairing.
  - intros l Hl. vm_compute in Hl. injection Hl as <-. discriminate.
  - rewrite Hhandled. cbn [fst snd calls]. split; [reflexivity|].
    rewrite count_app. cbn. lia.
Defined.

Lemma backoff_law_witness :
  let c := sample_System "log_only" "" [] [] [] in
  ∃ evs a,
    calls (handleSendError sample_Notification (errorString "timeout") c).2
      = calls c ++ evs ∧
    evs = [CallPublishRetry (set_Attempts 1 sample_Notification) (10 * Second); a] ∧
    10 * Second ≠ 5 * Second.
Proof.
  cbv zeta.
  destruct (backoff_law sample_Notification (errorString "timeout")
              (sample_System "log_only" "" [] [] []))
    as (evs & Hcalls & Hretry & Hnever).
  destruct Hretry as [a Ha]; [cbn; lia|].
  exists evs, a. split; [exact Hcalls|]. split; [exact Ha|].
  apply (Hnever ltac:(cbn; lia) eq_refl (set_Attempts 1 sample_Notification)).
  rewrite Ha. apply elem_of_cons. by left.
Defined.

Lemma publish_delay_witness :
  let q := {| waitQueue := []; retryQueue := []; notificationsQueue := [];
              amqp_faults := [] |} in
  RabbitMQQueue_Publish 1000 sample_Notification q =
    PublishWithContext WaitExchange "" false false
      {| ContentType := "application/json"; Body := sample_body;
         DeliveryMode := Persistent; Expiration := "0" |} q.
Proof.
  cbv zeta.
  destruct (publish_delay 1000 sample_Notification
              {| waitQueue := []; retryQueue := []; notificationsQueue := [];
                 amqp_faults := [] |} sample_body) as [Hpub _].
  - vm_compute. reflexivity.
  - exact Hpub.
Defined.

Lemma cache_failures_never_surfaced_witness :
  let r := repo (service (sample_run [sample_Create]
                            (sample_System "log_only" "" [refused] [] []))) in
  (Cached_Update (set_Status StatusSent sample_Notification) r).1 = None ∧
  (Cached_Delete 7%N r).1 = None ∧
  (Cached_GetByID 8%N r).1 = Err ErrNotFound.
Proof.
  cbv zeta.
  set (r := repo (service (sample_run [sample_Create]
                             (sample_System "log_only" "" [refused] [] [])))).
  destruct (cache_failures_never_surfaced r) as (_ & Hupdate & Hdelete & Hget).
  split; [|split].
  - eapply Hupdate. vm_compute. reflexivity.
  - eapply Hdelete. vm_compute. reflexivity.
  - erewrite Hget; [|vm_compute; reflexivity]. vm_compute. reflexivity.
Defined.

Lemma cache_coherence_on_write_witness :
  let r := repo (service (sample_run [sample_Create]
                            (sample_System "log_only" "" [] [] []))) in
  (cache_Get 7%N (cache (Cached_Update (set_Status StatusSent sample_Notification) r).2)).1
    = Err ErrNotFound.
Proof.
  cbv zeta.
  set (r := repo (service (sample_run [sample_Create]
                             (sample_System "log_only" "" [] [] [])))).
  set (n := set_Status StatusSent sample_Notification).
  destruct (cache_coherence_on_write r (Cached_Update n r).2) as [Hupdate _];
    [reflexivity|].
  destruct (Hupdate n) as [_ Hmiss]; [vm_compute; reflexivity|].
  apply Hmiss. reflexivity.
Defined.

Lemma cancel_precondition_witness :
  let s := service (sample_run [sample_Create] (sample_System "log_only" "" [] [] [])) in
  (Handlers_CancelNotification "7" s).1 = StatusNoContent.
Proof.
  cbv zeta.
  set (s := service (sample_run [sample_Create] (sample_System "log_only" "" [] [] []))).
  destruct (cancel_precondition "7" 7%N s sample_Notification
              (GetNotificationByID 7%N s).2) as (_ & _ & Hscheduled).
  - reflexivity.
  - vm_compute. reflexivity.
  - destruct (Hscheduled eq_refl) as (_ & _ & Hok). apply Hok.
    vm_compute. reflexivity.
Defined.

Lemma json_round_trip_witness :
  json_Marshal sample_Notification = Ok sample_body ∧
  json_Unmarshal sample_body = Ok sample_Notification.
Proof.
  destruct (json_round_trip sample_Notification) as [Hback Htotal];
    [split; reflexivity|].
  assert (Hbody : json_Marshal sample_Notification = Ok sample_body)
    by (vm_compute; reflexivity).
  split; [exact Hbody|]. apply Hback, Hbody.
Defined.

Lemma dispatcher_total_witness :
  ∃ notifier,
    notifiers (sample_Dispatcher "production" "") !! ChannelTelegram = Some notifier ∧
    notifier = logNotifier.
Proof.
  destruct (dispatcher_total sample_newBotAPI (sample_Config "production" "")
              (sample_Dispatcher "production" "") sample_Notification
              {| smtp_delivered := []; telegram_delivered := [];
                 smtp_faults := []; telegram_faults := [] |})
    as ((notifier & Hfound & _) & _ & Hfallback); [reflexivity | by right |].
  exists notifier. split; [exact Hfound|].
  assert (Hlog : notifiers (sample_Dispatcher "production" "") !! ChannelTelegram
                 = Some logNotifier) by (apply Hfallback; by right).
  change (Channel sample_Notification) with ChannelTelegram in Hfound.
  rewrite Hfound in Hlog. by injection Hlog.
Defined.
End Samples.

(** * More of the code *)

(** ** The record store on its own *)

(** The next round trip to the database is answered. *)
Definition pg_healthy (pg : Postgres) : Prop :=
  (next_fault (pg_faults pg)).1 = None.

(** The row that [CreateNotification] inserts for the parameters [p] under
    the identifier [id] at server time [now]. *)
Definition inserted_row (id : UUID) (now : Time) (p : CreateNotificationParams)
    : db_Notification := {|
  db_ID := id;
  db_Subject := cp_Subject p;
  db_Message := cp_Message p;
  db_AuthorID := cp_AuthorID p;
  db_EmailTo := cp_EmailTo p;
  db_TelegramChatID := cp_TelegramChatID p;
  db_Channel := cp_Channel p;
  db_Status := cp_Status p;
  db_Attempts := cp_Attempts p;
  db_ScheduledAt := timestamptz (cp_ScheduledAt p);
  db_SentAt := None;
  db_CreatedAt := now;
  db_UpdatedAt := now |}.

Lemma pg_begin_spec (pg : Postgres) :
  (pg_begin pg).1 = (next_fault (pg_faults pg)).1 ∧
  rows (pg_begin pg).2 = rows pg ∧
  pg_now (pg_begin pg).2 = pg_now pg ∧
  pg_random (pg_begin pg).2 = pg_random pg ∧
  pg_faults (pg_begin pg).2 = (next_fault (pg_faults pg)).2.
Proof. unfold pg_begin. by destruct (next_fault (pg_faults pg)). Qed.

Lemma pg_gen_random_uuid_spec (pg : Postgres) :
  rows (pg_gen_random_uuid pg).2 = rows pg ∧
  pg_now (pg_gen_random_uuid pg).2 = pg_now pg ∧
  pg_faults (pg_gen_random_uuid pg).2 = pg_faults pg.
Proof. unfold pg_gen_random_uuid. by destruct (pg_random pg). Qed.

(** A successful [Save], in full. *)
Lemma postgres_Save_Ok (n : Notification) (pg pg' : Postgres) (created : Notification) :
  postgres_Save n pg = (Ok created, pg') →
  ∃ params id,
    toDBCreateParams n = Ok params ∧
    pg_healthy pg ∧
    channel_type (cp_Channel params) = true ∧
    notification_status (cp_Status params) = true ∧
    chk_recipient_channel (cp_Channel params) (cp_EmailTo params)
      (cp_TelegramChatID params) = true ∧
    id = (pg_gen_random_uuid (pg_begin pg).2).1 ∧
    rows pg !! id = None ∧
    rows pg' = <[id := inserted_row id (pg_now pg) params]> (rows pg) ∧
    pg_now pg' = pg_now pg ∧
    pg_faults pg' = (next_fault (pg_faults pg)).2 ∧
    created = domain (inserted_row id (pg_now pg) params).
Proof.
  unfold postgres_Save, pg_healthy.
  destruct (toDBCreateParams n) as [params|err]; [|done].
  unfold db_CreateNotification.
  destruct (pg_begin_spec pg) as (Hf & Hrows & Hnow & Hrand & Hfaults).
  destruct (pg_begin pg) as [[e|] pg1]; cbn in *.
  { destruct e as [|code|]; try done. by destruct (String.eqb code UniqueViolation). }
  destruct (channel_type (cp_Channel params)) eqn:Hch; cbn; [|done].
  destruct (notification_status (cp_Status params)) eqn:Hst; cbn; [|done].
  destruct (chk_recipient_channel _ _ _) eqn:Hchk; cbn; [|done].
  destruct (pg_gen_random_uuid_spec pg1) as (Hrows2 & Hnow2 & Hfaults2).
  destruct (pg_gen_random_uuid pg1) as [id pg2]; cbn in *.
  rewrite Hrows2, Hrows.
  destruct (rows pg !! id) as [dup|] eqn:Hid; cbn; [done|].
  intros [= <- <-]. exists params, id. cbn.
  rewrite ?Hrows2, ?Hrows, ?Hnow2, ?Hnow, ?Hfaults2, ?Hfaults.
  repeat split; done || by symmetry.
Qed.

Lemma toDBCreateParams_fields (n : Notification) (params : CreateNotificationParams) :
  toDBCreateParams n = Ok params →
  cp_Subject params = Subject n ∧ cp_Message params = Message n ∧
  cp_AuthorID params = AuthorID n ∧ cp_Channel params = Channel n ∧
  cp_Status params = Status n ∧ cp_Attempts params = int16 (Attempts n) ∧
  cp_ScheduledAt params = ScheduledAt n ∧
  ((Channel n = ChannelEmail ∧
    ∃ e, Email n = Some e ∧ To e ≠ "" ∧
         cp_EmailTo params = Some (To e) ∧ cp_TelegramChatID params = None) ∨
   (Channel n = ChannelTelegram ∧
    ∃ t, Telegram n = Some t ∧
         cp_EmailTo params = None ∧ cp_TelegramChatID params = Some (ChatID t))).
Proof.
  unfold toDBCreateParams.
  destruct (String.eqb_spec (Channel n) ChannelEmail) as [Hch|Hch].
  - destruct (Email n) as [e|] eqn:He; [|done].
    destruct (String.eqb_spec (To e) "") as [|Hto]; [done|].
    intros [= <-]; cbn. repeat split; try done. left. split; [done|]. by exists e.
  - destruct (String.eqb_spec (Channel n) ChannelTelegram) as [Hch'|]; [|done].
    destruct (Telegram n) as [t|] eqn:Ht; [|done].
    intros [= <-]; cbn. repeat split; try done. right. split; [done|]. by exists t.
Qed.

Lemma postgres_GetByID_found (id : UUID) (pg : Postgres) (row : db_Notification) :
  pg_healthy pg → rows pg !! id = Some row →
  (postgres_GetByID id pg).1 = Ok (domain row).
Proof.
  unfold pg_healthy, postgres_GetByID, db_GetNotificationByID. intros Hh Hrow.
  destruct (pg_begin_spec pg) as (Hf & Hrows & _).
  destruct (pg_begin pg) as [fault pg1]; cbn in *.
  rewrite Hh in Hf. subst fault. by rewrite Hrows, Hrow.
Qed.

(** X1. What [Save] returns is what the table now holds: the record is new
    in the table, it carries the subject, message, channel, status and author
    of the input and the attempts as a 16-bit integer, it has no send time,
    and a [GetByID] of its identifier that the database answers returns
    exactly it.  The identifier is the database's: the one the input carries
    does not matter. *)
Theorem postgres_Save_then_GetByID (n : Notification) (pg pg' : Postgres)
    (created : Notification) :
  postgres_Save n pg = (Ok created, pg') →
  rows pg !! ID created = None ∧
  (∀ u, postgres_Save (set_ID u n) pg = (Ok created, pg')) ∧
  Subject created = Subject n ∧ Message created = Message n ∧
  Channel created = Channel n ∧ Status created = Status n ∧
  AuthorID created = AuthorID n ∧ Attempts created = int16 (Attempts n) ∧
  SentAt created = None ∧ CreatedAt created = pg_now pg ∧
  (pg_healthy pg' → (postgres_GetByID (ID created) pg').1 = Ok created).
Proof.
  intros Hsave.
  assert (Hid : ∀ u, postgres_Save (set_ID u n) pg = (Ok created, pg'))
    by (intros u; by rewrite <- Hsave).
  destruct (postgres_Save_Ok _ _ _ _ Hsave)
    as (params & id & Hparams & _ & _ & _ & _ & _ & Hfresh & Hrows & _ & _ & ->).
  destruct (toDBCreateParams_fields _ _ Hparams)
    as (Hsub & Hmsg & Hauth & Hch & Hst & Hatt & _ & _).
  split; [done|]. split; [done|].
  assert (Hget : pg_healthy pg' →
                 (postgres_GetByID id pg').1 = Ok (domain (inserted_row id (pg_now pg) params))).
  { intros Hh. apply postgres_GetByID_found; [done|].
    rewrite Hrows. apply lookup_insert_eq. }
  unfold domain in *; cbn in *. rewrite Hsub, Hmsg, Hauth, Hch, Hst, Hatt in *.
  by repeat split.
Qed.

(** The recipient that the channel of a notification asks for is missing. *)
Definition recipient_mismatch (n : Notification) : Prop :=
  (Channel n = ChannelEmail ∧
   (Email n = None ∨ ∃ e, Email n = Some e ∧ To e = "")) ∨
  (Channel n = ChannelTelegram ∧ Channel n ≠ ChannelEmail ∧ Telegram n = None) ∨
  (Channel n ≠ ChannelEmail ∧ Channel n ≠ ChannelTelegram).

(** X2. [Save] refuses, before any round trip to the database, exactly the
    notifications whose channel is unknown or whose channel's recipient is
    missing (for email also an empty address): the error is the mapper's and
    the database state, its failure tape included, is untouched. *)
Theorem postgres_Save_rejects (n : Notification) (pg : Postgres) :
  recipient_mismatch n ↔
  ∃ err, toDBCreateParams n = Err err ∧ postgres_Save n pg = (Err err, pg).
Proof.
  unfold recipient_mismatch, postgres_Save, toDBCreateParams. split.
  - intros [[Hch Hrec] | [(Hch & Hne & Hrec) | [Hne1 Hne2]]].
    + rewrite Hch; cbn. destruct Hrec as [-> | (e & -> & ->)]; cbn; eauto.
    + destruct (String.eqb_spec (Channel n) ChannelEmail) as [|_]; [done|].
      rewrite Hch, Hrec; cbn. eauto.
    + destruct (String.eqb_spec (Channel n) ChannelEmail) as [|_]; [done|].
      destruct (String.eqb_spec (Channel n) ChannelTelegram) as [|_]; [done|]. eauto.
  - intros (err & Hparams & _).
    destruct (String.eqb_spec (Channel n) ChannelEmail) as [Hch|Hch].
    + left. split; [done|]. destruct (Email n) as [e|]; [|by left].
      right. exists e. split; [done|].
      by destruct (String.eqb_spec (To e) "").
    + destruct (String.eqb_spec (Channel n) ChannelTelegram) as [Hch'|Hch'].
      * right; left. by destruct (Telegram n).
      * by right; right.
Qed.

(** The record that a row is read as, after a write of the worker's fields. *)
Definition written (status : string) (attempts : Z) (sentAt : option Time)
    (now : Time) (n : Notification) : Notification :=
  set_UpdatedAt now (set_SentAt sentAt (set_Attempts attempts (set_Status status n))).

Lemma postgres_Update_Ok (n : Notification) (pg : Postgres) (old : db_Notification) :
  pg_healthy pg → rows pg !! ID n = Some old → notification_status (Status n) = true →
  ∃ new,
    (postgres_Update n pg).1 = None ∧
    rows (postgres_Update n pg).2 = <[ID n := new]> (rows pg) ∧
    pg_now (postgres_Update n pg).2 = pg_now pg ∧
    pg_faults (postgres_Update n pg).2 = (next_fault (pg_faults pg)).2 ∧
    domain new =
      written (Status n) (int16 (Attempts n)) (timestamptz <$> SentAt n) (pg_now pg)
        (domain old) ∧
    db_EmailTo new = db_EmailTo old ∧ db_TelegramChatID new = db_TelegramChatID old ∧
    db_ID new = db_ID old.
Proof.
  unfold pg_healthy, postgres_Update, db_UpdateNotificationStatus. intros Hh Hold Hst.
  cbn. destruct (pg_begin_spec pg) as (Hf & Hrows & Hnow & _ & Hfaults).
  destruct (pg_begin pg) as [fault pg1]; cbn in *.
  rewrite Hh in Hf. subst fault. rewrite Hst; cbn. rewrite Hrows, Hold; cbn.
  eexists. rewrite ?Hrows, ?Hnow, ?Hfaults. by repeat split.
Qed.

(** X3. An [Update] of an existing record with a status of the enumeration,
    when the database answers, succeeds and rewrites the status, the
    attempts (as a 16-bit integer), the send time and the update time of that
    record and nothing else: every other record is as it was, and a
    following [GetByID] returns the old record with just those four fields
    replaced. *)
Theorem postgres_Update_then_GetByID (n : Notification) (pg : Postgres)
    (old : db_Notification) :
  pg_healthy pg → rows pg !! ID n = Some old → notification_status (Status n) = true →
  (postgres_Update n pg).1 = None ∧
  (∀ id, id ≠ ID n → rows (postgres_Update n pg).2 !! id = rows pg !! id) ∧
  (pg_healthy (postgres_Update n pg).2 →
   (postgres_GetByID (ID n) (postgres_Update n pg).2).1 =
     Ok (written (Status n) (int16 (Attempts n)) (timestamptz <$> SentAt n)
           (pg_now pg) (domain old))).
Proof.
  intros Hh Hold Hst.
  destruct (postgres_Update_Ok n pg old Hh Hold Hst)
    as (new & Hres & Hrows & _ & _ & Hnew & _).
  split; [done|]. split.
  - intros id Hne. rewrite Hrows. by apply lookup_insert_ne.
  - intros Hh'. rewrite <- Hnew. apply postgres_GetByID_found; [done|].
    rewrite Hrows. apply lookup_insert_eq.
Qed.

Lemma postgres_Delete_Ok (id : UUID) (pg : Postgres) (old : db_Notification) :
  pg_healthy pg → rows pg !! id = Some old →
  ∃ new,
    (postgres_Delete id pg).1 = None ∧
    rows (postgres_Delete id pg).2 = <[id := new]> (rows pg) ∧
    domain new = set_UpdatedAt (pg_now pg) (set_Status StatusCancelled (domain old)) ∧
    db_EmailTo new = db_EmailTo old ∧ db_TelegramChatID new = db_TelegramChatID old ∧
    db_ID new = db_ID old.
Proof.
  unfold pg_healthy, postgres_Delete, db_CancelNotification. intros Hh Hold.
  destruct (pg_begin_spec pg) as (Hf & Hrows & Hnow & _ & Hfaults).
  destruct (pg_begin pg) as [fault pg1]; cbn in *.
  rewrite Hh in Hf. subst fault. rewrite Hrows, Hold; cbn.
  eexists. rewrite ?Hrows, ?Hnow. by repeat split.
Qed.

(** X4. When the database answers, [GetByID] returns [ErrNotFound] exactly
    for the identifiers the table does not hold; for such an identifier
    [Delete] returns [ErrNotFound] too, [Update] fails (with [ErrNotFound]
    when its status is one of the enumeration), and neither writes
    anything. *)
Theorem postgres_not_found (n : Notification) (pg : Postgres) :
  pg_healthy pg →
  ((postgres_GetByID (ID n) pg).1 = Err ErrNotFound ↔ rows pg !! ID n = None) ∧
  (rows pg !! ID n = None →
   (postgres_Delete (ID n) pg).1 = Some ErrNotFound ∧
   rows (postgres_Delete (ID n) pg).2 = rows pg ∧
   (postgres_Update n pg).1 ≠ None ∧
   rows (postgres_Update n pg).2 = rows pg ∧
   (notification_status (Status n) = true →
    (postgres_Update n pg).1 = Some ErrNotFound)).
Proof.
  intros Hh. split.
  - split.
    + intros Hget. destruct (rows pg !! ID n) as [row|] eqn:Hrow; [|done].
      by rewrite (postgres_GetByID_found _ _ row) in Hget.
    + unfold pg_healthy, postgres_GetByID, db_GetNotificationByID in *. intros Hrow.
      destruct (pg_begin_spec pg) as (Hf & Hrows & _).
      destruct (pg_begin pg) as [fault pg1]; cbn in *.
      rewrite Hh in Hf. subst fault. by rewrite Hrows, Hrow.
  - intros Hrow.
    unfold pg_healthy, postgres_Delete, db_CancelNotification, postgres_Update,
      db_UpdateNotificationStatus in *; cbn.
    destruct (pg_begin_spec pg) as (Hf & Hrows & _).
    destruct (pg_begin pg) as [fault pg1]; cbn in *.
    rewrite Hh in Hf. subst fault. rewrite Hrows, Hrow; cbn.
    destruct (notification_status (Status n)); cbn; rewrite ?Hrows, ?Hrow; cbn;
      repeat split; done.
Qed.

(** X5. [Delete] is a soft delete and asks for no prior status: for an
    existing record, whatever its status, when the database answers it
    succeeds, leaves every other record alone, and a following [GetByID]
    returns the same record with status [cancelled] and a new update time;
    the attempts and the send time stay. *)
Theorem postgres_Delete_then_GetByID (id : UUID) (pg : Postgres) (old : db_Notification) :
  pg_healthy pg → rows pg !! id = Some old →
  (postgres_Delete id pg).1 = None ∧
  (∀ id', id' ≠ id → rows (postgres_Delete id pg).2 !! id' = rows pg !! id') ∧
  (pg_healthy (postgres_Delete id pg).2 →
   (postgres_GetByID id (postgres_Delete id pg).2).1 =
     Ok (set_UpdatedAt (pg_now pg) (set_Status StatusCancelled (domain old)))).
Proof.
  intros Hh Hold.
  destruct (postgres_Delete_Ok id pg old Hh Hold) as (new & Hres & Hrows & Hnew & _).
  split; [done|]. split.
  - intros id' Hne. rewrite Hrows. by apply lookup_insert_ne.
  - intros Hh'. rewrite <- Hnew. apply postgres_GetByID_found; [done|].
    rewrite Hrows. apply lookup_insert_eq.
Qed.

(** ** The store under any sequence of calls *)

Inductive StoreOp : Type :=
| OpSave (n : Notification)
| OpGetByID (id : UUID)
| OpUpdate (n : Notification)
| OpDelete (id : UUID).

Definition postgres_apply (pg : Postgres) (op : StoreOp) : Postgres :=
  match op with
  | OpSave n => (postgres_Save n pg).2
  | OpGetByID id => (postgres_GetByID id pg).2
  | OpUpdate n => (postgres_Update n pg).2
  | OpDelete id => (postgres_Delete id pg).2
  end.

Definition postgres_run (ops : list StoreOp) (pg : Postgres) : Postgres :=
  fold_left postgres_apply ops pg.

(** Invariant I1 on a row, with the enumerations of the schema. *)
Definition row_coherent (row : db_Notification) : Prop :=
  notification_status (db_Status row) = true ∧
  ((db_Channel row = ChannelEmail ∧
    (∃ to, db_EmailTo row = Some to ∧ to ≠ "") ∧ db_TelegramChatID row = None) ∨
   (db_Channel row = ChannelTelegram ∧
    db_EmailTo row = None ∧ is_Some (db_TelegramChatID row))).

Definition table_coherent (rs : gmap UUID db_Notification) : Prop :=
  ∀ id row, rs !! id = Some row → db_ID row = id ∧ row_coherent row.

(** The columns that no statement of the repository writes. *)
Definition same_identity (row row' : db_Notification) : Prop :=
  db_ID row' = db_ID row ∧ db_Subject row' = db_Subject row ∧
  db_Message row' = db_Message row ∧ db_AuthorID row' = db_AuthorID row ∧
  db_EmailTo row' = db_EmailTo row ∧ db_TelegramChatID row' = db_TelegramChatID row ∧
  db_Channel row' = db_Channel row ∧ db_ScheduledAt row' = db_ScheduledAt row ∧
  db_CreatedAt row' = db_CreatedAt row.

Lemma same_identity_refl (row : db_Notification) : same_identity row row.
Proof. by repeat split. Qed.

Lemma same_identity_trans (r1 r2 r3 : db_Notification) :
  same_identity r1 r2 → same_identity r2 r3 → same_identity r1 r3.
Proof. unfold same_identity. intros H12 H23. repeat split; intuition congruence. Qed.

(** One call of the repository: what it may do to the table. *)
Lemma postgres_apply_rows (pg : Postgres) (op : StoreOp) :
  rows (postgres_apply pg op) = rows pg ∨
  (∃ id row, rows pg !! id = None ∧
             rows (postgres_apply pg op) = <[id := row]> (rows pg) ∧
             db_ID row = id ∧ row_coherent row) ∨
  (∃ id old new, rows pg !! id = Some old ∧
                 rows (postgres_apply pg op) = <[id := new]> (rows pg) ∧
                 same_identity old new ∧
                 notification_status (db_Status new) = true).
Proof.
  destruct op as [n|id|n|id]; cbn.
  - destruct (postgres_Save n pg) as [[created|err] pg'] eqn:Hsave; cbn.
    + destruct (postgres_Save_Ok _ _ _ _ Hsave)
        as (params & id & Hparams & _ & _ & Hst & _ & _ & Hfresh & Hrows & _).
      destruct (toDBCreateParams_fields _ _ Hparams)
        as (_ & _ & _ & Hch & _ & _ & _ & Hrec).
      right; left. exists id, (inserted_row id (pg_now pg) params).
      split; [done|]. split; [done|]. split; [done|]. split; [done|]. cbn.
      destruct Hrec as [(Hc & e & _ & Hne & -> & ->) | (Hc & t & _ & -> & ->)].
      * left. rewrite Hch. split; [done|]. split; [|done]. by exists (To e).
      * right. rewrite Hch. by repeat split.
    + left. unfold postgres_Save in *.
      destruct (toDBCreateParams n) as [params|e]; [|by injection Hsave as _ <-].
      unfold db_CreateNotification in *.
      destruct (pg_begin_spec pg) as (_ & Hrows & _).
      destruct (pg_begin pg) as [[e|] pg1]; cbn in *.
      { destruct e as [|code|]; try (by injection Hsave as _ <-).
        destruct (String.eqb code UniqueViolation); by injection Hsave as _ <-. }
      destruct (channel_type (cp_Channel params) && notification_status (cp_Status params));
        cbn in *; [|by injection Hsave as _ <-].
      destruct (chk_recipient_channel _ _ _); cbn in *; [|by injection Hsave as _ <-].
      destruct (pg_gen_random_uuid_spec pg1) as (Hrows2 & _).
      destruct (pg_gen_random_uuid pg1) as [id pg2]; cbn in *.
      destruct (rows pg2 !! id); cbn in *; [|done].
      injection Hsave as _ <-. congruence.
  - left. by destruct (postgres_GetByID_spec id pg).
  - unfold postgres_Update, db_UpdateNotificationStatus in *; cbn in *.
    destruct (pg_begin_spec pg) as (_ & Hrows & _).
    destruct (pg_begin pg) as [[e|] pg1]; cbn in *; [left; by destruct e|].
    destruct (notification_status (Status n)) eqn:Hst; cbn in *; [|by left].
    rewrite Hrows in *.
    destruct (rows pg !! ID n) as [old|] eqn:Hold; cbn in *; [|by left].
    right; right. eexists (ID n), old, _. rewrite ?Hrows.
    split; [done|]. split; [done|]. by repeat split.
  - unfold postgres_Delete, db_CancelNotification; cbn.
    destruct (pg_begin_spec pg) as (_ & Hrows & _).
    destruct (pg_begin pg) as [[e|] pg1]; cbn in *; [left; by destruct e|].
    rewrite Hrows.
    destruct (rows pg !! id) as [old|] eqn:Hold; cbn in *; [|by left].
    right; right. eexists id, old, _. rewrite ?Hrows.
    split; [done|]. split; [done|]. by repeat split.
Qed.

Lemma postgres_apply_coherent (pg : Postgres) (op : StoreOp) :
  table_coherent (rows pg) → table_coherent (rows (postgres_apply pg op)).
Proof.
  intros Hco.
  destruct (postgres_apply_rows pg op)
    as [-> | [(id & row & Hfresh & -> & Hid & Hrow)
             | (id & old & new & Hold & -> & Hsame & Hst)]]; [done| |];
    intros id' row' Hrow'.
  - destruct (decide (id = id')) as [<-|Hne].
    + rewrite lookup_insert_eq in Hrow'. by injection Hrow' as <-.
    + rewrite lookup_insert_ne in Hrow' by done. by apply Hco.
  - destruct (decide (id = id')) as [<-|Hne].
    + rewrite lookup_insert_eq in Hrow'. injection Hrow' as <-.
      destruct (Hco id old Hold) as [Hid [_ Hrec]].
      destruct Hsame as (Hi & _ & _ & _ & He & Ht & Hc & _).
      split; [congruence|]. split; [done|]. by rewrite Hc, He, Ht.
    + rewrite lookup_insert_ne in Hrow' by done. by apply Hco.
Qed.

Lemma postgres_run_coherent (ops : list StoreOp) (pg : Postgres) :
  table_coherent (rows pg) → table_coherent (rows (postgres_run ops pg)).
Proof.
  revert pg. induction ops as [|op ops IH]; intros pg Hco; cbn; [done|].
  apply IH. by apply postgres_apply_coherent.
Qed.

(** X6. Recipient and channel agree at every read: start from an empty table
    and make any calls of the repository, with any failures of the database; then a
    record that [GetByID] returns carries the identifier asked for, a status
    of the enumeration, and exactly the recipient of its channel (a
    non-empty address and no chat for email, a chat and no address for
    telegram). *)
Theorem recipient_coherence_at_every_read (ops : list StoreOp) (pg : Postgres)
    (id : UUID) (n : Notification) :
  rows pg = ∅ →
  (postgres_GetByID id (postgres_run ops pg)).1 = Ok n →
  ID n = id ∧
  notification_status (Status n) = true ∧
  ((Channel n = ChannelEmail ∧ (∃ to, Email n = Some {| To := to |} ∧ to ≠ "")
    ∧ Telegram n = None) ∨
   (Channel n = ChannelTelegram ∧ Email n = None
    ∧ ∃ chat, Telegram n = Some {| ChatID := chat |})).
Proof.
  intros Hempty Hget.
  assert (Hco : table_coherent (rows (postgres_run ops pg))).
  { apply postgres_run_coherent. intros id' row. by rewrite Hempty, lookup_empty. }
  destruct (postgres_GetByID_spec id (postgres_run ops pg)) as [_ Hfound].
  destruct (Hfound n Hget) as (row & Hrow & ->).
  destruct (Hco id row Hrow) as (Hid & Hst & Hrec).
  split; [done|]. split; [done|]. unfold domain; cbn.
  destruct Hrec as [(Hc & (to & Hto & Hne) & Hchat) | (Hc & Hto & [chat Hchat])];
    rewrite Hc, Hto, Hchat; cbn.
  - left. split; [done|]. split; [by exists to|done].
  - right. split; [done|]. split; [done|by exists chat].
Qed.

Lemma postgres_apply_keeps (pg : Postgres) (op : StoreOp) (id : UUID)
    (row : db_Notification) :
  rows pg !! id = Some row →
  ∃ row', rows (postgres_apply pg op) !! id = Some row' ∧ same_identity row row'.
Proof.
  intros Hrow.
  destruct (postgres_apply_rows pg op)
    as [-> | [(id' & new & Hfresh & -> & _)
             | (id' & old & new & Hold & -> & Hsame & _)]].
  - exists row. split; [done|apply same_identity_refl].
  - exists row. split; [|apply same_identity_refl].
    rewrite lookup_insert_ne; [done|]. intros ->. by rewrite Hfresh in Hrow.
  - destruct (decide (id' = id)) as [->|Hne].
    + exists new. rewrite lookup_insert_eq. split; [done|]. congruence.
    + exists row. rewrite lookup_insert_ne by done. split; [done|apply same_identity_refl].
Qed.

(** X7. Nothing is ever removed or rewritten beyond the lifecycle fields:
    after any calls of the repository, with any failures, a record that was
    in the table is still there, with the same identifier, subject, message,
    author, channel, recipient, schedule and creation time. *)
Theorem records_are_kept (ops : list StoreOp) (pg : Postgres) (id : UUID)
    (row : db_Notification) :
  rows pg !! id = Some row →
  ∃ row', rows (postgres_run ops pg) !! id = Some row' ∧ same_identity row row'.
Proof.
  revert pg row. induction ops as [|op ops IH]; intros pg row Hrow; cbn.
  { exists row. split; [done|apply same_identity_refl]. }
  destruct (postgres_apply_keeps pg op id row Hrow) as (row1 & Hrow1 & Hsame1).
  destruct (IH _ _ Hrow1) as (row' & Hrow' & Hsame').
  exists row'. split; [done|]. by eapply same_identity_trans.
Qed.

(** ** The cache on its own *)

Section CacheFacts.
Context `{!UUIDText, !TimeJSON}.

Lemma NotificationCache_Set_Ok (n : Notification) (expiration : Duration) (r : Redis) :
  (NotificationCache_Set n expiration r).1 = None →
  ∃ j, json_Marshal n = Ok j ∧
       redis_data (NotificationCache_Set n expiration r).2 =
         <[RedisNotificationKeyBuild (ID n) := j]> (redis_data r) ∧
       redis_get_faults (NotificationCache_Set n expiration r).2 = redis_get_faults r.
Proof.
  unfold NotificationCache_Set, redis_SET.
  destruct (json_Marshal n) as [j|err]; [|done].
  destruct (next_fault (redis_set_faults r)) as [[e|] rest]; cbn; [done|].
  intros _. by exists j.
Qed.

Lemma NotificationCache_Get_hit (id : UUID) (r : Redis) (j : json) (n : Notification) :
  get_answered r → redis_data r !! RedisNotificationKeyBuild id = Some j →
  json_Unmarshal j = Ok n →
  (NotificationCache_Get id r).1 = Ok n ∧
  redis_data (NotificationCache_Get id r).2 = redis_data r.
Proof.
  unfold get_answered, NotificationCache_Get, redis_GET. intros Hh Hj Hn.
  destruct (next_fault (redis_get_faults r)) as [fault rest]; cbn in *. subst fault.
  by rewrite Hj, Hn.
Qed.

(** What a [Get] returns is decided by the failure tape of the reads and by
    the value under the key of the identifier. *)
Lemma NotificationCache_Get_depends (id : UUID) (r r' : Redis) :
  redis_get_faults r' = redis_get_faults r →
  redis_data r' !! RedisNotificationKeyBuild id
    = redis_data r !! RedisNotificationKeyBuild id →
  (NotificationCache_Get id r').1 = (NotificationCache_Get id r).1.
Proof.
  unfold NotificationCache_Get, redis_GET. intros -> ->.
  destruct (next_fault (redis_get_faults r)) as [[e|] rest]; cbn; [done|].
  destruct (redis_data r !! RedisNotificationKeyBuild id) as [j|]; [|done].
  by destruct (json_Unmarshal j).
Qed.

(** X8. The cache gives back what it was given: after a [Set] that
    succeeded, a [Get] of the notification's identifier that Redis answers
    returns the notification itself, whatever the key held before. *)
Theorem cache_Set_then_Get (n : Notification) (expiration : Duration) (r : Redis) :
  wf_Notification n →
  (NotificationCache_Set n expiration r).1 = None →
  get_answered (NotificationCache_Set n expiration r).2 →
  (NotificationCache_Get (ID n) (NotificationCache_Set n expiration r).2).1 = Ok n.
Proof.
  intros Hwf Hset Hget.
  destruct (NotificationCache_Set_Ok n expiration r Hset) as (j & Hj & Hdata & _).
  apply (NotificationCache_Get_hit _ _ j); [done| |by apply json_Unmarshal_Marshal].
  rewrite Hdata. apply lookup_insert_eq.
Qed.

(** X9. Entries do not interfere: a [Set] or a [Delete] for one identifier,
    whether it succeeds or fails, leaves the answer to a [Get] of every
    other identifier as it was. *)
Theorem cache_entries_are_independent (n : Notification) (expiration : Duration)
    (id : UUID) (r : Redis) :
  id ≠ ID n →
  (NotificationCache_Get id (NotificationCache_Set n expiration r).2).1
    = (NotificationCache_Get id r).1 ∧
  (NotificationCache_Get id (NotificationCache_Delete (ID n) r).2).1
    = (NotificationCache_Get id r).1.
Proof.
  intros Hne.
  assert (Hkey : RedisNotificationKeyBuild (ID n) ≠ RedisNotificationKeyBuild id).
  { intros Heq. by apply RedisNotificationKeyBuild_inj in Heq. }
  split; apply NotificationCache_Get_depends.
  - unfold NotificationCache_Set, redis_SET.
    destruct (json_Marshal n); [|done].
    by destruct (next_fault (redis_set_faults r)) as [[e|] rest].
  - unfold NotificationCache_Set, redis_SET.
    destruct (json_Marshal n); [|done].
    destruct (next_fault (redis_set_faults r)) as [[e|] rest]; cbn; [done|].
    by apply lookup_insert_ne.
  - unfold NotificationCache_Delete, redis_DEL.
    by destruct (next_fault (redis_del_faults r)) as [[e|] rest].
  - unfold NotificationCache_Delete, redis_DEL.
    destruct (next_fault (redis_del_faults r)) as [[e|] rest]; cbn; [done|].
    by apply lookup_delete_ne.
Qed.
End CacheFacts.

(** ** The cached store: what is read after what was written *)

Section ReadThrough.
Context {R : Type} `{!NotificationRepository R}.
Context `{!UUIDText, !TimeJSON}.
Implicit Types r : CachedNotificationRepository R Redis.

Lemma Cached_GetByID_hit (id : UUID) r (j : json) (n : Notification) :
  get_answered (cache r) →
  redis_data (cache r) !! RedisNotificationKeyBuild id = Some j →
  json_Unmarshal j = Ok n →
  (Cached_GetByID id r).1 = Ok n ∧
  primaryRepo (Cached_GetByID id r).2 = primaryRepo r.
Proof.
  intros Hh Hj Hn. unfold Cached_GetByID.
  change (cache_Get id (cache r)) with (NotificationCache_Get id (cache r)).
  destruct (NotificationCache_Get_hit id (cache r) j n Hh Hj Hn) as [Hres _].
  destruct (NotificationCache_Get id (cache r)) as [res c]; cbn in *. by subst res.
Qed.

(** X10. Read-through: when [GetByID] does not find the record in the cache
    (a miss or a failed [Get]), finds it in the primary store and the cache
    accepts it, the next [GetByID] of that identifier that Redis answers
    returns the same record out of the cache and does not call the primary
    store. *)
Theorem read_through (id : UUID) r (e : error) (c1 : Redis) (n : Notification) (p1 : R) :
  cache_Get id (cache r) = (Err e, c1) →
  repo_GetByID id (primaryRepo r) = (Ok n, p1) →
  wf_Notification n → ID n = id →
  (cache_Set n (ttl r) c1).1 = None →
  let r1 := (Cached_GetByID id r).2 in
  (Cached_GetByID id r).1 = Ok n ∧
  primaryRepo r1 = p1 ∧
  (get_answered (cache r1) →
   (Cached_GetByID id r1).1 = Ok n ∧ primaryRepo (Cached_GetByID id r1).2 = p1).
Proof.
  intros Hmiss Hprimary Hwf Hid Hset. cbn zeta.
  change (cache_Set n (ttl r) c1) with (NotificationCache_Set n (ttl r) c1) in Hset.
  destruct (NotificationCache_Set_Ok n (ttl r) c1 Hset) as (j & Hj & Hdata & _).
  assert (Hfirst : Cached_GetByID id r
                   = (Ok n, {| primaryRepo := p1;
                               cache := (NotificationCache_Set n (ttl r) c1).2;
                               ttl := ttl r |})).
  { unfold Cached_GetByID. rewrite Hmiss; cbn. rewrite Hprimary; cbn.
    change (cache_Set n (ttl r) c1) with (NotificationCache_Set n (ttl r) c1).
    by destruct (NotificationCache_Set n (ttl r) c1). }
  rewrite Hfirst; cbn. split; [done|]. split; [done|]. intros Hh.
  match goal with |- context [Cached_GetByID id ?x] =>
    apply (Cached_GetByID_hit id x j n) end;
    cbn; [done| |by apply json_Unmarshal_Marshal].
  rewrite Hdata, <- Hid. apply lookup_insert_eq.
Qed.

(** X11. [Save] warms the cache: when the primary store saved the record
    and the cache accepted it, a [GetByID] of the saved record's identifier
    that Redis answers returns the record as saved and does not call the
    primary store. *)
Theorem Save_warms_the_cache (n : Notification) r (created : Notification) (p1 : R) :
  repo_Save n (primaryRepo r) = (Ok created, p1) →
  wf_Notification created →
  (cache_Set created (ttl r) (cache r)).1 = None →
  let r1 := (Cached_Save n r).2 in
  (Cached_Save n r).1 = Ok created ∧
  (get_answered (cache r1) →
   (Cached_GetByID (ID created) r1).1 = Ok created ∧
   primaryRepo (Cached_GetByID (ID created) r1).2 = p1).
Proof.
  intros Hsave Hwf Hset. cbn zeta.
  change (cache_Set created (ttl r) (cache r))
    with (NotificationCache_Set created (ttl r) (cache r)) in Hset.
  destruct (NotificationCache_Set_Ok created (ttl r) (cache r) Hset)
    as (j & Hj & Hdata & _).
  assert (Hfirst : Cached_Save n r
                   = (Ok created,
                      {| primaryRepo := p1;
                         cache := (NotificationCache_Set created (ttl r) (cache r)).2;
                         ttl := ttl r |})).
  { unfold Cached_Save. rewrite Hsave; cbn.
    change (cache_Set created (ttl r) (cache r))
      with (NotificationCache_Set created (ttl r) (cache r)).
    by destruct (NotificationCache_Set created (ttl r) (cache r)). }
  rewrite Hfirst; cbn. split; [done|]. intros Hh.
  match goal with |- context [Cached_GetByID _ ?x] =>
    apply (Cached_GetByID_hit (ID created) x j created) end;
    cbn; [done| |by apply json_Unmarshal_Marshal].
  rewrite Hdata. apply lookup_insert_eq.
Qed.
End ReadThrough.

(** ** From the publisher to the worker *)

Lemma expire_wait_all (b : Broker) :
  let b' := Nat.iter (length (waitQueue b)) expire_wait b in
  waitQueue b' = [] ∧
  notificationsQueue b' = notificationsQueue b ++ (dead_letter <$> waitQueue b) ∧
  retryQueue b' = retryQueue b.
Proof.
  cbn zeta. remember (length (waitQueue b)) as k eqn:Hk.
  revert b Hk. induction k as [|k IH]; intros b Hk.
  - destruct (waitQueue b) eqn:Hw; [|done]. cbn. by rewrite Hw, app_nil_r.
  - destruct (waitQueue b) as [|m rest] eqn:Hw; [done|].
    rewrite Nat.iter_succ_r.
    assert (Hstep : expire_wait b =
                    {| waitQueue := rest; retryQueue := retryQueue b;
                       notificationsQueue := notificationsQueue b ++ [dead_letter m];
                       amqp_faults := amqp_faults b |}).
    { unfold expire_wait. by rewrite Hw. }
    rewrite Hstep.
    match goal with |- context [Nat.iter k expire_wait ?x] =>
      destruct (IH x) as (H1 & H2 & H3) end.
    { cbn in *. by injection Hk. }
    cbn in *. rewrite H1, H2, H3. by rewrite <- app_assoc.
Qed.

Lemma expire_retry_all (b : Broker) :
  let b' := Nat.iter (length (retryQueue b)) expire_retry b in
  retryQueue b' = [] ∧
  notificationsQueue b' = notificationsQueue b ++ (dead_letter <$> retryQueue b) ∧
  waitQueue b' = waitQueue b.
Proof.
  cbn zeta. remember (length (retryQueue b)) as k eqn:Hk.
  revert b Hk. induction k as [|k IH]; intros b Hk.
  - destruct (retryQueue b) eqn:Hw; [|done]. cbn. by rewrite Hw, app_nil_r.
  - destruct (retryQueue b) as [|m rest] eqn:Hw; [done|].
    rewrite Nat.iter_succ_r.
    assert (Hstep : expire_retry b =
                    {| waitQueue := waitQueue b; retryQueue := rest;
                       notificationsQueue := notificationsQueue b ++ [dead_letter m];
                       amqp_faults := amqp_faults b |}).
    { unfold expire_retry. by rewrite Hw. }
    rewrite Hstep.
    match goal with |- context [Nat.iter k expire_retry ?x] =>
      destruct (IH x) as (H1 & H2 & H3) end.
    { cbn in *. by injection Hk. }
    cbn in *. rewrite H1, H2, H3. by rewrite <- app_assoc.
Qed.

Section Delivery.
Context `{!UUIDText, !TimeJSON}.

Lemma RabbitMQQueue_Publish_Ok (now : Time) (n : Notification) (q : Broker) :
  (RabbitMQQueue_Publish now n q).1 = None →
  ∃ m, json_Marshal n = Ok (Body m) ∧
       waitQueue (RabbitMQQueue_Publish now n q).2 = waitQueue q ++ [m] ∧
       retryQueue (RabbitMQQueue_Publish now n q).2 = retryQueue q ∧
       notificationsQueue (RabbitMQQueue_Publish now n q).2 = notificationsQueue q.
Proof.
  unfold RabbitMQQueue_Publish.
  destruct (json_Marshal n) as [body|err]; [|done].
  unfold PublishWithContext.
  destruct (next_fault (amqp_faults q)) as [[e|] rest]; cbn; [done|].
  intros _. by eexists {| Body := body |}.
Qed.

(** X12. What is published is what the worker receives.  A notification that
    [Publish] handed to the broker reaches the ready queue once the messages
    of the wait queue have expired, behind those published before it, and
    the body delivered decodes to the notification published; likewise for
    [PublishRetry] and the retry queue. *)
Theorem published_is_delivered (now : Time) (n : Notification) (d : Duration)
    (q : Broker) :
  wf_Notification n →
  ((RabbitMQQueue_Publish now n q).1 = None →
   let q' := Nat.iter (S (length (waitQueue q))) expire_wait
               (RabbitMQQueue_Publish now n q).2 in
   ∃ m, notificationsQueue q' =
          notificationsQueue q ++ (dead_letter <$> waitQueue q) ++ [m] ∧
        json_Unmarshal (Body m) = Ok n ∧ waitQueue q' = []) ∧
  ((RabbitMQQueue_PublishRetry n d q).1 = None →
   let q' := Nat.iter (S (length (retryQueue q))) expire_retry
               (RabbitMQQueue_PublishRetry n d q).2 in
   ∃ m, notificationsQueue q' =
          notificationsQueue q ++ (dead_letter <$> retryQueue q) ++ [m] ∧
        json_Unmarshal (Body m) = Ok n ∧ retryQueue q' = []).
Proof.
  intros Hwf. split.
  - intros Hok. cbn zeta.
    destruct (RabbitMQQueue_Publish_Ok now n q Hok) as (m & Hm & Hw & _ & Hq).
    pose proof (expire_wait_all (RabbitMQQueue_Publish now n q).2) as Hall.
    cbn zeta in Hall. rewrite Hw, length_app in Hall.
    change (length [m]) with 1%nat in Hall. rewrite Nat.add_1_r in Hall.
    destruct Hall as (H1 & H2 & _).
    exists (dead_letter m). rewrite H2, Hq, fmap_app. cbn.
    split; [done|]. split; [|done].
    apply json_Unmarshal_Marshal; [done|]. by rewrite Hm.
  - intros Hok. cbn zeta.
    pose proof (RabbitMQQueue_PublishRetry_spec n d q) as Hspec. cbn zeta in Hspec.
    destruct Hspec as (_ & Hq & Hr). rewrite Hok in Hr. destruct Hr as (m & Hm & Hr).
    pose proof (expire_retry_all (RabbitMQQueue_PublishRetry n d q).2) as Hall.
    cbn zeta in Hall. rewrite Hr, length_app in Hall.
    change (length [m]) with 1%nat in Hall. rewrite Nat.add_1_r in Hall.
    destruct Hall as (H1 & H2 & _).
    exists (dead_letter m). rewrite H2, Hq, fmap_app. cbn.
    split; [done|]. split; [|done].
    apply json_Unmarshal_Marshal; [done|]. by rewrite Hm.
Qed.
End Delivery.

(** ** The service: creating a notification *)

Section CreateFacts.
Context {R Q : Type} `{!NotificationRepository R, !NotificationQueue Q}.
Variable mail_ParseAddress : string → option error.

(** The requests that the validation of [CreateNotification] refuses. *)
Definition invalid_request (recipient channel : string) : Prop :=
  (channel = ChannelEmail ∧ mail_ParseAddress recipient ≠ None) ∨
  (channel = ChannelTelegram ∧ is_Ok (strconv_ParseInt recipient) = false) ∨
  (channel ≠ ChannelEmail ∧ channel ≠ ChannelTelegram).

(** The record that [CreateNotification] builds for a request it accepts. *)
Definition built (id : UUID) (now : Time) (recipient channel subject message : string)
    (scheduledAt : Time) (authorID : option string) (n : Notification) : Prop :=
  (channel = ChannelEmail ∧ mail_ParseAddress recipient = None ∧
   n = NewEmailNotification id now recipient subject message scheduledAt authorID) ∨
  (channel = ChannelTelegram ∧
   ∃ chatID, strconv_ParseInt recipient = Ok chatID ∧
             n = NewTelegramNotification id now chatID subject message scheduledAt
                   authorID).

(** The four ways out of [CreateNotification]. *)
Lemma CreateNotification_cases (id : UUID) (now : Time)
    (recipient channel subject message : string) (scheduledAt : Time)
    (authorID : option string) (s : NotificationService R Q) :
  let r := CreateNotification mail_ParseAddress id now recipient channel subject
             message scheduledAt authorID s in
  (invalid_request recipient channel ∧ ∃ err, r = (Err err, s)) ∨
  (∃ n, built id now recipient channel subject message scheduledAt authorID n ∧
     ((∃ err r1, repo_Save n (repo s) = (Err err, r1) ∧
                 r = (Err err, {| repo := r1; queue := queue s |})) ∨
      (∃ created r1, repo_Save n (repo s) = (Ok created, r1) ∧
         ((∃ e q1, queue_Publish now created (queue s) = (Some e, q1) ∧
                   r = (Err (wrapError "failed to schedule notification" e),
                        {| repo := r1; queue := q1 |})) ∨
          (∃ q1, queue_Publish now created (queue s) = (None, q1) ∧
                 r = (Ok created, {| repo := r1; queue := q1 |})))))).
Proof.
  cbn zeta. unfold CreateNotification, invalid_request, built.
  destruct (String.eqb_spec channel ChannelEmail) as [->|Hne].
  - destruct (mail_ParseAddress recipient) as [err|] eqn:Hm.
    { left. split; [by left|]. by eexists. }
    right. eexists. split; [by left|].
    destruct (repo_Save _ (repo s)) as [[created|err] r1].
    + right. exists created, r1. split; [done|]. cbn.
      destruct (queue_Publish now created (queue s)) as [[e|] q1].
      * left. by exists e, q1.
      * right. by exists q1.
    + left. by exists err, r1.
  - destruct (String.eqb_spec channel ChannelTelegram) as [->|Hnt].
    + destruct (strconv_ParseInt recipient) as [chatID|err] eqn:Hp.
      2:{ left. split; [right; by left|]. by eexists. }
      right. eexists. split; [right; split; [done|]; by exists chatID|].
      destruct (repo_Save _ (repo s)) as [[created|err] r1].
      * right. exists created, r1. split; [done|]. cbn.
        destruct (queue_Publish now created (queue s)) as [[e|] q1].
        -- left. by exists e, q1.
        -- right. by exists q1.
      * left. by exists err, r1.
    + left. split; [by right; right|]. by eexists.
Qed.

(** X13. A request that does not pass the validation (an address that
    [mail.ParseAddress] refuses, a chat id that is not a decimal 64-bit
    integer, a channel other than email and telegram) is answered with an
    error before the store or the queue is called: both are left as they
    were. *)
Theorem CreateNotification_rejects (id : UUID) (now : Time)
    (recipient channel subject message : string) (scheduledAt : Time)
    (authorID : option string) (s : NotificationService R Q) :
  invalid_request recipient channel →
  ∃ err, CreateNotification mail_ParseAddress id now recipient channel subject
           message scheduledAt authorID s = (Err err, s).
Proof.
  intros Hinvalid.
  destruct (CreateNotification_cases id now recipient channel subject message
              scheduledAt authorID s) as [[_ Hr]|(n & Hbuilt & _)]; [done|].
  exfalso. unfold invalid_request, built in *.
  destruct Hbuilt as [(-> & Hm & _)|(-> & chatID & Hp & _)].
  - destruct Hinvalid as [[_ H]|[[H _]|[H _]]]; done.
  - destruct Hinvalid as [[H _]|[[_ H]|[_ H]]]; try done. by rewrite Hp in H.
Qed.
End CreateFacts.

Lemma toDBCreateParams_ID (u : UUID) (n : Notification) :
  toDBCreateParams (set_ID u n) = toDBCreateParams n.
Proof. by destruct n. Qed.

Lemma postgres_Save_ID (u : UUID) (n : Notification) (pg : Postgres) :
  postgres_Save (set_ID u n) pg = postgres_Save n pg.
Proof. unfold postgres_Save. by rewrite toDBCreateParams_ID. Qed.

(** X14. The records that the constructors build fit the table: the store's
    conversion accepts every telegram notification built by
    [NewTelegramNotification], and an email notification built by
    [NewEmailNotification] exactly when its recipient is not the empty
    string. *)
Theorem constructors_are_storable (id : UUID) (now : Time) (chatID : Z)
    (recipient subject message : string) (scheduledAt : Time)
    (authorID : option string) :
  is_Ok (toDBCreateParams (NewTelegramNotification id now chatID subject message
                             scheduledAt authorID)) = true ∧
  (is_Ok (toDBCreateParams (NewEmailNotification id now recipient subject message
                              scheduledAt authorID)) = true ↔ recipient ≠ "").
Proof.
  split; [done|]. unfold toDBCreateParams; cbn.
  destruct (String.eqb_spec recipient "") as [->|Hne]; cbn; split; done.
Qed.

(** The errors of [Save]: the refusal of the conversion, a duplicate, or a
    failure of the query under "postgres: CreateNotification failed". *)
Lemma postgres_Save_error (n : Notification) (pg : Postgres) (e : error) :
  (postgres_Save n pg).1 ≠ Err (wrapError "failed to schedule notification" e).
Proof.
  unfold postgres_Save, toDBCreateParams.
  destruct (String.eqb (Channel n) ChannelEmail).
  { destruct (Email n) as [em|]; [|done]. destruct (String.eqb (To em) ""); [done|].
    destruct (db_CreateNotification _ pg) as [[err|row] pg']; [|done].
    destruct err as [|code|msg]; try done.
    by destruct (String.eqb code UniqueViolation). }
  destruct (String.eqb (Channel n) ChannelTelegram); [|done].
  destruct (Telegram n) as [t|]; [|done].
  destruct (db_CreateNotification _ pg) as [[err|row] pg']; [|done].
  destruct err as [|code|msg]; try done.
  by destruct (String.eqb code UniqueViolation).
Qed.

Section CreateStored.
Context `{!UUIDText, !TimeJSON}.
Variable mail_ParseAddress : string → option error.
Implicit Types s : NotificationService (CachedNotificationRepository Postgres Redis) Broker.

Lemma built_wf (id : UUID) (now : Time) (recipient channel subject message : string)
    (scheduledAt : Time) (authorID : option string) (n : Notification) :
  built mail_ParseAddress id now recipient channel subject message scheduledAt
    authorID n →
  wf_Notification n ∧ Status n = StatusScheduled ∧ Attempts n = 0 ∧
  Channel n = channel ∧ Subject n = subject ∧ Message n = message ∧
  ScheduledAt n = scheduledAt ∧ AuthorID n = authorID.
Proof.
  unfold built. intros [(-> & _ & ->)|(-> & chatID & Hp & ->)]; cbn.
  - by repeat split.
  - split; [|by repeat split]. split; [done|]. cbn. by eapply strconv_ParseInt_range.
Qed.

(** What [Save] of the cached store leaves behind when the primary store
    accepted the record. *)
Lemma Cached_Save_stored (n created : Notification)
    (r r1 : CachedNotificationRepository Postgres Redis) :
  wf_Notification n →
  Cached_Save n r = (Ok created, r1) →
  rows (primaryRepo r) !! ID created = None ∧
  (∃ row, rows (primaryRepo r1) = <[ID created := row]> (rows (primaryRepo r)) ∧
          domain row = created ∧ wf_row row) ∧
  Subject created = Subject n ∧ Message created = Message n ∧
  Channel created = Channel n ∧ Status created = Status n ∧
  AuthorID created = AuthorID n ∧ Attempts created = int16 (Attempts n) ∧
  ScheduledAt created = timestamptz (ScheduledAt n) ∧ SentAt created = None.
Proof.
  intros Hwf. unfold Cached_Save.
  change (repo_Save n (primaryRepo r)) with (postgres_Save n (primaryRepo r)).
  pose proof (postgres_Save_spec n (primaryRepo r) Hwf) as Hspec.
  destruct (postgres_Save n (primaryRepo r)) as [[c|err] pg'] eqn:Hsave; [|done].
  cbn in Hspec. destruct Hspec as (row & Hfresh & Hrows & Hc & Hwfrow).
  destruct (postgres_Save_Ok n (primaryRepo r) pg' c Hsave)
    as (params & id & Hparams & _ & _ & _ & _ & _ & _ & _ & _ & _ & Hc').
  destruct (toDBCreateParams_fields n params Hparams)
    as (Hs & Hm & Ha & Hch & Hst & Hat & Hsc & _).
  match goal with |- context [cache_Set ?x ?y ?z] =>
    destruct (cache_Set x y z) as [e c1] end.
  intros [= <- <-]. cbn.
  assert (Hid : ID c = db_ID row) by by rewrite Hc.
  rewrite Hid. split; [done|]. split; [by exists row|].
  rewrite Hc'. unfold domain; cbn.
  by rewrite Hs, Hm, Ha, Hch, Hst, Hat, Hsc.
Qed.

(** A successful [CreateNotification], in full. *)
Lemma CreateNotification_Ok_spec (id : UUID) (now : Time)
    (recipient channel subject message : string) (scheduledAt : Time)
    (authorID : option string) s (created : Notification) s' :
  CreateNotification mail_ParseAddress id now recipient channel subject message
    scheduledAt authorID s = (Ok created, s') →
  table s !! ID created = None ∧
  (∃ row, table s' = <[ID created := row]> (table s) ∧ domain row = created) ∧
  Status created = StatusScheduled ∧ Attempts created = 0 ∧
  Channel created = channel ∧ Subject created = subject ∧
  Message created = message ∧ AuthorID created = authorID ∧
  ScheduledAt created = timestamptz scheduledAt ∧
  (∃ m, waitQueue (queue s') = waitQueue (queue s) ++ [m] ∧
        json_Unmarshal (Body m) = Ok created) ∧
  retryQueue (queue s') = retryQueue (queue s) ∧
  notificationsQueue (queue s') = notificationsQueue (queue s) ∧
  (∀ id', CreateNotification mail_ParseAddress id' now recipient channel subject
            message scheduledAt authorID s = (Ok created, s')).
Proof.
  intros Hcreate.
  assert (Hid : ∀ id', CreateNotification mail_ParseAddress id' now recipient channel
                         subject message scheduledAt authorID s
                       = CreateNotification mail_ParseAddress id now recipient channel
                           subject message scheduledAt authorID s).
  { intros id'. unfold CreateNotification.
    assert (Hsave : ∀ n, repo_Save (set_ID id' n) (repo s)
                         = repo_Save (set_ID id n) (repo s)).
    { intros n. change (Cached_Save (set_ID id' n) (repo s)
                        = Cached_Save (set_ID id n) (repo s)).
      unfold Cached_Save.
      change (repo_Save ?x (primaryRepo (repo s)))
        with (postgres_Save x (primaryRepo (repo s))).
      by rewrite !postgres_Save_ID. }
    destruct (String.eqb channel ChannelEmail).
    - destruct (mail_ParseAddress recipient); [done|].
      change (NewEmailNotification id' now recipient subject message scheduledAt authorID)
        with (set_ID id' (NewEmailNotification id now recipient subject message
                            scheduledAt authorID)).
      rewrite Hsave. done.
    - destruct (String.eqb channel ChannelTelegram); [|done].
      destruct (strconv_ParseInt recipient) as [chatID|]; [|done].
      change (NewTelegramNotification id' now chatID subject message scheduledAt authorID)
        with (set_ID id' (NewTelegramNotification id now chatID subject message
                            scheduledAt authorID)).
      rewrite Hsave. done. }
  destruct (CreateNotification_cases mail_ParseAddress id now recipient channel subject
              message scheduledAt authorID s) as [[_ [err Hr]]|(n & Hbuilt & Hr)].
  { cbn zeta in Hr. by rewrite Hcreate in Hr. }
  cbn zeta in Hr. rewrite Hcreate in Hr.
  destruct Hr as [(err & r1 & _ & Hr)|(c & r1 & Hsave & Hr)]; [done|].
  destruct Hr as [(e & q1 & _ & Hr)|(q1 & Hpub & Hr)]; [done|].
  injection Hr as <- ->.
  destruct (built_wf _ _ _ _ _ _ _ _ _ Hbuilt)
    as (Hwf & Hst & Hat & Hch & Hsu & Hme & Hsc & Hau).
  destruct (Cached_Save_stored n created (repo s) r1 Hwf Hsave)
    as (Hfresh & (row & Hrows & Hdom & Hwfrow)
        & Hs1 & Hs2 & Hs3 & Hs4 & Hs5 & Hs6 & Hs7 & _).
  split; [done|]. split; [by exists row|].
  rewrite Hs4, Hs6, Hs3, Hs1, Hs2, Hs5, Hs7, Hst, Hat, Hch, Hsu, Hme, Hsc, Hau.
  do 7 (split; [done|]).
  change (queue_Publish now created (queue s))
    with (RabbitMQQueue_Publish now created (queue s)) in Hpub.
  destruct (RabbitMQQueue_Publish_Ok now created (queue s)) as (m & Hm & Hw & Hr & Hq).
  { by rewrite Hpub. }
  rewrite Hpub in Hw, Hr, Hq.
  split; [|split; [done|split; [done|by intros id'; rewrite Hid]]].
  exists m. split; [done|].
  apply json_Unmarshal_Marshal; [|done]. rewrite <- Hdom. by apply wf_domain.
Qed.


(** X15. A notification that [CreateNotification] returns is stored and
    scheduled: its identifier is the one the database generated, new to the
    table (the [uuid.New()] of the constructor is not used); the table gains
    exactly the row of the returned record, with status [scheduled] and no
    attempt, and the wait queue gains one message, whose body decodes to the
    returned record. *)
Theorem CreateNotification_stores_and_schedules (id : UUID) (now : Time)
    (recipient channel subject message : string) (scheduledAt : Time)
    (authorID : option string) s (created : Notification) s' :
  CreateNotification mail_ParseAddress id now recipient channel subject message
    scheduledAt authorID s = (Ok created, s') →
  table s !! ID created = None ∧
  (∃ row, table s' = <[ID created := row]> (table s) ∧ domain row = created) ∧
  Status created = StatusScheduled ∧ Attempts created = 0 ∧
  Channel created = channel ∧ Subject created = subject ∧
  Message created = message ∧ AuthorID created = authorID ∧
  ScheduledAt created = timestamptz scheduledAt ∧
  (∃ m, waitQueue (queue s') = waitQueue (queue s) ++ [m] ∧
        json_Unmarshal (Body m) = Ok created) ∧
  (∀ id', CreateNotification mail_ParseAddress id' now recipient channel subject
            message scheduledAt authorID s = (Ok created, s')).
Proof.
  intros Hcreate.
  destruct (CreateNotification_Ok_spec _ _ _ _ _ _ _ _ _ _ _ Hcreate)
    as (H1 & H2 & H3 & H4 & H5 & H6 & H7 & H8 & H9 & H10 & _ & _ & H11).
  by repeat split.
Qed.

(** X16. When the record was saved and the publication fails,
    [CreateNotification] answers "failed to schedule notification" and the
    save is not undone: the table keeps the new row, with status
    [scheduled], and the broker holds no message for it. *)
Theorem CreateNotification_unscheduled_row (id : UUID) (now : Time)
    (recipient channel subject message : string) (scheduledAt : Time)
    (authorID : option string) s (e : error) s' :
  CreateNotification mail_ParseAddress id now recipient channel subject message
    scheduledAt authorID s
    = (Err (wrapError "failed to schedule notification" e), s') →
  ∃ row, table s !! db_ID row = None ∧
         table s' = <[db_ID row := row]> (table s) ∧
         db_Status row = StatusScheduled ∧ db_Channel row = channel ∧
         in_flight (queue s') = in_flight (queue s).
Proof.
  intros Hcreate.
  destruct (CreateNotification_cases mail_ParseAddress id now recipient channel subject
              message scheduledAt authorID s) as [[Hinv [err Hr]]|(n & Hbuilt & Hr)].
  { exfalso. cbn zeta in Hr. rewrite Hcreate in Hr. injection Hr as <- ->.
    revert Hcreate. unfold CreateNotification, invalid_request in *.
    destruct (String.eqb_spec channel ChannelEmail) as [->|Hne].
    - destruct (mail_ParseAddress recipient); [done|].
      destruct Hinv as [[_ Hi]|[[Hi _]|[Hi _]]]; done.
    - destruct (String.eqb_spec channel ChannelTelegram) as [->|Hnt]; [|done].
      destruct (strconv_ParseInt recipient); [|done].
      destruct Hinv as [[Hi _]|[[_ Hi]|[_ Hi]]]; done. }
  cbn zeta in Hr. rewrite Hcreate in Hr.
  destruct (built_wf _ _ _ _ _ _ _ _ _ Hbuilt)
    as (Hwf & Hst & Hat & Hch & Hsu & Hme & Hsc & Hau).
  destruct Hr as [(err & r1 & Hsave & Hr)|(c & r1 & Hsave & Hr)].
  { exfalso. injection Hr as <- _.
    change (repo_Save n (repo s)) with (Cached_Save n (repo s)) in Hsave.
    pose proof (Cached_Save_result n (repo s)) as Hres. rewrite Hsave in Hres.
    cbn in Hres. symmetry in Hres.
    change (repo_Save n (primaryRepo (repo s)))
      with (postgres_Save n (primaryRepo (repo s))) in Hres.
    by apply postgres_Save_error in Hres. }
  destruct Hr as [(e' & q1 & Hpub & Hr)|(q1 & _ & Hr)]; [|done].
  injection Hr as <- ->.
  destruct (Cached_Save_stored n c (repo s) r1 Hwf Hsave)
    as (Hfresh & (row & Hrows & Hdom & Hwfrow) & _ & _ & Hs3 & Hs4 & _).
  assert (Hid : ID c = db_ID row) by by rewrite <- Hdom.
  exists row. rewrite <- Hid. split; [done|]. split; [done|].
  split; [by rewrite <- Hst, <- Hs4, <- Hdom|].
  split; [by rewrite <- Hch, <- Hs3, <- Hdom|].
  change (queue_Publish now c (queue s))
    with (RabbitMQQueue_Publish now c (queue s)) in Hpub.
  revert Hpub. unfold RabbitMQQueue_Publish, in_flight; cbn.
  destruct (json_Marshal c) as [body|err]; [|by intros [= _ <-]].
  unfold PublishWithContext.
  destruct (next_fault (amqp_faults (queue s))) as [[f|] rest]; cbn; [|done].
  by intros [= _ <-].
Qed.
End CreateStored.

(** ** The HTTP ingress: creating and reading *)

Definition StatusOK : Z := 200.
Definition StatusCreated : Z := 201.

(** The body of [POST /api/v1/notifications] once bound. *)
Record CreateNotificationRequest : Type := {
  req_Recipient : string;
  req_Channel : string;
  req_Subject : string;
  req_Message : string;
  req_ScheduledAt : Time;
  req_AuthorID : option string
}.

Record NotificationResponse : Type := {
  resp_ID : UUID;
  resp_Status : string;
  resp_Channel : string;
  resp_Subject : string;
  resp_ScheduledAt : Time;
  resp_CreatedAt : Time
}.

Definition toNotificationResponse (n : Notification) : NotificationResponse := {|
  resp_ID := ID n;
  resp_Status := Status n;
  resp_Channel := Channel n;
  resp_Subject := Subject n;
  resp_ScheduledAt := ScheduledAt n;
  resp_CreatedAt := CreatedAt n
|}.

Section MoreHandlers.
Context {R Q : Type} `{!NotificationRepository R, !NotificationQueue Q}.
Context `{!UUIDText}.
Variable mail_ParseAddress : string → option error.

(** The handler of [POST /api/v1/notifications].  [bound] is what
    [c.ShouldBindJSON(&req)] returns; the result is the status code of the
    response and, when a notification is returned, its body. *)
Definition Handlers_CreateNotification (id : UUID) (now : Time)
    (bound : result CreateNotificationRequest) (s : NotificationService R Q)
    : (Z * option NotificationResponse) * NotificationService R Q :=
  match bound with
  | Err err => ((StatusBadRequest, None), s)
  | Ok req =>
      match CreateNotification mail_ParseAddress id now (req_Recipient req)
              (req_Channel req) (req_Subject req) (req_Message req)
              (req_ScheduledAt req) (req_AuthorID req) s with
      | (Err err, s) =>
          if errors_Is err ErrDuplicateRecord then ((StatusConflict, None), s)
          else ((StatusInternalServerError, None), s)
      | (Ok notification, s) =>
          ((StatusCreated, Some (toNotificationResponse notification)), s)
      end
  end.

(** The handler of [GET /api/v1/notifications/:id]. *)
Definition Handlers_GetNotificationByID (idStr : string) (s : NotificationService R Q)
    : (Z * option NotificationResponse) * NotificationService R Q :=
  match uuid_Parse idStr with
  | Err err => ((StatusBadRequest, None), s)
  | Ok id =>
      match GetNotificationByID id s with
      | (Err err, s) =>
          if errors_Is err ErrNotFound then ((StatusNotFound, None), s)
          else ((StatusInternalServerError, None), s)
      | (Ok notification, s) =>
          ((StatusOK, Some (toNotificationResponse notification)), s)
      end
  end.

Lemma strconv_ParseInt_error (s0 : string) (err : error) :
  strconv_ParseInt s0 = Err err → ∃ msg, err = errorString msg.
Proof.
  unfold strconv_ParseInt.
  destruct (match s0 with
            | String "+" rest => (false, rest)
            | String "-" rest => (true, rest)
            | _ => (false, s0)
            end) as [neg digits].
  destruct (NilZero.uint_of_string digits) as [u|]; [|intros [= <-]; by eexists].
  destruct (in_int64 (if neg then - Z.of_uint u else Z.of_uint u)); [done|].
  intros [= <-]; by eexists.
Qed.

(** X17. What POST answers.  A body that does not bind is answered 400 and a
    request that the service's validation refuses is answered 500 (it is
    not a client error for the handler), both without a call to the store or
    the queue; 201 is answered exactly when the service returned a
    notification, with its public fields as the body. *)
Theorem create_handler_codes (id : UUID) (now : Time)
    (bound : result CreateNotificationRequest) (s : NotificationService R Q) :
  (∀ recipient e, mail_ParseAddress recipient = Some e →
                  errors_Is e ErrDuplicateRecord = false) →
  let r := Handlers_CreateNotification id now bound s in
  (is_Ok bound = false → r = ((StatusBadRequest, None), s)) ∧
  (∀ req, bound = Ok req →
     let created := (CreateNotification mail_ParseAddress id now (req_Recipient req)
                       (req_Channel req) (req_Subject req) (req_Message req)
                       (req_ScheduledAt req) (req_AuthorID req) s).1 in
     (invalid_request mail_ParseAddress (req_Recipient req) (req_Channel req) →
      r = ((StatusInternalServerError, None), s)) ∧
     (r.1.1 = StatusCreated ↔ is_Ok created = true) ∧
     (∀ n, created = Ok n → r.1.2 = Some (toNotificationResponse n))).
Proof.
  intros Hmail. cbn zeta. split; [by destruct bound|].
  intros req ->. unfold Handlers_CreateNotification. split; [|split].
  - intros Hinv. unfold CreateNotification, invalid_request in *.
    destruct (String.eqb_spec (req_Channel req) ChannelEmail) as [Hc|Hne].
    + destruct (mail_ParseAddress (req_Recipient req)) as [e|] eqn:Hm.
      * cbn. by rewrite (Hmail _ _ Hm).
      * exfalso. rewrite Hc in Hinv.
        destruct Hinv as [[_ Hi]|[[Hi _]|[Hi _]]]; done.
    + destruct (String.eqb_spec (req_Channel req) ChannelTelegram) as [Hc|Hnt]; [|done].
      destruct (strconv_ParseInt (req_Recipient req)) as [chatID|err] eqn:Hp.
      * exfalso. rewrite Hc in Hinv.
        destruct Hinv as [[Hi _]|[[_ Hi]|[_ Hi]]]; done.
      * destruct (strconv_ParseInt_error _ _ Hp) as [msg ->]. done.
  - destruct (CreateNotification _ _ _ _ _ _ _ _ _ s) as [[n|err] s1]; cbn; [done|].
    by destruct (errors_Is err ErrDuplicateRecord).
  - intros n.
    destruct (CreateNotification _ _ _ _ _ _ _ _ _ s) as [[n'|err] s1]; cbn; [|done].
    by intros [= ->].
Qed.
End MoreHandlers.

Lemma postgres_GetByID_absent (id : UUID) (pg : Postgres) :
  pg_healthy pg → rows pg !! id = None →
  (postgres_GetByID id pg).1 = Err ErrNotFound.
Proof.
  unfold pg_healthy, postgres_GetByID, db_GetNotificationByID. intros Hh Hrow.
  destruct (pg_begin_spec pg) as (Hf & Hrows & _).
  destruct (pg_begin pg) as [fault pg1]; cbn in *.
  rewrite Hh in Hf. subst fault. by rewrite Hrows, Hrow.
Qed.

Section ReadStored.
Context {Q : Type} `{!NotificationQueue Q}.
Context `{!UUIDText, !TimeJSON}.
Implicit Types s : NotificationService (CachedNotificationRepository Postgres Redis) Q.

(** A read through the cached store when the database answers. *)
Lemma GetNotificationByID_healthy (id : UUID) s :
  store_inv (repo s) → pg_healthy (primaryRepo (repo s)) →
  match table s !! id with
  | None => (GetNotificationByID id s).1 = Err ErrNotFound
  | Some row => ∃ n, (GetNotificationByID id s).1 = Ok n ∧ Status n = db_Status row
  end.
Proof.
  intros Hinv Hh.
  destruct (GetNotificationByID_inv id s Hinv) as [_ Hok].
  assert (Hres : (GetNotificationByID id s).1 = (Cached_GetByID id (repo s)).1).
  { unfold GetNotificationByID.
    change (repo_GetByID id (repo s)) with (Cached_GetByID id (repo s)).
    by destruct (Cached_GetByID id (repo s)) as [[n|e] r]. }
  assert (Hmiss : ∀ e, (Cached_GetByID id (repo s)).1 = Err e →
                       (postgres_GetByID id (primaryRepo (repo s))).1 = Err e).
  { intros e.
    destruct (cache_Get id (cache (repo s))) as [[n|e'] c] eqn:Hc.
    - unfold Cached_GetByID. by rewrite Hc.
    - by rewrite (Cached_GetByID_miss _ _ _ _ Hc). }
  rewrite Hres in Hok. rewrite Hres. clear Hres.
  destruct (table s !! id) as [row|] eqn:Hrow.
  - destruct (Cached_GetByID id (repo s)).1 as [n|e] eqn:Hget.
    + exists n. split; [done|]. destruct (Hok n eq_refl) as (row' & Hrow' & Hst).
      by injection Hrow' as <-.
    + exfalso. specialize (Hmiss e eq_refl).
      by rewrite (postgres_GetByID_found id _ row) in Hmiss.
  - destruct (Cached_GetByID id (repo s)).1 as [n|e] eqn:Hget.
    + by destruct (Hok n eq_refl) as (row' & Hrow' & _).
    + specialize (Hmiss e eq_refl).
      rewrite (postgres_GetByID_absent id _ Hh Hrow) in Hmiss. by injection Hmiss as <-.
Qed.

(** X18. What GET and DELETE answer for an identifier, when cached copies
    agree with the table and the database answers.  For an identifier the
    table does not hold both answer 404; for one it holds, GET answers 200
    with the status that the table holds, from the cache or from the
    table.  GET never changes the table. *)
Theorem GET_reads_the_table (idStr : string) (id : UUID) s :
  uuid_Parse idStr = Ok id →
  store_inv (repo s) → pg_healthy (primaryRepo (repo s)) →
  let r := Handlers_GetNotificationByID idStr s in
  table r.2 = table s ∧
  match table s !! id with
  | None =>
      r.1 = (StatusNotFound, None) ∧
      (Handlers_CancelNotification idStr s).1 = StatusNotFound
  | Some row =>
      ∃ resp, r.1 = (StatusOK, Some resp) ∧ resp_Status resp = db_Status row
  end.
Proof.
  intros Hparse Hinv Hh. cbn zeta.
  pose proof (GetNotificationByID_healthy id s Hinv Hh) as Hget.
  destruct (GetNotificationByID_table id s) as [Htable _].
  unfold Handlers_GetNotificationByID, Handlers_CancelNotification. rewrite Hparse.
  split.
  { destruct (GetNotificationByID id s) as [[n|e] s1].
    - done.
    - cbn. by destruct (errors_Is e ErrNotFound). }
  destruct (table s !! id) as [row|] eqn:Hrow.
  - destruct Hget as (n & Hn & Hst).
    destruct (GetNotificationByID id s) as [res s1]; cbn in *. subst res.
    by exists (toNotificationResponse n).
  - split.
    + destruct (GetNotificationByID id s) as [res s1]; cbn in *. by subst res.
    + revert Hget. unfold CancelNotification, GetNotificationByID.
      destruct (repo_GetByID id (repo s)) as [[n|e] r1]; cbn; [done|].
      by intros [= ->].
Qed.
End ReadStored.

(** ** What the running system writes to the table *)

Definition terminal (status : string) : Prop :=
  status = StatusSent ∨ status = StatusFailed ∨ status = StatusCancelled.

(** One change of the table: none, a new row as the service creates it, or
    an existing row rewritten with a final status. *)
Definition table_change (rs rs' : gmap UUID db_Notification) : Prop :=
  rs' = rs ∨
  (∃ row, rs !! db_ID row = None ∧ rs' = <[db_ID row := row]> rs ∧
          db_Status row = StatusScheduled ∧ db_Attempts row = 0 ∧
          db_SentAt row = None) ∨
  (∃ id old new, rs !! id = Some old ∧ rs' = <[id := new]> rs ∧
                 terminal (db_Status new)).

Section TableChanges.
Context {Q D : Type} `{!NotificationQueue Q, !Notifier D}.
Context `{!UUIDText, !TimeJSON}.
Variable mail_ParseAddress : string → option error.
Implicit Types s : NotificationService (CachedNotificationRepository Postgres Redis) Q.
Implicit Types c : Consumer (CachedNotificationRepository Postgres Redis) Q D.

Lemma Cached_Update_change (n : Notification)
    (r : CachedNotificationRepository Postgres Redis) :
  terminal (Status n) →
  table_change (rows (primaryRepo r)) (rows (primaryRepo (Cached_Update n r).2)).
Proof.
  intros Hterm. unfold Cached_Update.
  change (repo_Update n (primaryRepo r)) with (postgres_Update n (primaryRepo r)).
  pose proof (postgres_Update_spec n (primaryRepo r)) as Hspec.
  destruct (postgres_Update n (primaryRepo r)) as [[err|] p]; cbn in *.
  - by left.
  - destruct Hspec as (old & new & Hold & Hrows & _ & Hst & _).
    match goal with |- context [NotificationCache_Delete ?x ?y] =>
      destruct (NotificationCache_Delete x y) as [e c] end.
    cbn. right; right. exists (ID n), old, new. by rewrite Hst.
Qed.

Lemma Cached_Delete_change (id : UUID)
    (r : CachedNotificationRepository Postgres Redis) :
  table_change (rows (primaryRepo r)) (rows (primaryRepo (Cached_Delete id r).2)).
Proof.
  unfold Cached_Delete.
  change (repo_Delete id (primaryRepo r)) with (postgres_Delete id (primaryRepo r)).
  pose proof (postgres_Delete_spec id (primaryRepo r)) as Hspec.
  destruct (postgres_Delete id (primaryRepo r)) as [[err|] p]; cbn in *.
  - by left.
  - destruct Hspec as (old & new & Hold & Hrows & _ & Hst & _).
    match goal with |- context [NotificationCache_Delete ?x ?y] =>
      destruct (NotificationCache_Delete x y) as [e c] end.
    cbn. right; right. exists id, old, new. rewrite Hst.
    split; [done|]. split; [done|]. by right; right.
Qed.

Lemma consumer_UpdateNotification_change (n : Notification) c :
  terminal (Status n) →
  table_change (table (service c)) (table (service (consumer_UpdateNotification n c).2)).
Proof.
  intros Hterm. unfold consumer_UpdateNotification, UpdateNotification, table. cbn.
  change (repo_Update n (repo (service c))) with (Cached_Update n (repo (service c))).
  pose proof (Cached_Update_change n (repo (service c)) Hterm) as Hch.
  by destruct (Cached_Update n (repo (service c))) as [[err|] r].
Qed.

Lemma handleSendError_change (n : Notification) (sendErr : error) c :
  table_change (table (service c)) (table (service (handleSendError n sendErr c).2)).
Proof.
  unfold handleSendError. cbn.
  destruct (maxRetries <=? int64 (Attempts n + 1)).
  - set (n' := set_Status StatusFailed _).
    pose proof (consumer_UpdateNotification_change n' c) as Hch.
    destruct (consumer_UpdateNotification n' c) as [[err|] c1]; cbn in *;
      apply Hch; by right; left.
  - destruct (queue_PublishRetry _ _ _) as [[err|] q]; cbn; by left.
Qed.

Lemma handleMessage_change (now : Time) (msg : Delivery) c :
  table_change (table (service c)) (table (service (handleMessage now msg c).2)).
Proof.
  unfold handleMessage.
  destruct (json_Unmarshal (delivery_Body msg)) as [notification|err]; [|by left].
  cbn.
  destruct (GetNotificationByID_table (ID notification) (service c)) as [Htable _].
  unfold table in *.
  destruct (GetNotificationByID (ID notification) (service c)) as [latest s1]; cbn in *.
  destruct latest as [latest|err]; cbn; [|left; by rewrite <- Htable].
  destruct (String.eqb (Status latest) StatusScheduled); cbn;
    [|left; by rewrite <- Htable].
  destruct (notifier_Send notification (notifier c)) as [[sendErr|] d]; cbn.
  - match goal with |- context [handleSendError _ _ ?c1] =>
      pose proof (handleSendError_change notification sendErr c1) as Hch end.
    unfold table in Hch. cbn in Hch. by rewrite Htable in Hch.
  - set (n' := set_SentAt _ _).
    match goal with |- context [consumer_UpdateNotification _ ?c1] =>
      pose proof (consumer_UpdateNotification_change n' c1) as Hch;
      destruct (consumer_UpdateNotification n' c1) as [[err|] c2] end;
      unfold table in Hch; cbn in *; rewrite Htable in Hch; apply Hch; by left.
Qed.

Lemma CancelNotification_change (id : UUID) s :
  table_change (table s) (table (CancelNotification id s).2).
Proof.
  unfold CancelNotification, table.
  change (repo_GetByID id (repo s)) with (Cached_GetByID id (repo s)).
  pose proof (Cached_GetByID_rows id (repo s)) as Hrows.
  destruct (Cached_GetByID id (repo s)) as [[n|err] r1]; cbn in *;
    [|left; by rewrite Hrows].
  destruct (String.eqb (Status n) StatusScheduled); cbn; [|left; by rewrite Hrows].
  change (repo_Delete id r1) with (Cached_Delete id r1).
  pose proof (Cached_Delete_change id r1) as Hch. rewrite Hrows in Hch.
  by destruct (Cached_Delete id r1) as [err r2].
Qed.

Lemma CreateNotification_change (id : UUID) (now : Time)
    (recipient channel subject message : string) (scheduledAt : Time)
    (authorID : option string) s :
  table_change (table s)
    (table (CreateNotification mail_ParseAddress id now recipient channel subject
              message scheduledAt authorID s).2).
Proof.
  destruct (CreateNotification_cases mail_ParseAddress id now recipient channel subject
              message scheduledAt authorID s) as [[_ [err Hr]]|(n & Hbuilt & Hr)];
    cbn zeta in Hr.
  { rewrite Hr. by left. }
  destruct (built_wf _ _ _ _ _ _ _ _ _ _ Hbuilt) as (Hwf & Hst & Hat & _).
  change (repo_Save n (repo s)) with (Cached_Save n (repo s)) in Hr.
  destruct Hr as [(err & r1 & Hsave & ->)|(created & r1 & Hsave & Hr)].
  - left. unfold table; cbn.
    pose proof (postgres_Save_spec n (primaryRepo (repo s)) Hwf) as Hspec.
    revert Hsave. unfold Cached_Save.
    change (repo_Save n (primaryRepo (repo s)))
      with (postgres_Save n (primaryRepo (repo s))).
    destruct (postgres_Save n (primaryRepo (repo s))) as [[c0|e] p]; cbn in *.
    + match goal with |- context [NotificationCache_Set ?x ?y ?z] =>
        by destruct (NotificationCache_Set x y z) end.
    + by intros [= _ <-].
  - right; left.
    destruct (Cached_Save_stored n created (repo s) r1 Hwf Hsave)
      as (Hfresh & (row & Hrows & Hdom & _) & _ & _ & _ & Hs4 & _ & Hs6 & _ & Hs8).
    assert (Hid : ID created = db_ID row) by by rewrite <- Hdom.
    exists row. rewrite <- Hid.
    assert (Htable : table (CreateNotification mail_ParseAddress id now recipient
                              channel subject message scheduledAt authorID s).2
                     = rows (primaryRepo r1)).
    { by destruct Hr as [(e & q1 & _ & ->)|(q1 & _ & ->)]. }
    rewrite Htable. split; [done|]. split; [done|].
    split; [by rewrite <- Hst, <- Hs4, <- Hdom|].
    split; [|by rewrite <- Hs8, <- Hdom].
    replace (db_Attempts row) with (Attempts created) by by rewrite <- Hdom.
    by rewrite Hs6, Hat.
Qed.

End TableChanges.

Section SystemChanges.
Context {D : Type} `{!Notifier D}.
Context `{!UUIDText, !TimeJSON}.
Variable mail_ParseAddress : string → option error.
Implicit Types c : @System D.

Lemma system_step_change (a : Action) c :
  table_change (stored c) (stored (system_step mail_ParseAddress c a)).
Proof.
  destruct a as [id now recipient channel subject message scheduledAt authorID
                | id | idStr | e | key]; unfold stored; cbn.
  - apply CreateNotification_change.
  - destruct (GetNotificationByID_table id (service c)) as [Htable _].
    unfold table in Htable. rewrite Htable. by left.
  - unfold Handlers_CancelNotification.
    destruct (uuid_Parse idStr) as [id|err]; cbn; [|by left].
    pose proof (CancelNotification_change id (service c)) as Hch.
    destruct (CancelNotification id (service c)) as [[err|] s1]; cbn in *;
      [destruct (errors_Is err ErrNotFound)|]; done.
  - destruct e as [| |now]; cbn; [by left|by left|].
    unfold worker_step.
    destruct (notificationsQueue (broker c)) as [|msg rest]; [by left|].
    match goal with |- context [handleMessage now ?m ?c1] =>
      pose proof (handleMessage_change now m c1) as Hch;
      destruct (handleMessage now m c1) as [[|[|]] c2] end; done.
  - by left.
Qed.

(** Every scheduled row is as it was created. *)
Definition scheduled_untouched (rs : gmap UUID db_Notification) : Prop :=
  ∀ id row, rs !! id = Some row → db_Status row = StatusScheduled →
            db_Attempts row = 0 ∧ db_SentAt row = None.

Lemma table_change_untouched (rs rs' : gmap UUID db_Notification) :
  table_change rs rs' → scheduled_untouched rs → scheduled_untouched rs'.
Proof.
  intros [->|[(row & Hfresh & -> & Hst & Hat & Hsent)|(id & old & new & Hold & -> & Hterm)]]
    Hinv; [done| |]; intros id' row' Hrow' Hsched.
  - destruct (decide (id' = db_ID row)) as [->|Hne].
    + rewrite lookup_insert_eq in Hrow'. by injection Hrow' as <-.
    + rewrite lookup_insert_ne in Hrow' by done. by apply (Hinv id').
  - destruct (decide (id' = id)) as [->|Hne].
    + rewrite lookup_insert_eq in Hrow'. injection Hrow' as <-.
      by destruct Hterm as [Ht|[Ht|Ht]]; rewrite Ht in Hsched.
    + rewrite lookup_insert_ne in Hrow' by done. by apply (Hinv id').
Qed.

Lemma table_change_final (rs rs' : gmap UUID db_Notification) (id : UUID)
    (row : db_Notification) :
  table_change rs rs' → rs !! id = Some row → db_Status row ≠ StatusScheduled →
  ∃ row', rs' !! id = Some row' ∧ db_Status row' ≠ StatusScheduled.
Proof.
  intros [->|[(new & Hfresh & -> & _)|(id' & old & new & Hold & -> & Hterm)]]
    Hrow Hst.
  - by exists row.
  - exists row. split; [|done]. rewrite lookup_insert_ne; [done|].
    intros Heq. by rewrite Heq, Hrow in Hfresh.
  - destruct (decide (id' = id)) as [->|Hne].
    + exists new. rewrite lookup_insert_eq. split; [done|].
      by destruct Hterm as [Ht|[Ht|Ht]]; rewrite Ht.
    + exists row. by rewrite lookup_insert_ne.
Qed.

(** X19. While a record is scheduled the table shows no attempt: in every
    state that the system reaches from an empty table (API calls, broker
    steps, worker deliveries, cache expiries, with any failures of the
    database, the cache, the broker and the transport), a row with status
    [scheduled] has [attempts = 0] and no [sent_at].  The count of attempts
    travels in the message and is written only with a final status. *)
Theorem scheduled_rows_show_no_attempt (actions : list Action) c (id : UUID)
    (row : db_Notification) :
  stored c = ∅ →
  stored (system_run mail_ParseAddress actions c) !! id = Some row →
  db_Status row = StatusScheduled →
  db_Attempts row = 0 ∧ db_SentAt row = None.
Proof.
  intros Hempty.
  assert (Hinv : scheduled_untouched (stored c)).
  { intros id' row' Hrow'. by rewrite Hempty in Hrow'. }
  clear Hempty. revert c Hinv.
  induction actions as [|a actions IH]; intros c Hinv; cbn.
  { apply Hinv. }
  apply IH. eapply table_change_untouched; [apply system_step_change|done].
Qed.

(** X20. No record is scheduled twice: once the table holds a status other
    than [scheduled] for an identifier, it holds one in every later state,
    whatever the cache serves and whichever calls fail.  (That the status
    itself is kept needs the cache to follow the table.) *)
Theorem never_rescheduled (actions : list Action) c (id : UUID) (row : db_Notification) :
  stored c !! id = Some row → db_Status row ≠ StatusScheduled →
  ∃ row', stored (system_run mail_ParseAddress actions c) !! id = Some row' ∧
          db_Status row' ≠ StatusScheduled.
Proof.
  revert c row. induction actions as [|a actions IH]; intros c row Hrow Hst; cbn.
  { by exists row. }
  destruct (table_change_final _ _ id row (system_step_change a c) Hrow Hst)
    as (row1 & Hrow1 & Hst1).
  by apply (IH _ row1).
Qed.
End SystemChanges.

(** ** One delivery, call by call *)

Definition is_answer (call : Call) : bool :=
  match call with CallAck | CallNack _ => true | _ => false end.

(** The call that tells the broker the worker's verdict. *)
Definition answer (a : Acknowledgement) : Call :=
  match a with Ack => CallAck | Nack requeue => CallNack requeue end.

Section DeliveryTrace.
Context {R Q D : Type}.
Context `{!NotificationRepository R, !NotificationQueue Q, !Notifier D}.
Context `{!UUIDText, !TimeJSON}.

(** X21. Every delivery is answered exactly once, as the last call of its
    handling, and costs at most one send.  The answer is [Nack] without
    requeue exactly for a body that does not decode (the message is
    dropped), and [Nack] with requeue only after a send was attempted in
    this delivery: whatever is redelivered has been sent before. *)
Theorem every_delivery_is_answered_once (now : Time) (msg : Delivery)
    (c : Consumer R Q D) :
  let r := handleMessage now msg c in
  ∃ trace,
    calls r.2 = calls c ++ trace ++ [answer r.1] ∧
    count is_answer trace = 0%nat ∧
    (count is_Send trace ≤ 1)%nat ∧
    (r.1 = Nack false ↔ is_Ok (json_Unmarshal (delivery_Body msg)) = false) ∧
    (r.1 = Nack true → count is_Send trace = 1%nat).
Proof.
  cbn zeta. unfold handleMessage.
  destruct (json_Unmarshal (delivery_Body msg)) as [notification|err].
  2:{ exists []. cbn. repeat split; done || lia. }
  cbn.
  destruct (GetNotificationByID (ID notification) (service c)) as [latest s1]; cbn.
  assert (Hskip : ∃ trace,
            calls c ++ [CallGetNotificationByID (ID notification); CallAck]
              = calls c ++ trace ++ [answer Ack] ∧
            count is_answer trace = 0%nat ∧ (count is_Send trace ≤ 1)%nat ∧
            (Ack = Nack false ↔ true = false) ∧
            (Ack = Nack true → count is_Send trace = 1%nat)).
  { exists [CallGetNotificationByID (ID notification)]. cbn. repeat split; done || lia. }
  destruct latest as [latest|err]; cbn.
  2:{ by rewrite <- app_assoc. }
  destruct (String.eqb (Status latest) StatusScheduled); cbn.
  2:{ by rewrite <- app_assoc. }
  clear Hskip.
  destruct (notifier_Send notification (notifier c)) as [[sendErr|] d]; cbn.
  - match goal with |- context [handleSendError _ _ ?c1] =>
      destruct (handleSendError_calls notification sendErr c1) as (a & Hcalls & Ha & Hres);
      destruct (handleSendError notification sendErr c1) as [res c2] end.
    cbn in *. subst res. rewrite Hcalls, <- !app_assoc. cbn.
    eexists [CallGetNotificationByID (ID notification); CallSend notification; _].
    destruct Ha as [-> | ->]; cbn;
      (split; [reflexivity|]);
      destruct (maxRetries <=? int64 (Attempts notification + 1)); cbn;
      repeat split; done || lia.
  - set (n' := set_SentAt _ _).
    unfold consumer_UpdateNotification. cbn.
    destruct (UpdateNotification n' s1) as [[err|] s2]; cbn;
      rewrite <- !app_assoc; cbn;
      exists [CallGetNotificationByID (ID notification); CallSend notification;
              CallUpdateNotification n'];
      cbn; repeat split; done || lia.
Qed.
End DeliveryTrace.

(** ** What the worker records *)

(** The row [new] is the row [old] with the outcome of a delivery written
    over it. *)
Definition recorded (status : string) (attempts : Z) (sentAt : option Time)
    (old new : db_Notification) : Prop :=
  db_Status new = status ∧ db_Attempts new = int16 attempts ∧
  db_SentAt new = timestamptz <$> sentAt ∧ same_identity old new.

Lemma postgres_Update_recorded (n : Notification) (pg : Postgres) (old : db_Notification) :
  pg_healthy pg → rows pg !! ID n = Some old → notification_status (Status n) = true →
  ∃ new, (postgres_Update n pg).1 = None ∧
         rows (postgres_Update n pg).2 = <[ID n := new]> (rows pg) ∧
         recorded (Status n) (Attempts n) (SentAt n) old new.
Proof.
  intros Hh Hold Hst.
  destruct (postgres_Update_Ok n pg old Hh Hold Hst)
    as (new & Hres & Hrows & _ & _ & Hdom & Hem & Htg & Hid).
  exists new. split; [done|]. split; [done|].
  unfold domain, written in Hdom. cbn in Hdom.
  injection Hdom as _ Hsu Hme Hch Hs Hat Hau _ _ Hsc Hse Hcr _.
  unfold recorded, same_identity. by repeat split.
Qed.

Section WorkerRecords.
Context {Q D : Type} `{!NotificationQueue Q, !Notifier D}.
Context `{!UUIDText, !TimeJSON}.
Implicit Types c : Consumer (CachedNotificationRepository Postgres Redis) Q D.

Lemma Cached_Update_through (n : Notification)
    (r : CachedNotificationRepository Postgres Redis) :
  (Cached_Update n r).1 = (postgres_Update n (primaryRepo r)).1 ∧
  rows (primaryRepo (Cached_Update n r).2) = rows (postgres_Update n (primaryRepo r)).2.
Proof.
  unfold Cached_Update.
  change (repo_Update n (primaryRepo r)) with (postgres_Update n (primaryRepo r)).
  destruct (postgres_Update n (primaryRepo r)) as [[err|] p]; cbn; [done|].
  match goal with |- context [NotificationCache_Delete ?x ?y] =>
    by destruct (NotificationCache_Delete x y) end.
Qed.

Lemma consumer_UpdateNotification_recorded (n : Notification) c (old : db_Notification) :
  pg_healthy (primaryRepo (repo (service c))) →
  table (service c) !! ID n = Some old →
  notification_status (Status n) = true →
  ∃ new, (consumer_UpdateNotification n c).1 = None ∧
         table (service (consumer_UpdateNotification n c).2)
           = <[ID n := new]> (table (service c)) ∧
         recorded (Status n) (Attempts n) (SentAt n) old new.
Proof.
  intros Hh Hold Hst.
  destruct (postgres_Update_recorded n _ old Hh Hold Hst) as (new & Hres & Hrows & Hrec).
  exists new. unfold consumer_UpdateNotification, UpdateNotification, table. cbn.
  change (repo_Update n (repo (service c))) with (Cached_Update n (repo (service c))).
  destruct (Cached_Update_through n (repo (service c))) as [Hr1 Hr2].
  rewrite Hres in Hr1. rewrite Hrows in Hr2.
  destruct (Cached_Update n (repo (service c))) as [res r1]; cbn in *. by subst res.
Qed.

(** X22. What a delivery leaves in the table.  Take a message that decodes
    to [n], whose re-read finds the record scheduled, with the database
    answering.  After a successful send the worker answers [Ack] and the row
    reads [sent], with the send time as [sent_at] and the attempts of the
    message; after a failed send that exhausts the attempts it answers
    [Ack] and the row reads [failed] with one attempt more than the
    message carried; after any other failed send the table is unchanged.
    Each write leaves the other columns of the row as they were. *)
Theorem delivery_outcome_is_recorded (now : Time) (msg : Delivery) c
    (n latest : Notification) (old : db_Notification) :
  json_Unmarshal (delivery_Body msg) = Ok n →
  (GetNotificationByID (ID n) (service c)).1 = Ok latest →
  Status latest = StatusScheduled →
  table (service c) !! ID n = Some old →
  pg_healthy (primaryRepo (repo (GetNotificationByID (ID n) (service c)).2)) →
  let r := handleMessage now msg c in
  match (notifier_Send n (notifier c)).1 with
  | None =>
      r.1 = Ack ∧
      ∃ new, table (service r.2) = <[ID n := new]> (table (service c)) ∧
             recorded StatusSent (Attempts n) (Some now) old new
  | Some _ =>
      if maxRetries <=? int64 (Attempts n + 1) then
        r.1 = Ack ∧
        ∃ new, table (service r.2) = <[ID n := new]> (table (service c)) ∧
               recorded StatusFailed (int64 (Attempts n + 1)) (SentAt n) old new
      else table (service r.2) = table (service c)
  end.
Proof.
  intros Hbody Hget Hst Hold Hh. cbn zeta. unfold handleMessage. rewrite Hbody. cbn.
  destruct (GetNotificationByID_table (ID n) (service c)) as [Htable _].
  destruct (GetNotificationByID (ID n) (service c)) as [res s1]; cbn in *. subst res.
  rewrite Hst. cbn.
  destruct (notifier_Send n (notifier c)) as [[sendErr|] d]; cbn.
  - unfold handleSendError. cbn.
    destruct (maxRetries <=? int64 (Attempts n + 1)).
    + set (n' := set_Status StatusFailed _).
      match goal with |- context [consumer_UpdateNotification n' ?c1] =>
        destruct (consumer_UpdateNotification_recorded n' c1 old)
          as (new & Hres & Hrows & Hrec);
          [done|change (table s1 !! ID n = Some old); by rewrite Htable|done|];
        destruct (consumer_UpdateNotification n' c1) as [res c2] end.
      cbn in *. subst res. cbn. split; [done|]. exists new. by rewrite <- Htable.
    + by destruct (queue_PublishRetry _ _ _) as [[err|] q].
  - set (n' := set_SentAt _ _).
    match goal with |- context [consumer_UpdateNotification n' ?c1] =>
      destruct (consumer_UpdateNotification_recorded n' c1 old)
        as (new & Hres & Hrows & Hrec);
          [done|change (table s1 !! ID n = Some old); by rewrite Htable|done|];
      destruct (consumer_UpdateNotification n' c1) as [res c2] end.
    cbn in *. subst res. cbn. split; [done|]. exists new. by rewrite <- Htable.
Qed.
End WorkerRecords.

(** ** Sends and the status in the table *)

Section SendsFacts.
Context {Q D : Type} `{!NotificationQueue Q, !Notifier D}.
Context `{!UUIDText, !TimeJSON}.
Implicit Types c : Consumer (CachedNotificationRepository Postgres Redis) Q D.

(** The sends of one delivery are for records that the table holds as
    scheduled, when cached copies agree with the table. *)
Lemma handleMessage_sends (now : Time) (msg : Delivery) c :
  store_inv (repo (service c)) →
  ∃ new, calls (handleMessage now msg c).2 = calls c ++ new ∧
    ∀ n, CallSend n ∈ new →
         ∃ row, table (service c) !! ID n = Some row ∧ db_Status row = StatusScheduled.
Proof.
  intros Hinv. unfold handleMessage.
  destruct (json_Unmarshal (delivery_Body msg)) as [notification|err].
  2:{ eexists. split; [done|]. intros n Hn.
      by apply list_elem_of_singleton in Hn. }
  cbn.
  destruct (GetNotificationByID_inv (ID notification) (service c) Hinv) as [_ Hfound].
  destruct (GetNotificationByID (ID notification) (service c)) as [latest s1]; cbn in *.
  assert (Hskip : ∃ new,
            (calls c ++ [CallGetNotificationByID (ID notification)]) ++ [CallAck]
              = calls c ++ new ∧
            ∀ n, CallSend n ∈ new →
                 ∃ row, table (service c) !! ID n = Some row
                        ∧ db_Status row = StatusScheduled).
  { exists [CallGetNotificationByID (ID notification); CallAck].
    rewrite <- app_assoc. split; [done|]. intros n Hn.
    apply elem_of_cons in Hn as [Hn|Hn]; [done|].
    by apply list_elem_of_singleton in Hn. }
  destruct latest as [latest|err]; cbn; [|done].
  destruct (String.eqb_spec (Status latest) StatusScheduled) as [Hs|Hs]; cbn; [|done].
  clear Hskip.
  destruct (Hfound latest eq_refl) as (row & Hrow & Hst).
  assert (Hsend : ∀ x a n, is_Send x = false → is_Send a = false →
            CallSend n ∈ [CallGetNotificationByID (ID notification);
                          CallSend notification; x; a] →
            ∃ row, table (service c) !! ID n = Some row
                   ∧ db_Status row = StatusScheduled).
  { intros x a n Hx Ha Hn.
    apply elem_of_cons in Hn as [Hn|Hn]; [done|].
    apply elem_of_cons in Hn as [Hn|Hn].
    { injection Hn as ->. exists row. split; [done|congruence]. }
    apply elem_of_cons in Hn as [Hn|Hn]; [by rewrite <- Hn in Hx|].
    apply list_elem_of_singleton in Hn. by rewrite <- Hn in Ha. }
  destruct (notifier_Send notification (notifier c)) as [[sendErr|] d]; cbn.
  - match goal with |- context [handleSendError _ _ ?c1] =>
      destruct (handleSendError_calls notification sendErr c1) as (a & Hcalls & Ha & _) end.
    cbn in Hcalls. rewrite Hcalls, <- !app_assoc. cbn.
    eexists. split; [reflexivity|]. intros n. apply Hsend.
    + by destruct (maxRetries <=? int64 (Attempts notification + 1)).
    + by destruct Ha as [-> | ->].
  - set (n' := set_SentAt _ _).
    unfold consumer_UpdateNotification. cbn.
    destruct (UpdateNotification n' s1) as [[err|] s2]; cbn;
      rewrite <- !app_assoc; cbn;
      (eexists; split; [reflexivity|]); intros n; by apply Hsend.
Qed.
End SendsFacts.

Section SystemSends.
Context {D : Type} `{!Notifier D}.
Context `{!UUIDText, !TimeJSON}.
Variable mail_ParseAddress : string → option error.
Implicit Types s : @System D.

Lemma system_step_sends (a : Action) s :
  system_inv s →
  ∃ new, calls (system_step mail_ParseAddress s a) = calls s ++ new ∧
    ∀ n, CallSend n ∈ new →
         ∃ row, stored s !! ID n = Some row ∧ db_Status row = StatusScheduled.
Proof.
  intros Hinv.
  assert (Hnone : ∃ new : list Call, calls s = calls s ++ new ∧
            ∀ n, CallSend n ∈ new →
                 ∃ row, stored s !! ID n = Some row ∧ db_Status row = StatusScheduled).
  { exists []. rewrite app_nil_r. split; [done|]. intros n Hn.
    by apply elem_of_nil in Hn. }
  destruct a as [id now recipient channel subject message scheduledAt authorID
                | id | idStr | e | key]; cbn; try done.
  destruct e as [| |now]; cbn; try done.
  unfold worker_step.
  destruct (notificationsQueue (broker s)) as [|msg rest]; [done|].
  match goal with |- context [handleMessage now ?m ?c1] =>
    destruct (handleMessage_sends now m c1 Hinv) as (new & Hcalls & Hnew);
    destruct (handleMessage now m c1) as [[|[|]] c2] end;
    cbn in *; by exists new.
Qed.

(** X23. No send once the status is final.  When cached copies agree with
    the table and the cache deletes succeed, then after the table holds a
    status other than [scheduled] for a notification (it was sent, it
    failed, or it was cancelled), no later worker delivery calls the
    transport for it, in any run of the system and whatever else fails. *)
Theorem no_send_once_final (actions : list Action) s (id : UUID)
    (row : db_Notification) :
  system_inv s →
  stored s !! id = Some row → db_Status row ≠ StatusScheduled →
  ∃ later, calls (system_run mail_ParseAddress actions s) = calls s ++ later ∧
           ∀ n, CallSend n ∈ later → ID n ≠ id.
Proof.
  revert s row. induction actions as [|a actions IH]; intros s row Hinv Hrow Hst.
  { exists []. cbn. rewrite app_nil_r. split; [done|]. intros n Hn.
    by apply elem_of_nil in Hn. }
  change (system_run mail_ParseAddress (a :: actions) s)
    with (system_run mail_ParseAddress actions (system_step mail_ParseAddress s a)).
  destruct (system_step_sends a s Hinv) as (new & Hcalls & Hnew).
  destruct (system_step_inv mail_ParseAddress a s Hinv) as [Hinv1 Hkept].
  destruct (Hkept id row Hrow Hst) as (row1 & Hrow1 & Hst1).
  destruct (IH _ row1 Hinv1 Hrow1) as (later & Hlater & Hsends); [congruence|].
  exists (new ++ later). rewrite Hlater, Hcalls, <- app_assoc. split; [done|].
  intros n Hn. apply elem_of_app in Hn as [Hn|Hn]; [|by apply Hsends].
  destruct (Hnew n Hn) as (row' & Hrow' & Hst'). intros Heq.
  rewrite Heq, Hrow in Hrow'. injection Hrow' as <-. done.
Qed.
End SystemSends.

(** ** The dispatcher and the transports *)

(** X24. [NewDispatcher] fails in one case only: production mode, a bot
    token, and a Telegram client that cannot be created; the error is then
    that of the client under "failed to initialize telegram notifier".
    Outside production mode, or without a token, the Telegram API is not
    contacted at all. *)
Theorem NewDispatcher_failure (newBotAPI : string → result BotAPI) (cfg : Config) :
  (is_Ok (NewDispatcher newBotAPI cfg) = false ↔
   Mode (Notifiers cfg) = "production" ∧
   BotToken (cfg_Telegram (Notifiers cfg)) ≠ "" ∧
   is_Ok (newBotAPI (BotToken (cfg_Telegram (Notifiers cfg)))) = false) ∧
  (∀ e, newBotAPI (BotToken (cfg_Telegram (Notifiers cfg))) = Err e →
        is_Ok (NewDispatcher newBotAPI cfg) = false →
        NewDispatcher newBotAPI cfg
          = Err (wrapError "failed to initialize telegram notifier"
                   (wrapError "failed to create telegram bot api" e))) ∧
  (Mode (Notifiers cfg) ≠ "production" ∨ BotToken (cfg_Telegram (Notifiers cfg)) = "" →
   ∀ other, NewDispatcher other cfg = NewDispatcher newBotAPI cfg).
Proof.
  unfold NewDispatcher, NewTelegramNotifier.
  destruct (String.eqb_spec (Mode (Notifiers cfg)) "production") as [Hm|Hm];
    destruct (String.eqb_spec (BotToken (cfg_Telegram (Notifiers cfg))) "") as [Ht|Ht];
    cbn.
  - split; [split; [done|by intros (_ & ? & _)]|]. split; [done|]. done.
  - destruct (newBotAPI (BotToken (cfg_Telegram (Notifiers cfg)))) as [b|e]; cbn.
    + split; [split; [done|by intros (_ & _ & ?)]|]. split; [done|].
      by intros [?|?].
    + split; [done|]. split; [by intros e' [= <-]|]. by intros [?|?].
  - split; [split; [done|by intros (? & _)]|]. split; [done|]. done.
  - split; [split; [done|by intros (? & _)]|]. split; [done|]. done.
Qed.

Lemma unknown_channel_has_no_notifier (newBotAPI : string → result BotAPI)
    (cfg : Config) (d : Dispatcher) (n : Notification) :
  NewDispatcher newBotAPI cfg = Ok d →
  Channel n ≠ ChannelEmail → Channel n ≠ ChannelTelegram →
  notifiers d !! Channel n = None.
Proof.
  intros Hd He Ht. revert Hd. unfold NewDispatcher.
  destruct (String.eqb (Mode (Notifiers cfg)) "production").
  - destruct (String.eqb (Host (cfg_Email (Notifiers cfg))) "");
      destruct (String.eqb (BotToken (cfg_Telegram (Notifiers cfg))) ""); cbn;
      try destruct (NewTelegramNotifier _ _); intros [= <-]; cbn;
      by rewrite !lookup_insert_ne.
  - intros [= <-]; cbn. by rewrite !lookup_insert_ne.
Qed.

(** X25. A dispatcher that [NewDispatcher] returned knows the two channels
    and no other: for a notification of any other channel [Send] answers
    "notifier for channel ... not found" and contacts no transport. *)
Theorem dispatcher_unknown_channel (newBotAPI : string → result BotAPI) (cfg : Config)
    (d : Dispatcher) (n : Notification) (w : Transports) :
  NewDispatcher newBotAPI cfg = Ok d →
  Channel n ≠ ChannelEmail → Channel n ≠ ChannelTelegram →
  notifiers d !! Channel n = None ∧
  Dispatcher_Send d n w = (Some (notifier_not_found (Channel n)), w).
Proof.
  intros Hd He Ht.
  pose proof (unknown_channel_has_no_notifier newBotAPI cfg d n Hd He Ht) as Hnone.
  split; [done|]. unfold Dispatcher_Send. by rewrite Hnone.
Qed.

(** X26. Outside production mode nothing leaves the process: the dispatcher
    is built without a failure, and its [Send] succeeds for every email and
    telegram notification, with or without a recipient, and leaves the SMTP
    server and the Telegram API untouched. *)
Theorem dry_run_never_delivers (newBotAPI : string → result BotAPI) (cfg : Config)
    (n : Notification) (w : Transports) :
  Mode (Notifiers cfg) ≠ "production" →
  ∃ d, NewDispatcher newBotAPI cfg = Ok d ∧
       (Dispatcher_Send d n w).2 = w ∧
       ((Dispatcher_Send d n w).1 = None ↔
        Channel n = ChannelEmail ∨ Channel n = ChannelTelegram).
Proof.
  intros Hm. unfold NewDispatcher.
  destruct (String.eqb_spec (Mode (Notifiers cfg)) "production") as [|_]; [done|].
  eexists. split; [done|]. unfold Dispatcher_Send. cbn.
  destruct (decide (Channel n = ChannelTelegram)) as [->|Ht].
  { rewrite lookup_insert_eq. cbn. split; [done|]. split; [by right|done]. }
  rewrite lookup_insert_ne by done.
  destruct (decide (Channel n = ChannelEmail)) as [->|He].
  { rewrite lookup_insert_eq. cbn. split; [done|]. split; [by left|done]. }
  rewrite lookup_insert_ne by done. rewrite lookup_empty. cbn.
  split; [done|]. split; [done|]. by intros [?|?].
Qed.

(** X27. What a [Send] through the dispatcher can deliver.  It hands at most
    one message to one transport: to the SMTP server only for an email
    notification, addressed to its recipient with its subject and message
    and the configured sender, and to the Telegram API only for a telegram
    notification, for its chat.  A [Send] that returns an error has
    delivered nothing. *)
Theorem delivery_matches_channel (newBotAPI : string → result BotAPI) (cfg : Config)
    (d : Dispatcher) (n : Notification) (w : Transports) :
  NewDispatcher newBotAPI cfg = Ok d →
  let r := Dispatcher_Send d n w in
  (smtp_delivered r.2 = smtp_delivered w ∨
   (Channel n = ChannelEmail ∧ r.1 = None ∧
    telegram_delivered r.2 = telegram_delivered w ∧
    ∃ email, Email n = Some email ∧
      smtp_delivered r.2 = smtp_delivered w ++
        [(From (cfg_Email (Notifiers cfg)), To email, Subject n, Message n)])) ∧
  (telegram_delivered r.2 = telegram_delivered w ∨
   (Channel n = ChannelTelegram ∧ r.1 = None ∧
    smtp_delivered r.2 = smtp_delivered w ∧
    ∃ telegram, Telegram n = Some telegram ∧
      telegram_delivered r.2 = telegram_delivered w ++
        [(ChatID telegram,
          "*" +:+ Subject n +:+ "*" +:+ String "010" (String "010" "") +:+ Message n)])) ∧
  (r.1 ≠ None →
   smtp_delivered r.2 = smtp_delivered w ∧ telegram_delivered r.2 = telegram_delivered w).
Proof.
  intros Hd. cbn zeta.
  assert (Hemail : ∀ nt, notifiers d !! ChannelEmail = Some nt →
            nt = logNotifier ∨ nt = emailNotifier (NewEmailNotifier (cfg_Email (Notifiers cfg)))).
  { revert Hd. unfold NewDispatcher.
    destruct (String.eqb (Mode (Notifiers cfg)) "production").
    - destruct (String.eqb (Host (cfg_Email (Notifiers cfg))) "");
        destruct (String.eqb (BotToken (cfg_Telegram (Notifiers cfg))) ""); cbn;
        try destruct (NewTelegramNotifier _ _); intros [= <-]; cbn; intros nt;
        rewrite ?(lookup_insert_ne _ ChannelTelegram ChannelEmail) by done;
        rewrite lookup_insert_eq; intros [= <-]; auto.
    - intros [= <-]; cbn. intros nt.
      rewrite ?(lookup_insert_ne _ ChannelTelegram ChannelEmail) by done.
      rewrite lookup_insert_eq. intros [= <-]; auto. }
  assert (Htelegram : ∀ nt, notifiers d !! ChannelTelegram = Some nt →
            nt = logNotifier ∨ ∃ t, nt = telegramNotifier t).
  { revert Hd. unfold NewDispatcher.
    destruct (String.eqb (Mode (Notifiers cfg)) "production").
    - destruct (String.eqb (Host (cfg_Email (Notifiers cfg))) "");
        destruct (String.eqb (BotToken (cfg_Telegram (Notifiers cfg))) ""); cbn;
        try destruct (NewTelegramNotifier _ _); intros [= <-]; cbn; intros nt;
        rewrite ?(lookup_insert_ne _ ChannelEmail ChannelTelegram) by done;
        rewrite lookup_insert_eq; intros [= <-]; eauto.
    - intros [= <-]; cbn. intros nt. rewrite lookup_insert_eq. intros [= <-]; auto. }
  unfold Dispatcher_Send.
  destruct (decide (Channel n = ChannelEmail)) as [He|He].
  - rewrite He. destruct (notifiers d !! ChannelEmail) as [nt|] eqn:Hnt; [|by auto].
    destruct (Hemail nt eq_refl) as [-> | ->]; cbn; [by auto|].
    unfold EmailNotifier_Send. destruct (Email n) as [email|]; [|by auto].
    rewrite He. cbn.
    destruct (next_fault (smtp_faults w)) as [[err|] rest]; cbn; [by auto|].
    split; [|split; [by left|intros Hne; by destruct Hne]].
    right. split; [done|]. split; [done|]. split; [done|]. by exists email.
  - destruct (decide (Channel n = ChannelTelegram)) as [Ht|Ht].
    + rewrite Ht. destruct (notifiers d !! ChannelTelegram) as [nt|] eqn:Hnt; [|by auto].
      destruct (Htelegram nt eq_refl) as [-> | [t ->]]; cbn; [by auto|].
      unfold TelegramNotifier_Send. destruct (Telegram n) as [telegram|]; [|by auto].
      rewrite Ht. cbn.
      destruct (next_fault (telegram_faults w)) as [[err|] rest]; cbn; [by auto|].
      split; [by left|]. split; [|intros Hne; by destruct Hne].
      right. split; [done|]. split; [done|]. split; [done|]. by exists telegram.
    + rewrite (unknown_channel_has_no_notifier newBotAPI cfg d n Hd He Ht).
      by auto.
Qed.

(** ** From the request to the transport *)

(** The database answers every round trip still to come. *)
Definition pg_answers (pg : Postgres) : Prop :=
  Forall (λ f, f = None) (pg_faults pg).

Lemma pg_answers_healthy (pg : Postgres) : pg_answers pg → pg_healthy pg.
Proof.
  unfold pg_answers, pg_healthy. destruct (pg_faults pg) as [|f rest]; [done|].
  intros Hall. by inversion Hall.
Qed.

Lemma postgres_GetByID_faults (id : UUID) (pg : Postgres) :
  pg_faults (postgres_GetByID id pg).2 = (next_fault (pg_faults pg)).2.
Proof.
  unfold postgres_GetByID, db_GetNotificationByID.
  destruct (pg_begin_spec pg) as (_ & Hrows & _ & _ & Hfaults).
  destruct (pg_begin pg) as [[e|] pg1]; cbn in *.
  - by destruct e.
  - by destruct (rows pg1 !! id).
Qed.

Lemma postgres_GetByID_answers (id : UUID) (pg : Postgres) :
  pg_answers pg → pg_answers (postgres_GetByID id pg).2.
Proof.
  unfold pg_answers. rewrite postgres_GetByID_faults.
  destruct (pg_faults pg) as [|f rest]; [done|]. intros Hall. by inversion Hall.
Qed.

Lemma consumer_UpdateNotification_frame {R Q D : Type}
    `{!NotificationRepository R, !NotificationQueue Q}
    (n : Notification) (c : Consumer R Q D) :
  calls (consumer_UpdateNotification n c).2 = calls c ++ [CallUpdateNotification n] ∧
  notifier (consumer_UpdateNotification n c).2 = notifier c ∧
  queue (service (consumer_UpdateNotification n c).2) = queue (service c).
Proof.
  unfold consumer_UpdateNotification, UpdateNotification. cbn.
  by destruct (repo_Update n (repo (service c))) as [[err|] r].
Qed.

Section EndToEnd.
Context {D : Type} `{!Notifier D}.
Context `{!UUIDText, !TimeJSON}.
Variable mail_ParseAddress : string → option error.
Implicit Types s : @System D.

Lemma Cached_GetByID_answers (id : UUID)
    (r : CachedNotificationRepository Postgres Redis) :
  pg_answers (primaryRepo r) → pg_answers (primaryRepo (Cached_GetByID id r).2).
Proof.
  intros Hall. unfold Cached_GetByID.
  destruct (cache_Get id (cache r)) as [[cached|e] c]; cbn; [done|].
  change (repo_GetByID id (primaryRepo r)) with (postgres_GetByID id (primaryRepo r)).
  pose proof (postgres_GetByID_answers id (primaryRepo r) Hall) as Hall'.
  destruct (postgres_GetByID id (primaryRepo r)) as [[primary|err] p]; cbn in *; [|done].
  by destruct (NotificationCache_Set primary (ttl r) c).
Qed.

(** The delivery of a scheduled record whose send succeeds, in full. *)
Lemma handleMessage_sent (now : Time) (msg : Delivery) s (n : Notification)
    (row : db_Notification) (d : D) :
  system_inv s →
  json_Unmarshal (delivery_Body msg) = Ok n →
  stored s !! ID n = Some row → db_Status row = StatusScheduled →
  pg_answers (primaryRepo (repo (service s))) →
  notifier_Send n (notifier s) = (None, d) →
  let r := handleMessage now msg s in
  r.1 = Ack ∧
  calls r.2 = calls s ++
    [CallGetNotificationByID (ID n); CallSend n;
     CallUpdateNotification (set_SentAt (Some now) (set_Status StatusSent n)); CallAck] ∧
  notifier r.2 = d ∧ broker r.2 = broker s ∧
  ∃ new, stored r.2 = <[ID n := new]> (stored s) ∧
         recorded StatusSent (Attempts n) (Some now) row new.
Proof.
  intros Hinv Hbody Hrow Hst Hall Hsend. cbn zeta.
  pose proof (GetNotificationByID_healthy (ID n) (service s) Hinv
                (pg_answers_healthy _ Hall)) as Hget.
  change (table (service s) !! ID n) with (stored s !! ID n) in Hget.
  rewrite Hrow in Hget. destruct Hget as (latest & Hlatest & Hstatus).
  destruct (GetNotificationByID_table (ID n) (service s)) as [Htable Hqueue].
  assert (Hall1 : pg_answers (primaryRepo (repo (GetNotificationByID (ID n) (service s)).2))).
  { unfold GetNotificationByID.
    change (repo_GetByID (ID n) (repo (service s)))
      with (Cached_GetByID (ID n) (repo (service s))).
    pose proof (Cached_GetByID_answers (ID n) (repo (service s)) Hall) as Hall'.
    by destruct (Cached_GetByID (ID n) (repo (service s))) as [[l|e] r1]. }
  unfold handleMessage. rewrite Hbody. cbn.
  destruct (GetNotificationByID (ID n) (service s)) as [res s1]; cbn in *. subst res.
  rewrite Hstatus, Hst. cbn. rewrite Hsend. cbn.
  set (n' := set_SentAt _ _).
  match goal with |- context [consumer_UpdateNotification n' ?c1] =>
    destruct (consumer_UpdateNotification_recorded n' c1 row)
      as (new & Hres & Hrows & Hrec);
      [by apply pg_answers_healthy
      |change (table s1 !! ID n = Some row); by rewrite Htable
      |done|];
    assert (Hc : calls (consumer_UpdateNotification n' c1).2
                 = calls c1 ++ [CallUpdateNotification n']
                 ∧ notifier (consumer_UpdateNotification n' c1).2 = notifier c1
                 ∧ queue (service (consumer_UpdateNotification n' c1).2)
                   = queue (service c1));
      [apply consumer_UpdateNotification_frame|];
    destruct (consumer_UpdateNotification n' c1) as [res c2] end.
  cbn in *. subst res. destruct Hc as (Hcalls & Hnot & Hq). cbn.
  split; [done|]. rewrite Hcalls, <- !app_assoc. cbn. split; [done|].
  split; [done|]. split; [unfold broker; cbn; by rewrite Hq, Hqueue|].
  exists new. split; [|done].
  change (table (service c2) = <[ID n := new]> (table (service s))).
  by rewrite Hrows, Htable.
Qed.

(** X28. From the request to the transport.  A notification that
    [CreateNotification] returned, in a system whose cache follows the
    table and whose broker was idle, is delivered by the first worker
    delivery after its delay has expired, when the database answers and the
    transport accepts it: the worker re-reads the record, sends exactly the
    record that was returned to the client, writes [sent] with the send
    time, and acknowledges; the broker is idle again. *)
Theorem created_is_delivered (id : UUID) (now0 : Time)
    (recipient channel subject message : string) (scheduledAt : Time)
    (authorID : option string) s (created : Notification)
    (s1 : NotificationService (CachedNotificationRepository Postgres Redis) Broker)
    (now : Time) (d : D) :
  system_inv s →
  in_flight (broker s) = [] →
  CreateNotification mail_ParseAddress id now0 recipient channel subject message
    scheduledAt authorID (service s) = (Ok created, s1) →
  pg_answers (primaryRepo (repo s1)) →
  notifier_Send created (notifier s) = (None, d) →
  let s' := system_run mail_ParseAddress
              [Create id now0 recipient channel subject message scheduledAt authorID;
               Pipeline ExpireWait; Pipeline (Work now)] s in
  calls s' = calls s ++
    [CallGetNotificationByID (ID created); CallSend created;
     CallUpdateNotification (set_SentAt (Some now) (set_Status StatusSent created));
     CallAck] ∧
  notifier s' = d ∧ in_flight (broker s') = [] ∧
  ∃ row, stored s' !! ID created = Some row ∧
         db_Status row = StatusSent ∧ db_SentAt row = Some (timestamptz now) ∧
         db_Attempts row = 0.
Proof.
  intros Hinv Hidle Hcreate Hall Hsend. cbn zeta.
  destruct (CreateNotification_Ok_spec _ _ _ _ _ _ _ _ _ _ _ _ Hcreate)
    as (Hfresh & (row & Hrows & Hdom) & Hst & Hat & _ & _ & _ & _ & _
        & (m & Hw & Hm) & Hr & Hq & _).
  destruct (CreateNotification_inv mail_ParseAddress id now0 recipient channel subject
              message scheduledAt authorID (service s) Hinv) as [Hinv1 _].
  cbn zeta in Hinv1. rewrite Hcreate in Hinv1. cbn in Hinv1.
  unfold in_flight in Hidle.
  apply app_eq_nil in Hidle as [Hw0 Hidle]. apply app_eq_nil in Hidle as [Hr0 Hq0].
  unfold broker in Hw0, Hr0, Hq0. rewrite Hw0 in Hw. rewrite Hr0 in Hr. rewrite Hq0 in Hq.
  cbn in Hw.
  unfold system_run. cbn [fold_left system_step pipeline_step].
  rewrite Hcreate. cbn [snd].
  set (c1 := with_service s1 s).
  assert (Hb1 : expire_wait (broker c1)
                = {| waitQueue := []; retryQueue := [];
                     notificationsQueue := [dead_letter m];
                     amqp_faults := amqp_faults (queue s1) |}).
  { unfold expire_wait, broker. cbn. by rewrite Hw, Hr, Hq. }
  rewrite Hb1. unfold worker_step. cbn [broker with_broker with_service with_queue
    service queue notificationsQueue].
  match goal with |- context [handleMessage now ?msg ?c2] =>
    destruct (handleMessage_sent now msg c2 created row d)
      as (Hack & Hcalls & Hnot & Hbroker & new & Hstored & Hrec) end.
  - exact Hinv1.
  - exact Hm.
  - unfold stored. cbn. unfold table in Hrows. rewrite Hrows.
    apply lookup_insert_eq.
  - by rewrite <- Hst, <- Hdom.
  - exact Hall.
  - exact Hsend.
  - match goal with |- context [handleMessage now ?msg ?c2] =>
      destruct (handleMessage now msg c2) as [res c3] end.
    cbn in *. subst res. cbn. split; [done|]. split; [done|].
    split; [by rewrite Hbroker|].
    exists new. rewrite Hstored, lookup_insert_eq.
    destruct Hrec as (H1 & H2 & H3 & _). rewrite H1, H2, H3, Hat. done.
Qed.
End EndToEnd.

(** ** A cancel, seen through the API *)

Lemma postgres_Delete_faults (id : UUID) (pg : Postgres) :
  pg_faults (postgres_Delete id pg).2 = (next_fault (pg_faults pg)).2.
Proof.
  unfold postgres_Delete, db_CancelNotification.
  destruct (pg_begin_spec pg) as (_ & Hrows & _ & _ & Hfaults).
  destruct (pg_begin pg) as [[e|] pg1]; cbn in *.
  - by destruct e.
  - by destruct (rows pg1 !! id).
Qed.

Lemma postgres_Delete_answers (id : UUID) (pg : Postgres) :
  pg_answers pg → pg_answers (postgres_Delete id pg).2.
Proof.
  unfold pg_answers. rewrite postgres_Delete_faults.
  destruct (pg_faults pg) as [|f rest]; [done|]. intros Hall. by inversion Hall.
Qed.

Section CancelSeen.
Context {Q : Type} `{!NotificationQueue Q}.
Context `{!UUIDText, !TimeJSON}.
Implicit Types s : NotificationService (CachedNotificationRepository Postgres Redis) Q.

Lemma Cached_Delete_through (id : UUID)
    (r : CachedNotificationRepository Postgres Redis) :
  (Cached_Delete id r).1 = (postgres_Delete id (primaryRepo r)).1 ∧
  primaryRepo (Cached_Delete id r).2 = (postgres_Delete id (primaryRepo r)).2.
Proof.
  unfold Cached_Delete.
  change (repo_Delete id (primaryRepo r)) with (postgres_Delete id (primaryRepo r)).
  destruct (postgres_Delete id (primaryRepo r)) as [[err|] p]; cbn; [done|].
  match goal with |- context [NotificationCache_Delete ?x ?y] =>
    by destruct (NotificationCache_Delete x y) end.
Qed.

(** The cancel of a scheduled record when the database answers. *)
Lemma CancelNotification_scheduled (id : UUID) s (row : db_Notification) :
  store_inv (repo s) → pg_answers (primaryRepo (repo s)) →
  table s !! id = Some row → db_Status row = StatusScheduled →
  (CancelNotification id s).1 = None ∧
  store_inv (repo (CancelNotification id s).2) ∧
  pg_answers (primaryRepo (repo (CancelNotification id s).2)) ∧
  ∃ new, table (CancelNotification id s).2 = <[id := new]> (table s) ∧
         db_Status new = StatusCancelled ∧ same_identity row new.
Proof.
  intros Hinv Hall Hrow Hst.
  pose proof (GetNotificationByID_healthy id s Hinv (pg_answers_healthy _ Hall)) as Hget.
  rewrite Hrow in Hget. destruct Hget as (n & Hn & Hstatus).
  destruct (CancelNotification_inv id s Hinv) as (Hinv' & _ & _).
  assert (Hread : (Cached_GetByID id (repo s)).1 = Ok n).
  { revert Hn. unfold GetNotificationByID.
    change (repo_GetByID id (repo s)) with (Cached_GetByID id (repo s)).
    by destruct (Cached_GetByID id (repo s)) as [[l|e] r1]. }
  pose proof (Cached_GetByID_rows id (repo s)) as Hrows.
  pose proof (Cached_GetByID_answers id (repo s) Hall) as Hall1.
  revert Hinv'. unfold CancelNotification, table in *.
  change (repo_GetByID id (repo s)) with (Cached_GetByID id (repo s)).
  destruct (Cached_GetByID id (repo s)) as [res r1]; cbn in *. subst res.
  rewrite Hstatus, Hst. cbn.
  change (repo_Delete id r1) with (Cached_Delete id r1).
  destruct (Cached_Delete_through id r1) as [Hres Hprimary].
  destruct (postgres_Delete_Ok id (primaryRepo r1) row)
    as (new & Hok & Hrows' & Hdom & Hem & Htg & Hid);
    [by apply pg_answers_healthy|by rewrite Hrows|].
  pose proof (postgres_Delete_answers id (primaryRepo r1) Hall1) as Hall2.
  destruct (Cached_Delete id r1) as [res r2]; cbn in *. intros Hinv'.
  rewrite Hok in Hres. subst res. split; [done|]. split; [done|].
  rewrite Hprimary. split; [done|]. exists new. rewrite Hrows', Hrows.
  split; [done|].
  unfold domain in Hdom. cbn in Hdom.
  injection Hdom as _ Hsu Hme Hch Hs Hat Hau _ _ Hsc Hse Hcr _.
  unfold same_identity. by repeat split.
Qed.

(** X29. A cancel is seen at once.  For a record that the table holds as
    scheduled, when cached copies agree with the table, the cache deletes
    succeed and the database answers, DELETE answers 204 and rewrites the
    row's status to [cancelled], keeping its other columns, and a GET that
    follows answers 200 with the status [cancelled]: the cached copy was
    dropped with the write. *)
Theorem cancel_is_visible (idStr : string) (id : UUID) s (row : db_Notification) :
  uuid_Parse idStr = Ok id →
  store_inv (repo s) → pg_answers (primaryRepo (repo s)) →
  table s !! id = Some row → db_Status row = StatusScheduled →
  let r := Handlers_CancelNotification idStr s in
  r.1 = StatusNoContent ∧
  (∃ new, table r.2 = <[id := new]> (table s) ∧
          db_Status new = StatusCancelled ∧ same_identity row new) ∧
  ∃ resp, (Handlers_GetNotificationByID idStr r.2).1 = (StatusOK, Some resp) ∧
          resp_Status resp = StatusCancelled.
Proof.
  intros Hparse Hinv Hall Hrow Hst. cbn zeta.
  destruct (CancelNotification_scheduled id s row Hinv Hall Hrow Hst)
    as (Hres & Hinv' & Hall' & new & Htable & Hnew & Hsame).
  unfold Handlers_CancelNotification, Handlers_GetNotificationByID. rewrite Hparse.
  destruct (CancelNotification id s) as [res s1]; cbn in *. subst res. cbn.
  split; [done|]. split; [by exists new|].
  pose proof (GetNotificationByID_healthy id s1 Hinv' (pg_answers_healthy _ Hall'))
    as Hget.
  rewrite Htable, lookup_insert_eq in Hget. destruct Hget as (n & Hn & Hstatus).
  destruct (GetNotificationByID id s1) as [got s2]; cbn in *. subst got.
  exists (toNotificationResponse n). split; [done|]. cbn. by rewrite Hstatus.
Qed.
End CancelSeen.

(** ** The topology of the broker *)

Definition Direct : string := "direct".

(** What the server keeps of an [ExchangeDeclare] and of a [QueueDeclare]. *)
Record ExchangeDeclaration : Type := {
  ed_kind : string;
  ed_durable : bool;
  ed_autoDelete : bool;
  ed_internal : bool;
  ed_args : gmap string string
}.

Record QueueDeclaration : Type := {
  qd_durable : bool;
  qd_autoDelete : bool;
  qd_exclusive : bool;
  qd_args : gmap string string
}.

#[global] Instance ExchangeDeclaration_eq_dec : EqDecision ExchangeDeclaration.
Proof. solve_decision. Defined.

#[global] Instance QueueDeclaration_eq_dec : EqDecision QueueDeclaration.
Proof. solve_decision. Defined.

(** The server as a channel sees it: the exchanges and the queues by name,
    the bindings (queue, routing key, exchange), and the failures still to
    come. *)
Record AMQPServer : Type := {
  srv_exchanges : gmap string ExchangeDeclaration;
  srv_queues : gmap string QueueDeclaration;
  srv_bindings : gset (string * string * string);
  srv_faults : list (option error)
}.

Definition srv_begin (srv : AMQPServer) : option error * AMQPServer :=
  let '(fault, rest) := next_fault (srv_faults srv) in
  (fault, {| srv_exchanges := srv_exchanges srv; srv_queues := srv_queues srv;
             srv_bindings := srv_bindings srv; srv_faults := rest |}).

(** A declaration creates what is missing, accepts what exists with the
    same properties, and is refused for what exists with other
    properties. *)
Definition ExchangeDeclare (name kind : string) (durable autoDelete internal noWait : bool)
    (args : gmap string string) (srv : AMQPServer) : option error * AMQPServer :=
  let '(fault, srv) := srv_begin srv in
  match fault with
  | Some err => (Some err, srv)
  | None =>
      let declaration := {| ed_kind := kind; ed_durable := durable;
                            ed_autoDelete := autoDelete; ed_internal := internal;
                            ed_args := args |} in
      match srv_exchanges srv !! name with
      | Some existing =>
          if bool_decide (existing = declaration) then (None, srv)
          else (Some (errorString "PRECONDITION_FAILED"), srv)
      | None =>
          (None, {| srv_exchanges := <[name := declaration]> (srv_exchanges srv);
                    srv_queues := srv_queues srv; srv_bindings := srv_bindings srv;
                    srv_faults := srv_faults srv |})
      end
  end.

Definition QueueDeclare (name : string) (durable autoDelete exclusive noWait : bool)
    (args : gmap string string) (srv : AMQPServer) : option error * AMQPServer :=
  let '(fault, srv) := srv_begin srv in
  match fault with
  | Some err => (Some err, srv)
  | None =>
      let declaration := {| qd_durable := durable; qd_autoDelete := autoDelete;
                            qd_exclusive := exclusive; qd_args := args |} in
      match srv_queues srv !! name with
      | Some existing =>
          if bool_decide (existing = declaration) then (None, srv)
          else (Some (errorString "PRECONDITION_FAILED"), srv)
      | None =>
          (None, {| srv_exchanges := srv_exchanges srv;
                    srv_queues := <[name := declaration]> (srv_queues srv);
                    srv_bindings := srv_bindings srv;
                    srv_faults := srv_faults srv |})
      end
  end.

(** A binding needs its queue and its exchange; binding twice is binding
    once. *)
Definition QueueBind (name key exchange : string) (noWait : bool)
    (args : gmap string string) (srv : AMQPServer) : option error * AMQPServer :=
  let '(fault, srv) := srv_begin srv in
  match fault with
  | Some err => (Some err, srv)
  | None =>
      if bool_decide (is_Some (srv_queues srv !! name))
         && bool_decide (is_Some (srv_exchanges srv !! exchange))
      then (None, {| srv_exchanges := srv_exchanges srv; srv_queues := srv_queues srv;
                     srv_bindings := {[ (name, key, exchange) ]} ∪ srv_bindings srv;
                     srv_faults := srv_faults srv |})
      else (Some (errorString "NOT_FOUND"), srv)
  end.

Fixpoint declare_exchanges (exchangesToDeclare : list (string * string))
    (srv : AMQPServer) : option error * AMQPServer :=
  match exchangesToDeclare with
  | [] => (None, srv)
  | (name, kind) :: rest =>
      match ExchangeDeclare name kind true false false false ∅ srv with
      | (Some err, srv) =>
          (Some (wrapError ("failed to declare exchange " +:+ name) err), srv)
      | (None, srv) => declare_exchanges rest srv
      end
  end.

Definition setupTopology (srv : AMQPServer) : option error * AMQPServer :=
  let exchangesToDeclare :=
    [(NotificationsExchange, Direct); (WaitExchange, Direct); (RetryExchange, Direct)] in
  match declare_exchanges exchangesToDeclare srv with
  | (Some err, srv) => (Some err, srv)
  | (None, srv) =>
  match QueueDeclare NotificationsQueue true false false false ∅ srv with
  | (Some err, srv) =>
      (Some (wrapError ("failed to declare queue " +:+ NotificationsQueue) err), srv)
  | (None, srv) =>
  let waitQueueArgs : gmap string string :=
    {[ "x-dead-letter-exchange"%string := NotificationsExchange ]} in
  match QueueDeclare WaitQueue true false false false waitQueueArgs srv with
  | (Some err, srv) =>
      (Some (wrapError ("failed to declare queue " +:+ WaitQueue) err), srv)
  | (None, srv) =>
  let retryQueueArgs : gmap string string :=
    {[ "x-dead-letter-exchange"%string := NotificationsExchange ]} in
  match QueueDeclare RetryQueue true false false false retryQueueArgs srv with
  | (Some err, srv) =>
      (Some (wrapError ("failed to declare queue " +:+ RetryQueue) err), srv)
  | (None, srv) =>
  match QueueBind NotificationsQueue "" NotificationsExchange false ∅ srv with
  | (Some err, srv) =>
      (Some (wrapError ("failed to bind queue " +:+ NotificationsQueue +:+
                        " to exchange " +:+ NotificationsExchange) err), srv)
  | (None, srv) =>
  match QueueBind WaitQueue "" WaitExchange false ∅ srv with
  | (Some err, srv) =>
      (Some (wrapError ("failed to bind queue " +:+ WaitQueue +:+
                        " to exchange " +:+ WaitExchange) err), srv)
  | (None, srv) =>
  match QueueBind RetryQueue "" RetryExchange false ∅ srv with
  | (Some err, srv) =>
      (Some (wrapError ("failed to bind queue " +:+ RetryQueue +:+
                        " to exchange " +:+ RetryExchange) err), srv)
  | (None, srv) => (None, srv)
  end end end end end end end.

(** Where a direct exchange puts a message: in the queues bound to it with
    the routing key of the message. *)
Definition route (srv : AMQPServer) (exchange key : string) : gset string :=
  set_map (λ b : string * string * string, b.1.1)
    (filter (λ b : string * string * string, b.1.2 = key ∧ b.2 = exchange)
       (srv_bindings srv)).

(** Where a message that expires in a queue goes: to the queue's
    dead-letter exchange, with the routing key it came with. *)
Definition dead_letter_route (srv : AMQPServer) (queue key : string) : gset string :=
  match srv_queues srv !! queue with
  | Some declaration =>
      match qd_args declaration !! "x-dead-letter-exchange"%string with
      | Some exchange => route srv exchange key
      | None => ∅
      end
  | None => ∅
  end.

Definition same_topology (srv srv' : AMQPServer) : Prop :=
  srv_exchanges srv' = srv_exchanges srv ∧ srv_queues srv' = srv_queues srv ∧
  srv_bindings srv' = srv_bindings srv.

Definition direct_exchange : ExchangeDeclaration :=
  {| ed_kind := Direct; ed_durable := true; ed_autoDelete := false;
     ed_internal := false; ed_args := ∅ |}.

Definition durable_queue (args : gmap string string) : QueueDeclaration :=
  {| qd_durable := true; qd_autoDelete := false; qd_exclusive := false;
     qd_args := args |}.

Lemma srv_begin_spec (srv : AMQPServer) :
  (srv_begin srv).1 = (next_fault (srv_faults srv)).1 ∧
  srv_exchanges (srv_begin srv).2 = srv_exchanges srv ∧
  srv_queues (srv_begin srv).2 = srv_queues srv ∧
  srv_bindings (srv_begin srv).2 = srv_bindings srv ∧
  srv_faults (srv_begin srv).2 = (next_fault (srv_faults srv)).2.
Proof. unfold srv_begin. by destruct (next_fault (srv_faults srv)). Qed.

Lemma ExchangeDeclare_Ok (name : string) (srv srv' : AMQPServer) :
  ExchangeDeclare name Direct true false false false ∅ srv = (None, srv') →
  srv_exchanges srv' = <[name := direct_exchange]> (srv_exchanges srv) ∧
  srv_queues srv' = srv_queues srv ∧ srv_bindings srv' = srv_bindings srv ∧
  srv_faults srv' = (next_fault (srv_faults srv)).2.
Proof.
  unfold ExchangeDeclare.
  destruct (srv_begin_spec srv) as (_ & He & Hq & Hb & Hf).
  destruct (srv_begin srv) as [[err|] srv1]; cbn in *; [done|].
  rewrite He. destruct (srv_exchanges srv !! name) as [existing|] eqn:Hex.
  - case_bool_decide as Heq; [|done]. intros [= <-].
    rewrite ?He, ?Hq, ?Hb, ?Hf. split; [|done]. subst existing.
    symmetry. by apply insert_id.
  - intros [= <-]. cbn. by rewrite ?He, ?Hq, ?Hb, ?Hf.
Qed.

Lemma QueueDeclare_Ok (name : string) (args : gmap string string)
    (srv srv' : AMQPServer) :
  QueueDeclare name true false false false args srv = (None, srv') →
  srv_exchanges srv' = srv_exchanges srv ∧
  srv_queues srv' = <[name := durable_queue args]> (srv_queues srv) ∧
  srv_bindings srv' = srv_bindings srv ∧
  srv_faults srv' = (next_fault (srv_faults srv)).2.
Proof.
  unfold QueueDeclare.
  destruct (srv_begin_spec srv) as (_ & He & Hq & Hb & Hf).
  destruct (srv_begin srv) as [[err|] srv1]; cbn in *; [done|].
  rewrite Hq. destruct (srv_queues srv !! name) as [existing|] eqn:Hex.
  - case_bool_decide as Heq; [|done]. intros [= <-].
    rewrite ?He, ?Hq, ?Hb, ?Hf. split; [done|]. split; [|done]. subst existing.
    symmetry. by apply insert_id.
  - intros [= <-]. cbn. by rewrite ?He, ?Hq, ?Hb, ?Hf.
Qed.

Lemma QueueBind_Ok (name key exchange : string) (srv srv' : AMQPServer) :
  QueueBind name key exchange false ∅ srv = (None, srv') →
  srv_exchanges srv' = srv_exchanges srv ∧
  srv_queues srv' = srv_queues srv ∧
  srv_bindings srv' = {[ (name, key, exchange) ]} ∪ srv_bindings srv ∧
  srv_faults srv' = (next_fault (srv_faults srv)).2.
Proof.
  unfold QueueBind.
  destruct (srv_begin_spec srv) as (_ & He & Hq & Hb & Hf).
  destruct (srv_begin srv) as [[err|] srv1]; cbn in *; [done|].
  destruct (bool_decide _ && bool_decide _); [|done].
  intros [= <-]. cbn. by rewrite ?He, ?Hq, ?Hb, ?Hf.
Qed.

(** A successful [setupTopology], in full. *)
Lemma setupTopology_Ok (srv srv' : AMQPServer) :
  setupTopology srv = (None, srv') →
  srv_exchanges srv' =
    <[RetryExchange := direct_exchange]>
      (<[WaitExchange := direct_exchange]>
         (<[NotificationsExchange := direct_exchange]> (srv_exchanges srv))) ∧
  srv_queues srv' =
    <[RetryQueue := durable_queue {[ "x-dead-letter-exchange"%string := NotificationsExchange ]}]>
      (<[WaitQueue := durable_queue {[ "x-dead-letter-exchange"%string := NotificationsExchange ]}]>
         (<[NotificationsQueue := durable_queue ∅]> (srv_queues srv))) ∧
  srv_bindings srv' =
    {[ (RetryQueue, ""%string, RetryExchange) ]} ∪
    ({[ (WaitQueue, ""%string, WaitExchange) ]} ∪
     ({[ (NotificationsQueue, ""%string, NotificationsExchange) ]} ∪ srv_bindings srv)).
Proof.
  unfold setupTopology, declare_exchanges.
  destruct (ExchangeDeclare NotificationsExchange _ _ _ _ _ _ srv) as [[e|] s1] eqn:H1;
    [done|].
  destruct (ExchangeDeclare WaitExchange _ _ _ _ _ _ s1) as [[e|] s2] eqn:H2; [done|].
  destruct (ExchangeDeclare RetryExchange _ _ _ _ _ _ s2) as [[e|] s3] eqn:H3; [done|].
  destruct (QueueDeclare NotificationsQueue _ _ _ _ _ s3) as [[e|] s4] eqn:H4; [done|].
  destruct (QueueDeclare WaitQueue _ _ _ _ _ s4) as [[e|] s5] eqn:H5; [done|].
  destruct (QueueDeclare RetryQueue _ _ _ _ _ s5) as [[e|] s6] eqn:H6; [done|].
  destruct (QueueBind NotificationsQueue _ _ _ _ s6) as [[e|] s7] eqn:H7; [done|].
  destruct (QueueBind WaitQueue _ _ _ _ s7) as [[e|] s8] eqn:H8; [done|].
  destruct (QueueBind RetryQueue _ _ _ _ s8) as [[e|] s9] eqn:H9; [done|].
  intros [= <-].
  apply ExchangeDeclare_Ok in H1 as (E1 & Q1 & B1 & _).
  apply ExchangeDeclare_Ok in H2 as (E2 & Q2 & B2 & _).
  apply ExchangeDeclare_Ok in H3 as (E3 & Q3 & B3 & _).
  apply QueueDeclare_Ok in H4 as (E4 & Q4 & B4 & _).
  apply QueueDeclare_Ok in H5 as (E5 & Q5 & B5 & _).
  apply QueueDeclare_Ok in H6 as (E6 & Q6 & B6 & _).
  apply QueueBind_Ok in H7 as (E7 & Q7 & B7 & _).
  apply QueueBind_Ok in H8 as (E8 & Q8 & B8 & _).
  apply QueueBind_Ok in H9 as (E9 & Q9 & B9 & _).
  split; [congruence|]. split; [congruence|]. congruence.
Qed.

(** No call on the channel fails from here on. *)
Definition quiet (srv : AMQPServer) : Prop :=
  Forall (λ f, f = None) (srv_faults srv).

Lemma srv_begin_quiet (srv : AMQPServer) :
  quiet srv → (srv_begin srv).1 = None ∧ quiet (srv_begin srv).2.
Proof.
  unfold quiet, srv_begin. destruct (srv_faults srv) as [|f rest]; cbn; [done|].
  intros Hall. by inversion Hall.
Qed.

Lemma ExchangeDeclare_again (name : string) (srv : AMQPServer) :
  quiet srv → srv_exchanges srv !! name = Some direct_exchange →
  ∃ srv', ExchangeDeclare name Direct true false false false ∅ srv = (None, srv') ∧
          same_topology srv srv' ∧ quiet srv'.
Proof.
  intros Hq Hex. unfold ExchangeDeclare.
  destruct (srv_begin_quiet srv Hq) as [Hf Hq'].
  destruct (srv_begin_spec srv) as (_ & He & Hqs & Hb & _).
  destruct (srv_begin srv) as [fault srv1]; cbn in *. subst fault.
  rewrite He, Hex. rewrite bool_decide_eq_true_2 by done.
  by exists srv1.
Qed.

Lemma QueueDeclare_again (name : string) (args : gmap string string) (srv : AMQPServer) :
  quiet srv → srv_queues srv !! name = Some (durable_queue args) →
  ∃ srv', QueueDeclare name true false false false args srv = (None, srv') ∧
          same_topology srv srv' ∧ quiet srv'.
Proof.
  intros Hq Hex. unfold QueueDeclare.
  destruct (srv_begin_quiet srv Hq) as [Hf Hq'].
  destruct (srv_begin_spec srv) as (_ & He & Hqs & Hb & _).
  destruct (srv_begin srv) as [fault srv1]; cbn in *. subst fault.
  rewrite Hqs, Hex. rewrite bool_decide_eq_true_2 by done.
  by exists srv1.
Qed.

Lemma QueueBind_again (name key exchange : string) (srv : AMQPServer) :
  quiet srv → is_Some (srv_queues srv !! name) →
  is_Some (srv_exchanges srv !! exchange) →
  (name, key, exchange) ∈ srv_bindings srv →
  ∃ srv', QueueBind name key exchange false ∅ srv = (None, srv') ∧
          same_topology srv srv' ∧ quiet srv'.
Proof.
  intros Hq Hqu Hex Hin. unfold QueueBind.
  destruct (srv_begin_quiet srv Hq) as [Hf Hq'].
  destruct (srv_begin_spec srv) as (_ & He & Hqs & Hb & _).
  destruct (srv_begin srv) as [fault srv1]; cbn in *. subst fault.
  rewrite He, Hqs. rewrite !bool_decide_eq_true_2 by done. cbn.
  eexists. split; [done|]. split; [|done].
  unfold same_topology; cbn. rewrite ?He, ?Hqs, ?Hb. split; [done|]. split; [done|].
  apply subseteq_union_1_L. by apply singleton_subseteq_l.
Qed.

(** X30. What [setupTopology] sets up.  When it succeeds, a message published
    to [wait.exchange] or [retry.exchange] with the empty routing key is put
    in the wait or the retry queue, a message that expires there is
    dead-lettered to the queue the workers consume, and nothing is
    dead-lettered from that queue; on a server without other bindings these
    are the only destinations.  Running it again on the topology it left
    (each process runs it at start) succeeds and changes nothing. *)
Theorem setupTopology_delay_path (srv srv' : AMQPServer) :
  setupTopology srv = (None, srv') →
  (WaitQueue ∈ route srv' WaitExchange "" ∧
   RetryQueue ∈ route srv' RetryExchange "" ∧
   NotificationsQueue ∈ dead_letter_route srv' WaitQueue "" ∧
   NotificationsQueue ∈ dead_letter_route srv' RetryQueue "" ∧
   dead_letter_route srv' NotificationsQueue "" = ∅) ∧
  (srv_bindings srv = ∅ →
   route srv' WaitExchange "" = {[ WaitQueue ]} ∧
   route srv' RetryExchange "" = {[ RetryQueue ]} ∧
   dead_letter_route srv' WaitQueue "" = {[ NotificationsQueue ]} ∧
   dead_letter_route srv' RetryQueue "" = {[ NotificationsQueue ]}) ∧
  (∀ again, same_topology srv' again → quiet again →
     ∃ srv'', setupTopology again = (None, srv'') ∧ same_topology srv' srv'').
Proof.
  intros Hok. destruct (setupTopology_Ok srv srv' Hok) as (He & Hq & Hb).
  assert (Hwq : srv_queues srv' !! WaitQueue
                = Some (durable_queue
                          {[ "x-dead-letter-exchange"%string := NotificationsExchange ]})).
  { rewrite Hq. rewrite lookup_insert_ne by done. apply lookup_insert_eq. }
  assert (Hrq : srv_queues srv' !! RetryQueue
                = Some (durable_queue
                          {[ "x-dead-letter-exchange"%string := NotificationsExchange ]})).
  { rewrite Hq. apply lookup_insert_eq. }
  assert (Hnq : srv_queues srv' !! NotificationsQueue = Some (durable_queue ∅)).
  { rewrite Hq. rewrite !lookup_insert_ne by done. apply lookup_insert_eq. }
  assert (Hroute : ∀ q ex, (q, ""%string, ex) ∈ srv_bindings srv' → q ∈ route srv' ex "").
  { intros q ex Hin. unfold route. apply elem_of_map. exists (q, ""%string, ex).
    split; [done|]. by apply elem_of_filter. }
  split; [|split].
  - unfold dead_letter_route. rewrite Hwq, Hrq, Hnq. cbn.
    rewrite lookup_singleton_eq, lookup_empty.
    repeat split; try done; apply Hroute; rewrite Hb;
      rewrite !elem_of_union, !elem_of_singleton; auto.
  - intros Hempty. rewrite Hempty in Hb.
    assert (Hexact : ∀ q ex, (q, ""%string, ex) ∈ srv_bindings srv' →
              (∀ q', (q', ""%string, ex) ∈ srv_bindings srv' → q' = q) →
              route srv' ex "" = {[ q ]}).
    { intros q ex Hin Huniq. apply leibniz_equiv. intros x. split.
      - unfold route. intros Hx. apply elem_of_map in Hx as (b & -> & Hx).
        apply elem_of_filter in Hx as [[Hk Hx] Hin']. destruct b as [[q' k] ex'].
        cbn in *. subst k ex'. apply elem_of_singleton. by apply Huniq.
      - intros Hx. apply elem_of_singleton in Hx. subst x. by apply Hroute. }
    assert (Hin : ∀ b, b ∈ srv_bindings srv' ↔
              b = (RetryQueue, ""%string, RetryExchange) ∨
              b = (WaitQueue, ""%string, WaitExchange) ∨
              b = (NotificationsQueue, ""%string, NotificationsExchange)).
    { intros b. rewrite Hb, !elem_of_union, !elem_of_singleton, elem_of_empty.
      tauto. }
    unfold dead_letter_route. rewrite Hwq, Hrq. cbn. rewrite lookup_singleton_eq.
    repeat split; apply Hexact;
      try (apply Hin; by auto);
      intros q' Hq'; apply Hin in Hq' as [Hq'|[Hq'|Hq']]; by injection Hq'.
  - intros again (Ae & Aq & Ab) Hquiet.
    assert (Hwe : srv_exchanges srv' !! WaitExchange = Some direct_exchange).
    { rewrite He. rewrite lookup_insert_ne by done. apply lookup_insert_eq. }
    assert (Hre : srv_exchanges srv' !! RetryExchange = Some direct_exchange).
    { rewrite He. apply lookup_insert_eq. }
    assert (Hne : srv_exchanges srv' !! NotificationsExchange = Some direct_exchange).
    { rewrite He. rewrite !lookup_insert_ne by done. apply lookup_insert_eq. }
    assert (Hbn : (NotificationsQueue, ""%string, NotificationsExchange) ∈ srv_bindings srv')
      by (rewrite Hb, !elem_of_union, !elem_of_singleton; auto).
    assert (Hbw : (WaitQueue, ""%string, WaitExchange) ∈ srv_bindings srv')
      by (rewrite Hb, !elem_of_union, !elem_of_singleton; auto).
    assert (Hbr : (RetryQueue, ""%string, RetryExchange) ∈ srv_bindings srv')
      by (rewrite Hb, !elem_of_union, !elem_of_singleton; auto).
    unfold setupTopology, declare_exchanges.
    destruct (ExchangeDeclare_again NotificationsExchange again Hquiet)
      as (s1 & -> & (E1 & Q1 & B1) & H1); [by rewrite Ae|].
    destruct (ExchangeDeclare_again WaitExchange s1 H1)
      as (s2 & -> & (E2 & Q2 & B2) & H2); [by rewrite E1, Ae|].
    destruct (ExchangeDeclare_again RetryExchange s2 H2)
      as (s3 & -> & (E3 & Q3 & B3) & H3); [by rewrite E2, E1, Ae|].
    destruct (QueueDeclare_again NotificationsQueue ∅ s3 H3)
      as (s4 & -> & (E4 & Q4 & B4) & H4); [by rewrite Q3, Q2, Q1, Aq|].
    destruct (QueueDeclare_again WaitQueue
                {[ "x-dead-letter-exchange"%string := NotificationsExchange ]} s4 H4)
      as (s5 & -> & (E5 & Q5 & B5) & H5); [by rewrite Q4, Q3, Q2, Q1, Aq|].
    destruct (QueueDeclare_again RetryQueue
                {[ "x-dead-letter-exchange"%string := NotificationsExchange ]} s5 H5)
      as (s6 & -> & (E6 & Q6 & B6) & H6); [by rewrite Q5, Q4, Q3, Q2, Q1, Aq|].
    destruct (QueueBind_again NotificationsQueue "" NotificationsExchange s6 H6)
      as (s7 & -> & (E7 & Q7 & B7) & H7).
    { by rewrite Q6, Q5, Q4, Q3, Q2, Q1, Aq, Hnq. }
    { by rewrite E6, E5, E4, E3, E2, E1, Ae, Hne. }
    { by rewrite B6, B5, B4, B3, B2, B1, Ab. }
    destruct (QueueBind_again WaitQueue "" WaitExchange s7 H7)
      as (s8 & -> & (E8 & Q8 & B8) & H8).
    { by rewrite Q7, Q6, Q5, Q4, Q3, Q2, Q1, Aq, Hwq. }
    { by rewrite E7, E6, E5, E4, E3, E2, E1, Ae, Hwe. }
    { by rewrite B7, B6, B5, B4, B3, B2, B1, Ab. }
    destruct (QueueBind_again RetryQueue "" RetryExchange s8 H8)
      as (s9 & -> & (E9 & Q9 & B9) & H9).
    { by rewrite Q8, Q7, Q6, Q5, Q4, Q3, Q2, Q1, Aq, Hrq. }
    { by rewrite E8, E7, E6, E5, E4, E3, E2, E1, Ae, Hre. }
    { by rewrite B8, B7, B6, B5, B4, B3, B2, B1, Ab. }
    exists s9. split; [done|]. unfold same_topology.
    rewrite E9, E8, E7, E6, E5, E4, E3, E2, E1, Ae.
    rewrite Q9, Q8, Q7, Q6, Q5, Q4, Q3, Q2, Q1, Aq.
    by rewrite B9, B8, B7, B6, B5, B4, B3, B2, B1, Ab.
Qed.

(** * More sample runs *)

Section MoreSamples.
#[local] Existing Instance decimal_UUIDText.
#[local] Existing Instance decimal_TimeJSON.

(** An empty database that will hand out the identifier 7, and the same
    database after the sample notification was saved. *)
Definition sample_Postgres : Postgres :=
  {| rows := ∅; pg_now := 1000; pg_random := [7%N]; pg_faults := [] |}.

Definition sample_saved : Postgres :=
  (postgres_Save sample_Notification sample_Postgres).2.

Definition sample_Redis : Redis :=
  {| redis_data := ∅; redis_get_faults := []; redis_set_faults := [];
     redis_del_faults := [] |}.

Definition sample_Broker : Broker :=
  {| waitQueue := []; retryQueue := []; notificationsQueue := []; amqp_faults := [] |}.

Definition sample_Transports (telegram : list (option error)) : Transports :=
  {| smtp_delivered := []; telegram_delivered := [];
     smtp_faults := []; telegram_faults := telegram |}.

Definition sample_sent : Notification := set_Status StatusSent sample_Notification.

(** The system with the sample notification created and scheduled. *)
Definition sample_created : @System (Dispatcher * Transports) :=
  sample_run [sample_Create] (sample_System "log_only" "" [] [] []).

Lemma sample_created_inv : system_inv sample_created.
Proof.
  apply (system_run_inv sample_ParseAddress [sample_Create]).
  apply system_inv_initial; [reflexivity|reflexivity|constructor].
Defined.

Lemma sample_delivered_inv :
  system_inv (sample_delivered (sample_System "log_only" "" [] [] [])).
Proof.
  apply (system_run_inv sample_ParseAddress
           [sample_Create; Pipeline ExpireWait; Pipeline (Work 3000)]).
  apply system_inv_initial; [reflexivity|reflexivity|constructor].
Defined.

Lemma postgres_Save_then_GetByID_witness :
  ∃ created, (postgres_Save sample_Notification sample_Postgres).1 = Ok created ∧
             (postgres_GetByID (ID created) sample_saved).1 = Ok created.
Proof.
  edestruct (postgres_Save_then_GetByID sample_Notification sample_Postgres)
    as (_ & _ & _ & _ & _ & _ & _ & _ & _ & _ & Hget).
  { vm_compute. reflexivity. }
  eexists. split; [vm_compute; reflexivity|]. apply Hget. reflexivity.
Defined.

Lemma postgres_Update_then_GetByID_witness :
  (postgres_Update sample_sent sample_saved).1 = None ∧
  ∃ n, (postgres_GetByID 7%N (postgres_Update sample_sent sample_saved).2).1 = Ok n ∧
       Status n = StatusSent.
Proof.
  edestruct (postgres_Update_then_GetByID sample_sent sample_saved)
    as (Hres & _ & Hget);
    [reflexivity | vm_compute; reflexivity | reflexivity |].
  split; [exact Hres|]. eexists. split; [apply Hget; reflexivity|reflexivity].
Defined.

Lemma postgres_not_found_witness :
  (postgres_GetByID 7%N sample_Postgres).1 = Err ErrNotFound ∧
  (postgres_Delete 7%N sample_Postgres).1 = Some ErrNotFound.
Proof.
  destruct (postgres_not_found sample_Notification sample_Postgres)
    as [Hget Habsent]; [reflexivity|].
  split; [by apply Hget|by apply Habsent].
Defined.

Lemma postgres_Delete_then_GetByID_witness :
  (postgres_Delete 7%N sample_saved).1 = None ∧
  ∃ n, (postgres_GetByID 7%N (postgres_Delete 7%N sample_saved).2).1 = Ok n ∧
       Status n = StatusCancelled.
Proof.
  edestruct (postgres_Delete_then_GetByID 7%N sample_saved)
    as (Hres & _ & Hget); [reflexivity | vm_compute; reflexivity |].
  split; [exact Hres|]. eexists. split; [apply Hget; reflexivity|reflexivity].
Defined.

Lemma recipient_coherence_at_every_read_witness :
  ∃ n, (postgres_GetByID 7%N
          (postgres_run [OpSave sample_Notification; OpDelete 7%N] sample_Postgres)).1
         = Ok n ∧
       ID n = 7%N ∧ notification_status (Status n) = true.
Proof.
  edestruct (recipient_coherence_at_every_read
               [OpSave sample_Notification; OpDelete 7%N] sample_Postgres 7%N)
    as (Hid & Hst & _); [reflexivity | vm_compute; reflexivity |].
  eexists. split; [vm_compute; reflexivity|]. split; [exact Hid|exact Hst].
Defined.

Lemma records_are_kept_witness :
  ∃ row', rows (postgres_run [OpUpdate sample_sent; OpDelete 7%N] sample_saved) !! 7%N
            = Some row' ∧
          db_Subject row' = "subject"%string.
Proof.
  edestruct (records_are_kept [OpUpdate sample_sent; OpDelete 7%N] sample_saved 7%N)
    as (row' & Hrow' & Hsame); [vm_compute; reflexivity|].
  exists row'. split; [exact Hrow'|]. by destruct Hsame as (_ & -> & _).
Defined.

Lemma cache_Set_then_Get_witness :
  (NotificationCache_Get 7%N
     (NotificationCache_Set sample_Notification (60 * Second) sample_Redis).2).1
    = Ok sample_Notification.
Proof.
  apply (cache_Set_then_Get sample_Notification (60 * Second) sample_Redis).
  - split; reflexivity.
  - vm_compute. reflexivity.
  - vm_compute. reflexivity.
Defined.

Lemma cache_entries_are_independent_witness :
  (NotificationCache_Get 8%N
     (NotificationCache_Set sample_Notification (60 * Second) sample_Redis).2).1
    = (NotificationCache_Get 8%N sample_Redis).1.
Proof.
  destruct (cache_entries_are_independent sample_Notification (60 * Second) 8%N
              sample_Redis) as [Hset _]; [discriminate|].
  exact Hset.
Defined.

Lemma read_through_witness :
  let r := NewCachedNotificationRepository sample_saved sample_Redis in
  let r1 := (Cached_GetByID 7%N r).2 in
  ∃ n, (Cached_GetByID 7%N r).1 = Ok n ∧
       (Cached_GetByID 7%N r1).1 = Ok n ∧
       primaryRepo (Cached_GetByID 7%N r1).2 = primaryRepo r1.
Proof.
  cbv zeta.
  edestruct (read_through 7%N (NewCachedNotificationRepository sample_saved sample_Redis))
    as (Hfirst & Hprimary & Hsecond).
  - vm_compute. reflexivity.
  - vm_compute. reflexivity.
  - split; reflexivity.
  - reflexivity.
  - vm_compute. reflexivity.
  - cbv zeta in Hsecond. destruct Hsecond as [Hhit Hsame]; [vm_compute; reflexivity|].
    eexists. split; [exact Hfirst|]. split; [exact Hhit|].
    rewrite Hsame. symmetry. exact Hprimary.
Defined.

Lemma Save_warms_the_cache_witness :
  let r := NewCachedNotificationRepository sample_Postgres sample_Redis in
  ∃ created, (Cached_Save sample_Notification r).1 = Ok created ∧
             (Cached_GetByID (ID created) (Cached_Save sample_Notification r).2).1
               = Ok created.
Proof.
  cbv zeta.
  edestruct (Save_warms_the_cache sample_Notification
               (NewCachedNotificationRepository sample_Postgres sample_Redis))
    as (Hsave & Hget).
  - vm_compute. reflexivity.
  - split; reflexivity.
  - vm_compute. reflexivity.
  - cbv zeta in Hget. destruct Hget as [Hhit _]; [vm_compute; reflexivity|].
    eexists. split; [exact Hsave|exact Hhit].
Defined.

Lemma published_is_delivered_witness :
  ∃ m, notificationsQueue
         (expire_wait (RabbitMQQueue_Publish 1000 sample_Notification sample_Broker).2)
         = [m] ∧
       json_Unmarshal (Body m) = Ok sample_Notification.
Proof.
  destruct (published_is_delivered 1000 sample_Notification (10 * Second) sample_Broker)
    as [Hwait _]; [split; reflexivity|].
  destruct Hwait as (m & Hq & Hm & _); [vm_compute; reflexivity|].
  exists m. split; [exact Hq|exact Hm].
Defined.

Lemma CreateNotification_rejects_witness :
  let s := service (sample_System "log_only" "" [] [] []) in
  ∃ err, CreateNotification sample_ParseAddress 1%N 1000 "nobody" "email" "subject"
           "hello" 2000 None s = (Err err, s).
Proof.
  cbv zeta.
  apply (CreateNotification_rejects sample_ParseAddress).
  left. split; [reflexivity|]. vm_compute. discriminate.
Defined.

Lemma CreateNotification_stores_and_schedules_witness :
  let s := service (sample_System "log_only" "" [] [] []) in
  ∃ created s',
    CreateNotification sample_ParseAddress 1%N 1000 "42" "telegram" "subject" "hello"
      2000 None s = (Ok created, s') ∧
    table s !! ID created = None ∧ Status created = StatusScheduled ∧
    ∃ m, waitQueue (queue s') = [m] ∧ json_Unmarshal (Body m) = Ok created.
Proof.
  cbv zeta.
  edestruct (CreateNotification_stores_and_schedules sample_ParseAddress 1%N 1000
               "42" "telegram" "subject" "hello" 2000 None
               (service (sample_System "log_only" "" [] [] [])))
    as (Hfresh & _ & Hst & _ & _ & _ & _ & _ & _ & Hm & _).
  { vm_compute. reflexivity. }
  eexists _, _. split; [vm_compute; reflexivity|].
  split; [exact Hfresh|]. split; [exact Hst|exact Hm].
Defined.

Lemma CreateNotification_unscheduled_row_witness :
  let s := service (sample_System "log_only" "" [] [refused] []) in
  ∃ e s' row,
    CreateNotification sample_ParseAddress 1%N 1000 "42" "telegram" "subject"
      "hello" 2000 None s
      = (Err (wrapError "failed to schedule notification" e), s') ∧
    table s' !! db_ID row = Some row ∧ db_Status row = StatusScheduled ∧
    in_flight (queue s') = [].
Proof.
  cbv zeta.
  edestruct (CreateNotification_unscheduled_row sample_ParseAddress 1%N 1000
               "42" "telegram" "subject" "hello" 2000 None
               (service (sample_System "log_only" "" [] [refused] [])))
    as (row & _ & Htable & Hst & _ & Hq).
  { vm_compute. reflexivity. }
  eexists _, _, row. split; [vm_compute; reflexivity|].
  split; [|split; [exact Hst|exact Hq]].
  rewrite Htable. apply lookup_insert_eq.
Defined.

Lemma create_handler_codes_witness :
  let s := service (sample_System "log_only" "" [] [] []) in
  let req := {| req_Recipient := "nobody"; req_Channel := "email";
                req_Subject := "subject"; req_Message := "hello";
                req_ScheduledAt := 2000; req_AuthorID := None |} in
  Handlers_CreateNotification sample_ParseAddress 1%N 1000 (Ok req) s
    = ((StatusInternalServerError, None), s).
Proof.
  cbv zeta.
  edestruct (create_handler_codes sample_ParseAddress 1%N 1000
               (Ok {| req_Recipient := "nobody"; req_Channel := "email";
                      req_Subject := "subject"; req_Message := "hello";
                      req_ScheduledAt := 2000; req_AuthorID := None |})
               (service (sample_System "log_only" "" [] [] []))) as [_ Hreq].
  { intros recipient e. unfold sample_ParseAddress.
    destruct (has_at recipient); [discriminate|]. intros [= <-]. reflexivity. }
  destruct (Hreq _ eq_refl) as (Hinvalid & _).
  apply Hinvalid. left. split; [reflexivity|]. vm_compute. discriminate.
Defined.

Lemma GET_reads_the_table_witness :
  ∃ resp, (Handlers_GetNotificationByID "7" (service sample_created)).1
            = (StatusOK, Some resp) ∧
          resp_Status resp = StatusScheduled.
Proof.
  edestruct (GET_reads_the_table "7" 7%N (service sample_created)) as [_ Hrow].
  - reflexivity.
  - exact sample_created_inv.
  - reflexivity.
  - cbv zeta in Hrow.
    assert (Hlookup : ∃ row, table (service sample_created) !! (7%N : UUID) = Some row ∧
                             db_Status row = StatusScheduled).
    { eexists. split; [vm_compute; reflexivity|reflexivity]. }
    destruct Hlookup as (row & Hlookup & Hst). rewrite Hlookup in Hrow.
    destruct Hrow as (resp & Hresp & Hstatus).
    exists resp. split; [exact Hresp|]. by rewrite Hstatus.
Defined.

Lemma scheduled_rows_show_no_attempt_witness :
  ∃ row, stored sample_created !! 7%N = Some row ∧
         db_Attempts row = 0 ∧ db_SentAt row = None.
Proof.
  assert (Hlookup : ∃ row, stored sample_created !! 7%N = Some row ∧
                           db_Status row = StatusScheduled).
  { eexists. split; [vm_compute; reflexivity|reflexivity]. }
  destruct Hlookup as (row & Hlookup & Hst).
  exists row. split; [exact Hlookup|].
  apply (scheduled_rows_show_no_attempt sample_ParseAddress [sample_Create]
           (sample_System "log_only" "" [] [] []) 7%N row);
    [reflexivity|exact Hlookup|exact Hst].
Defined.

Lemma never_rescheduled_witness :
  let s := sample_delivered (sample_System "log_only" "" [] [] []) in
  ∃ row', stored (sample_run [Cancel "7"; Pipeline (Work 4000)] s) !! 7%N = Some row' ∧
          db_Status row' ≠ StatusScheduled.
Proof.
  cbv zeta.
  edestruct (never_rescheduled sample_ParseAddress [Cancel "7"; Pipeline (Work 4000)]
               (sample_delivered (sample_System "log_only" "" [] [] [])) 7%N)
    as (row' & Hrow' & Hst'); [vm_compute; reflexivity|discriminate|].
  exists row'. split; [exact Hrow'|exact Hst'].
Defined.

Lemma delivery_outcome_is_recorded_witness :
  let r := handleMessage 3000 {| delivery_Body := sample_body |} sample_created in
  r.1 = Ack ∧
  ∃ new, table (service r.2) !! 7%N = Some new ∧ db_Status new = StatusSent.
Proof.
  cbv zeta.
  epose proof (delivery_outcome_is_recorded 3000 {| delivery_Body := sample_body |}
                 sample_created sample_Notification) as Hrec.
  edestruct Hrec as [Hack (new & Htable & Hst & _)].
  - vm_compute. reflexivity.
  - vm_compute. reflexivity.
  - reflexivity.
  - vm_compute. reflexivity.
  - reflexivity.
  - split; [exact Hack|]. exists new. split; [|exact Hst].
    rewrite Htable. apply lookup_insert_eq.
Defined.

Lemma no_send_once_final_witness :
  let s := sample_delivered (sample_System "log_only" "" [] [] []) in
  ∃ later,
    calls (sample_run [Cancel "7"; Pipeline (Work 4000)] s) = calls s ++ later ∧
    ∀ n, CallSend n ∈ later → ID n ≠ 7%N.
Proof.
  cbv zeta.
  edestruct (no_send_once_final sample_ParseAddress [Cancel "7"; Pipeline (Work 4000)]
               (sample_delivered (sample_System "log_only" "" [] [] [])) 7%N)
    as (later & Hcalls & Hsends).
  - exact sample_delivered_inv.
  - vm_compute. reflexivity.
  - discriminate.
  - exists later. split; [exact Hcalls|exact Hsends].
Defined.

Lemma dispatcher_unknown_channel_witness :
  Dispatcher_Send (sample_Dispatcher "log_only" "")
    (set_Channel "sms" sample_Notification) (sample_Transports [])
    = (Some (notifier_not_found "sms"), sample_Transports []).
Proof.
  destruct (dispatcher_unknown_channel sample_newBotAPI (sample_Config "log_only" "")
              (sample_Dispatcher "log_only" "")
              (set_Channel "sms" sample_Notification) (sample_Transports []))
    as [_ Hsend]; [reflexivity|discriminate|discriminate|].
  exact Hsend.
Defined.

Lemma dry_run_never_delivers_witness :
  ∃ d, NewDispatcher sample_newBotAPI (sample_Config "log_only" "token") = Ok d ∧
       (Dispatcher_Send d sample_Notification (sample_Transports [refused])).2
         = sample_Transports [refused].
Proof.
  destruct (dry_run_never_delivers sample_newBotAPI (sample_Config "log_only" "token")
              sample_Notification (sample_Transports [refused]))
    as (d & Hd & Hsame & _); [discriminate|].
  exists d. split; [exact Hd|exact Hsame].
Defined.

Lemma delivery_matches_channel_witness :
  let r := Dispatcher_Send (sample_Dispatcher "production" "token") sample_Notification
             (sample_Transports [refused]) in
  smtp_delivered r.2 = [] ∧ telegram_delivered r.2 = [].
Proof.
  cbv zeta.
  destruct (delivery_matches_channel sample_newBotAPI (sample_Config "production" "token")
              (sample_Dispatcher "production" "token") sample_Notification
              (sample_Transports [refused]))
    as (_ & _ & Herr); [reflexivity|].
  apply Herr. vm_compute. discriminate.
Defined.

Lemma created_is_delivered_witness :
  let s := sample_delivered (sample_System "log_only" "" [] [] []) in
  count is_Send (calls s) = 1%nat ∧ in_flight (broker s) = [] ∧
  ∃ row, stored s !! 7%N = Some row ∧ db_Status row = StatusSent.
Proof.
  cbv zeta.
  edestruct (created_is_delivered sample_ParseAddress 1%N 1000 "42" "telegram"
               "subject" "hello" 2000 None (sample_System "log_only" "" [] [] []))
    as (Hcalls & _ & Hidle & row & Hrow & Hst & _).
  - apply system_inv_initial; [reflexivity|reflexivity|constructor].
  - reflexivity.
  - vm_compute. reflexivity.
  - constructor.
  - vm_compute. reflexivity.
  - cbv zeta in Hcalls, Hidle, Hrow.
    split; [|split; [exact Hidle|]].
    + unfold sample_delivered, sample_run, sample_Create. rewrite Hcalls. reflexivity.
    + exists row. split; [exact Hrow|exact Hst].
Defined.

Lemma cancel_is_visible_witness :
  let r := Handlers_CancelNotification "7" (service sample_created) in
  r.1 = StatusNoContent ∧
  ∃ resp, (Handlers_GetNotificationByID "7" r.2).1 = (StatusOK, Some resp) ∧
          resp_Status resp = StatusCancelled.
Proof.
  cbv zeta.
  edestruct (cancel_is_visible "7" 7%N (service sample_created))
    as (Hres & _ & Hget).
  - reflexivity.
  - exact sample_created_inv.
  - constructor.
  - vm_compute. reflexivity.
  - reflexivity.
  - split; [exact Hres|exact Hget].
Defined.

Definition sample_Server : AMQPServer :=
  {| srv_exchanges := ∅; srv_queues := ∅; srv_bindings := ∅; srv_faults := [] |}.

Lemma setupTopology_delay_path_witness :
  let srv' := (setupTopology sample_Server).2 in
  route srv' WaitExchange "" = {[ WaitQueue ]} ∧
  dead_letter_route srv' WaitQueue "" = {[ NotificationsQueue ]} ∧
  (setupTopology srv').1 = None.
Proof.
  cbv zeta.
  destruct (setupTopology_delay_path sample_Server (setupTopology sample_Server).2)
    as (_ & Hexact & Hagain); [vm_compute; reflexivity|].
  destruct Hexact as (Hw & _ & Hd & _); [reflexivity|].
  split; [exact Hw|]. split; [exact Hd|].
  destruct (Hagain (setupTopology sample_Server).2) as (srv'' & Hok & _);
    [by repeat split|constructor|].
  by rewrite Hok.
Defined.
End MoreSamples.
